(** * A shallow embedding of the user-management service (REST + gRPC)

    The development follows the layering of the repository:

    - [internal/retry]     : [calculateDelay], [ExecuteWithRetry];
    - [internal/database]  : the [...WithRetry] data-access functions;
    - [internal/service]   : [UserService];
    - [internal/api]       : the gin handlers (HTTP-style adapter);
    - [internal/grpc]      : [GrpcUserService] (RPC-style adapter);
    - [internal/metrics]   : the request counters and the health check;
    - [cmd/server]         : the protected routes, behind the credential
      check [AuthMiddleware] of [internal/api];
    - the [package main] of the first, single-package version of the
      server, whose handlers the gin handlers were made from.

    Go values are modelled as follows.  [int], [uint], [time.Duration] and
    [time.Time] are integers in [Z] (a duration counts nanoseconds, the zero
    [time.Time] is [0]); Go strings are byte strings, here [string]; a
    function returning [error] returns [option error] ([None] is [nil]);
    a function that mutates the process state (the database behind [db],
    the clock, the goroutine put to sleep) takes the state and returns the
    new one.  Log entries never influence what a function returns or
    stores and are left out; the metrics registry is a state of its own,
    threaded through the functions of package metrics only. *)

From Stdlib Require Import ZArith List String Ascii Bool Lia.
From Stdlib Require Import DecimalString DecimalPos.
Import ListNotations.

Open Scope string_scope.
Open Scope Z_scope.

Set Warnings "-register-all".

(* ================================================================= *)
(** ** Errors *)

(** The Go [error] values that reach the code of the repository.
    [ErrText] stands for any error created from a text (a driver error
    such as a unique violation or a lost connection, a bcrypt failure);
    [ErrRetry] is the value built by
    [fmt.Errorf("operation '%s' failed after %d attempts: %w", ...)]
    at the end of [ExecuteWithRetry]; its last component is the wrapped
    error, [None] when [%w] receives [nil]. *)
Inductive error : Type :=
| ErrRecordNotFound
| ErrMismatchedHashAndPassword
| ErrText (msg : string)
| ErrRetry (operation : string) (attempts : Z) (last : option error).

(** [%d] of an [int]. *)
Definition itoa (z : Z) : string := NilZero.string_of_int (Z.to_int z).

(** The method [Error()]. *)
Fixpoint Error (e : error) : string :=
  match e with
  | ErrRecordNotFound => "record not found"
  | ErrMismatchedHashAndPassword =>
      "crypto/bcrypt: hashedPassword is not the hash of the given password"
  | ErrText msg => msg
  | ErrRetry operation attempts last =>
      ("operation '" ++ operation ++ "' failed after " ++ itoa attempts
        ++ " attempts: "
        ++ match last with
           | Some e' => Error e'
           | None => "%!w(<nil>)"
           end)%string
  end.

(** [errors.Unwrap]. *)
Definition Unwrap (e : error) : option error :=
  match e with
  | ErrRetry _ _ last => last
  | _ => None
  end.

(** [errors.Is(err, gorm.ErrRecordNotFound)]: the sentinel is looked for
    along the chain of wrapped errors. *)
Fixpoint IsRecordNotFound (e : error) : bool :=
  match e with
  | ErrRecordNotFound => true
  | ErrRetry _ _ (Some e') => IsRecordNotFound e'
  | _ => false
  end.

(** [strings.Contains]. *)
Fixpoint Contains (s substr : string) : bool :=
  String.prefix substr s
  || match s with
     | EmptyString => false
     | String _ s' => Contains s' substr
     end.

(* ================================================================= *)
(** ** Package time *)

(** A [time.Duration] counts nanoseconds; a [time.Time] counts them from
    its zero value. *)
Definition Duration := Z.
Definition Time := Z.
Definition Millisecond : Duration := 1000000.
Definition Second : Duration := 1000000000.
Definition Hour : Duration := 3600 * Second.

(** [t.Unix()] *)
Definition Unix (t : Time) : Z := t / Second.

(* ================================================================= *)
(** ** Collaborators outside the repository *)

(** Libraries whose internals the repository does not contain are taken
    as parameters: bcrypt, the JWT signer, the [email] tag of the request
    validator, [time.Format], and the result of a float-to-integer
    conversion whose value does not fit [int64] (left to the
    implementation by the Go specification; it receives the two float
    operands of the product that was converted). *)
Record Env : Type := {
  GenerateFromPassword : string -> string + error;
  CompareHashAndPassword : string -> string -> option error;
  SignedString : Z -> Z -> string + error;
  IsEmail : string -> bool;
  FormatRFC3339 : Z -> string;
  ConvOutOfRange : Z -> Z -> Z
}.

(* ================================================================= *)
(** ** Package retry *)

Module retry.

Record RetryConfig : Type := {
  MaxAttempts : Z;
  BaseDelay : Duration;
  MaxDelay : Duration
}.

Definition DefaultRetryConfig : RetryConfig :=
  {| MaxAttempts := 3;
     BaseDelay := 100 * Millisecond;
     MaxDelay := 2 * Second |}.

Definition minInt64 : Z := - 2 ^ 63.
Definition maxInt64 : Z := 2 ^ 63 - 1.

(** Two's complement wrap-around of [int] arithmetic. *)
Definition wrapInt (z : Z) : Z := (z + 2 ^ 63) mod 2 ^ 64 - 2 ^ 63.

(** [float64(x)] for an [int64] [x], as the integer it denotes: [x]
    itself below [2^53], otherwise [x] rounded to 53 significant bits, ties
    to even. *)
Definition float64OfInt (x : Z) : Z :=
  let a := Z.abs x in
  if a <? 2 ^ 53 then x
  else
    let e := Z.log2 a - 52 in
    let q := a / 2 ^ e in
    let r := a mod 2 ^ e in
    let half := 2 ^ (e - 1) in
    let q' := if r <? half then q
              else if half <? r then q + 1
              else if Z.even q then q else q + 1 in
    Z.sgn x * q' * 2 ^ e.

(** [time.Duration(x * math.Pow(2, n))] for a float [x] holding an integer
    and an integral exponent [n].  [math.Pow(2, n)] is the exact power of
    two, infinite from [n = 1024] on; scaling by a power of two is exact;
    the conversion truncates toward zero.  A product outside [int64] (or
    infinite, or not a number) converts to what the platform decides. *)
Definition scaleToDuration (env : Env) (x n : Z) : Duration :=
  if 1024 <=? n then ConvOutOfRange env x n
  else if 0 <=? n then
    let p := x * 2 ^ n in
    if (minInt64 <=? p) && (p <=? maxInt64) then p
    else ConvOutOfRange env x n
  else Z.quot x (2 ^ (- n)).

Definition calculateDelay (env : Env) (attempt : Z)
    (baseDelay maxDelay : Duration) : Duration :=
  let delay :=
    scaleToDuration env (float64OfInt baseDelay) (wrapInt (attempt - 1)) in
  if delay >? maxDelay then maxDelay else delay.

(** [RetryableFunc] is [func() error]: a closure over captured variables
    and the process state, both gathered in [St]. *)
Definition RetryableFunc (St : Type) : Type := St -> option error * St.

Section Retry.
Context {St : Type}.
Variable env : Env.
Variable operation : string.
Variable fn : RetryableFunc St.
Variable config : RetryConfig.

(** The value returned after the loop. *)
Definition exhausted (lastErr : option error) : error :=
  ErrRetry operation (MaxAttempts config) lastErr.

(** The [for] loop of [ExecuteWithRetry], entered with the loop variable
    [attempt].  The result carries the state left by [fn] and the
    arguments of the [time.Sleep] calls, in order.  [fuel] bounds the
    number of iterations; [ExecuteWithRetry] gives it [MaxAttempts],
    which the loop never outruns (lemma [retryLoop_fuel]).  Log entries
    do not influence control flow and are not modelled. *)
Fixpoint retryLoop (fuel : nat) (attempt : Z) (lastErr : option error)
    (st : St) (naps : list Duration)
  : option error * St * list Duration :=
  match fuel with
  | O => (Some (exhausted lastErr), st, naps)
  | S fuel' =>
      if attempt <=? MaxAttempts config then
        let (err, st') := fn st in
        match err with
        | None => (None, st', naps)
        | Some e =>
            if attempt =? MaxAttempts config then
              (Some (exhausted (Some e)), st', naps)
            else
              let delay :=
                calculateDelay env attempt (BaseDelay config)
                  (MaxDelay config) in
              retryLoop fuel' (attempt + 1) (Some e) st'
                (naps ++ [delay])
        end
      else (Some (exhausted lastErr), st, naps)
  end.

Definition ExecuteWithRetry (st : St)
  : option error * St * list Duration :=
  retryLoop (Z.to_nat (MaxAttempts config)) 1 None st [].
End Retry.

End retry.

(* ================================================================= *)
(** ** Package models *)

Module models.

Record User : Type := {
  ID : Z;
  Name : string;
  Email : string;
  Password : string;
  CreatedAt : Time;
  UpdatedAt : Time
}.

(** [models.User{}] *)
Definition zeroUser : User :=
  {| ID := 0; Name := ""; Email := ""; Password := "";
     CreatedAt := 0; UpdatedAt := 0 |}.

Definition setID (v : Z) (u : User) : User :=
  {| ID := v; Name := Name u; Email := Email u; Password := Password u;
     CreatedAt := CreatedAt u; UpdatedAt := UpdatedAt u |}.
Definition setName (v : string) (u : User) : User :=
  {| ID := ID u; Name := v; Email := Email u; Password := Password u;
     CreatedAt := CreatedAt u; UpdatedAt := UpdatedAt u |}.
Definition setEmail (v : string) (u : User) : User :=
  {| ID := ID u; Name := Name u; Email := v; Password := Password u;
     CreatedAt := CreatedAt u; UpdatedAt := UpdatedAt u |}.
Definition setCreatedAt (v : Time) (u : User) : User :=
  {| ID := ID u; Name := Name u; Email := Email u; Password := Password u;
     CreatedAt := v; UpdatedAt := UpdatedAt u |}.
Definition setUpdatedAt (v : Time) (u : User) : User :=
  {| ID := ID u; Name := Name u; Email := Email u; Password := Password u;
     CreatedAt := CreatedAt u; UpdatedAt := v |}.

(** Request structures of the REST surface, with their [binding] tags
    in the comments. *)
Record SignupRequest : Type := {
  Signup_Name : string;       (* binding:"required" *)
  Signup_Email : string;      (* binding:"required,email" *)
  Signup_Password : string    (* binding:"required,min=6" *)
}.

Record LoginRequest : Type := {
  Login_Email : string;       (* binding:"required,email" *)
  Login_Password : string     (* binding:"required" *)
}.

Record RestUpdateUserRequest : Type := {
  Update_Name : string;
  Update_Email : string
}.

End models.

Import models.

(* ================================================================= *)
(** ** The persistence collaborator (gorm over PostgreSQL) *)

(** The state of the process and of the store behind the package variable
    [db]: the table [users] in insertion order, the last value drawn from
    the identifier sequence, the clock, and what is observed of the run:
    the number of round trips to the store ([calls]), the arguments of
    [time.Sleep] ([slept]) and the number of bcrypt digests computed
    ([hashed]).  [faults] schedules transient failures: each round trip
    consumes its head, and [Some e] makes that round trip fail with [e]
    before it reaches the table. *)
Record World : Type := {
  rows : list User;
  seq : Z;
  now : Time;
  faults : list (option error);
  calls : nat;
  slept : list Duration;
  hashed : nat
}.

Definition emptyWorld : World :=
  {| rows := []; seq := 0; now := 1; faults := []; calls := 0%nat;
     slept := []; hashed := 0%nat |}.

Definition setRows (v : list User) (w : World) : World :=
  {| rows := v; seq := seq w; now := now w; faults := faults w;
     calls := calls w; slept := slept w; hashed := hashed w |}.
Definition setSeq (v : Z) (w : World) : World :=
  {| rows := rows w; seq := v; now := now w; faults := faults w;
     calls := calls w; slept := slept w; hashed := hashed w |}.
Definition setFaults (v : list (option error)) (w : World) : World :=
  {| rows := rows w; seq := seq w; now := now w; faults := v;
     calls := calls w; slept := slept w; hashed := hashed w |}.
Definition addSlept (v : list Duration) (w : World) : World :=
  {| rows := rows w; seq := seq w; now := now w; faults := faults w;
     calls := calls w; slept := (slept w ++ v)%list; hashed := hashed w |}.
Definition addHashed (w : World) : World :=
  {| rows := rows w; seq := seq w; now := now w; faults := faults w;
     calls := calls w; slept := slept w; hashed := S (hashed w) |}.

Module gorm.

(** One round trip to the store: a call is counted, a slot of the fault
    schedule is consumed and the clock moves on.  A scheduled fault is
    met before the statement takes effect; a statement that takes effect
    and whose reply is lost is not in the schedule, so what is said of
    the table after a failed write is said of a store that answers. *)
Definition tick (w : World) : World :=
  {| rows := rows w; seq := seq w; now := now w + 1;
     faults := tl (faults w); calls := S (calls w);
     slept := slept w; hashed := hashed w |}.

Definition roundTrip (w : World) : option error * World :=
  match faults w with
  | Some e :: _ => (Some e, tick w)
  | _ => (None, tick w)
  end.

Definition dquote : string := String (ascii_of_nat 34) "".

(** The text of a unique violation as the PostgreSQL driver reports it
    (SQLSTATE 23505). *)
Definition uniqueViolation (constraint : string) : error :=
  ErrText ("ERROR: duplicate key value violates unique constraint "
           ++ dquote ++ constraint ++ dquote ++ " (SQLSTATE 23505)").

Definition emailTaken (email : string) (except : Z) (tbl : list User)
  : bool :=
  existsb (fun r => String.eqb (Email r) email && negb (ID r =? except))
          tbl.

Definition idTaken (id : Z) (tbl : list User) : bool :=
  existsb (fun r => ID r =? id) tbl.

(** The matching row with the least primary key ([ORDER BY id LIMIT 1]). *)
Fixpoint firstByID (p : User -> bool) (tbl : list User) : option User :=
  match tbl with
  | [] => None
  | r :: tbl' =>
      if p r then
        match firstByID p tbl' with
        | Some r' => if ID r' <? ID r then Some r' else Some r
        | None => Some r
        end
      else firstByID p tbl'
  end.

(** [INSERT] of a row whose primary key is decided: both unique indexes
    are checked. *)
Definition insertRow (user : User) (w : World) : option error * World :=
  if idTaken (ID user) (rows w) then
    (Some (uniqueViolation "users_pkey"), w)
  else if emailTaken (Email user) (ID user) (rows w) then
    (Some (uniqueViolation "idx_users_email"), w)
  else (None, setRows (rows w ++ [user])%list w).

(** [db.Create(user).Error].  gorm stamps zero timestamps before the
    statement is sent; a zero primary key is drawn from the sequence, also
    by an insertion that then fails; the key is written back to [user]
    on success. *)
Definition stamp (t : Time) (user : User) : User :=
  let user := if CreatedAt user =? 0 then setCreatedAt t user else user in
  if UpdatedAt user =? 0 then setUpdatedAt t user else user.

Definition Create (user : User) (w : World)
  : option error * User * World :=
  let user := stamp (now w) user in
  let (fault, w) := roundTrip w in
  match fault with
  | Some e => (Some e, user, w)
  | None =>
      if ID user =? 0 then
        let id := seq w + 1 in
        let w := setSeq id w in
        let (err, w) := insertRow (setID id user) w in
        match err with
        | Some e => (Some e, user, w)
        | None => (None, setID id user, w)
        end
      else
        let (err, w) := insertRow user w in
        (err, user, w)
  end.

(** [db.First(&user, id).Error].  Identifiers are taken within the
    key column, below [2^63]; the driver's refusal to encode a larger
    [uint] is not modelled, here and in [Delete], and the results
    that would depend on it bound the identifier. *)
Definition First (user : User) (id : Z) (w : World)
  : option error * User * World :=
  let (fault, w) := roundTrip w in
  match fault with
  | Some e => (Some e, user, w)
  | None =>
      match firstByID (fun r => ID r =? id) (rows w) with
      | Some r => (None, r, w)
      | None => (Some ErrRecordNotFound, user, w)
      end
  end.

(** [db.Where("email = ?", email).First(&user).Error] *)
Definition WhereEmailFirst (user : User) (email : string) (w : World)
  : option error * User * World :=
  let (fault, w) := roundTrip w in
  match fault with
  | Some e => (Some e, user, w)
  | None =>
      match firstByID (fun r => String.eqb (Email r) email) (rows w) with
      | Some r => (None, r, w)
      | None => (Some ErrRecordNotFound, user, w)
      end
  end.

(** [db.Save(user).Error]: with a zero primary key it is [Create];
    otherwise every column of the row with that key is overwritten and
    [UpdatedAt] becomes the current time; when no row has the key, gorm
    inserts the value in a second statement. *)
Definition Save (user : User) (w : World)
  : option error * User * World :=
  if ID user =? 0 then Create user w
  else
    let user := setUpdatedAt (now w) user in
    let (fault, w) := roundTrip w in
    match fault with
    | Some e => (Some e, user, w)
    | None =>
        if idTaken (ID user) (rows w) then
          if emailTaken (Email user) (ID user) (rows w) then
            (Some (uniqueViolation "idx_users_email"), user, w)
          else
            (None, user,
             setRows
               (map (fun r => if ID r =? ID user then user else r) (rows w))
               w)
        else
          let (fault, w) := roundTrip w in
          match fault with
          | Some e => (Some e, user, w)
          | None => let (err, w) := insertRow user w in (err, user, w)
          end
    end.

(** [db.Delete(&models.User{}, id).Error] *)
Definition Delete (id : Z) (w : World) : option error * World :=
  let (fault, w) := roundTrip w in
  match fault with
  | Some e => (Some e, w)
  | None => (None, setRows (filter (fun r => negb (ID r =? id)) (rows w)) w)
  end.

(** [db.Find(&users).Error] *)
Definition Find (users : list User) (w : World)
  : option error * list User * World :=
  let (fault, w) := roundTrip w in
  match fault with
  | Some e => (Some e, users, w)
  | None => (None, rows w, w)
  end.

End gorm.

(* ================================================================= *)
(** ** Package database *)

Module database.
Section WithEnv.
Variable env : Env.

(** The test [database.go] applies to the text of a failed write. *)
Definition isUniqueViolation (err : error) : bool :=
  Contains (Error err) "duplicate key"
  || Contains (Error err) "UNIQUE constraint".

(** In each closure below the branch taken for a business error and the
    branch taken for any other error return the same [err], as in the
    source. *)
Definition CreateUserWithRetry (user : User) (w : World)
  : option error * User * World :=
  let config := retry.DefaultRetryConfig in
  let '(err, (user, w), naps) :=
    retry.ExecuteWithRetry env "create_user"
      (fun '(user, w) =>
         let '(err, user, w) := gorm.Create user w in
         match err with
         | Some e =>
             if isUniqueViolation e then (err, (user, w))
             else (err, (user, w))
         | None => (err, (user, w))
         end)
      config (user, w) in
  (err, user, addSlept naps w).

Definition FindUserByEmailWithRetry (email : string) (w : World)
  : (User + error) * World :=
  let user := zeroUser in
  let config := retry.DefaultRetryConfig in
  let '(err, (user, w), naps) :=
    retry.ExecuteWithRetry env "find_user_by_email"
      (fun '(user, w) =>
         let '(err, user, w) := gorm.WhereEmailFirst user email w in
         match err with
         | Some e =>
             if IsRecordNotFound e then (err, (user, w))
             else (err, (user, w))
         | None => (err, (user, w))
         end)
      config (user, w) in
  match err with
  | Some e => (inr e, addSlept naps w)
  | None => (inl user, addSlept naps w)
  end.

Definition FindUserByIDWithRetry (id : Z) (w : World)
  : (User + error) * World :=
  let user := zeroUser in
  let config := retry.DefaultRetryConfig in
  let '(err, (user, w), naps) :=
    retry.ExecuteWithRetry env "find_user_by_id"
      (fun '(user, w) =>
         let '(err, user, w) := gorm.First user id w in
         match err with
         | Some e =>
             if IsRecordNotFound e then (err, (user, w))
             else (err, (user, w))
         | None => (err, (user, w))
         end)
      config (user, w) in
  match err with
  | Some e => (inr e, addSlept naps w)
  | None => (inl user, addSlept naps w)
  end.

Definition UpdateUserWithRetry (user : User) (w : World)
  : option error * User * World :=
  let config := retry.DefaultRetryConfig in
  let '(err, (user, w), naps) :=
    retry.ExecuteWithRetry env "update_user"
      (fun '(user, w) =>
         let '(err, user, w) := gorm.Save user w in
         match err with
         | Some e =>
             if isUniqueViolation e then (err, (user, w))
             else (err, (user, w))
         | None => (err, (user, w))
         end)
      config (user, w) in
  (err, user, addSlept naps w).

Definition DeleteUserWithRetry (id : Z) (w : World)
  : option error * World :=
  let config := retry.DefaultRetryConfig in
  let '(err, w, naps) :=
    retry.ExecuteWithRetry env "delete_user"
      (fun w => gorm.Delete id w)
      config w in
  (err, addSlept naps w).

Definition GetAllUsersWithRetry (w : World)
  : (list User + error) * World :=
  let users : list User := [] in
  let config := retry.DefaultRetryConfig in
  let '(err, (users, w), naps) :=
    retry.ExecuteWithRetry env "get_all_users"
      (fun '(users, w) =>
         let '(err, users, w) := gorm.Find users w in
         (err, (users, w)))
      config (users, w) in
  match err with
  | Some e => (inr e, addSlept naps w)
  | None => (inl users, addSlept naps w)
  end.
End WithEnv.
End database.

(* ================================================================= *)
(** ** Package service *)

Module service.
Section WithEnv.
Variable env : Env.

Definition CreateUser (name email password : string) (w : World)
  : (User + error) * World :=
  let w := addHashed w in
  match GenerateFromPassword env password with
  | inr err => (inr err, w)
  | inl hashedPassword =>
      let user :=
        {| ID := 0; Name := name; Email := email;
           Password := hashedPassword; CreatedAt := 0; UpdatedAt := 0 |} in
      let '(err, user, w) := database.CreateUserWithRetry env user w in
      match err with
      | Some e => (inr e, w)
      | None => (inl user, w)
      end
  end.

Definition GetUser (id : Z) (w : World) : (User + error) * World :=
  database.FindUserByIDWithRetry env id w.

Definition GetUserByEmail (email : string) (w : World)
  : (User + error) * World :=
  database.FindUserByEmailWithRetry env email w.

Definition UpdateUser (id : Z) (name email : string) (w : World)
  : (User + error) * World :=
  let (found, w) := database.FindUserByIDWithRetry env id w in
  match found with
  | inr err => (inr err, w)
  | inl user =>
      let user := if String.eqb name "" then user else setName name user in
      let user :=
        if String.eqb email "" then user else setEmail email user in
      let '(err, user, w) := database.UpdateUserWithRetry env user w in
      match err with
      | Some e => (inr e, w)
      | None => (inl user, w)
      end
  end.

Definition DeleteUser (id : Z) (w : World) : option error * World :=
  database.DeleteUserWithRetry env id w.

Definition ListUsers (w : World) : (list User + error) * World :=
  database.GetAllUsersWithRetry env w.

Definition ValidatePassword (user : User) (password : string)
  : option error :=
  CompareHashAndPassword env (Password user) password.
End WithEnv.
End service.

(* ================================================================= *)
(** ** Package api (HTTP-style adapter) *)

Module api.

(** [net/http] status codes used by the handlers. *)
Definition StatusOK : Z := 200.
Definition StatusCreated : Z := 201.
Definition StatusBadRequest : Z := 400.
Definition StatusUnauthorized : Z := 401.
Definition StatusNotFound : Z := 404.
Definition StatusConflict : Z := 409.
Definition StatusInternalServerError : Z := 500.

(** The [gin.H] values the handlers send.  A [User] is serialised without
    its [Password] (tag [json:"-"]). *)
Inductive H : Type :=
| HError (msg : string)
| HMessage (msg : string)
| HUser (user : User)
| HUsers (users : list User)
| HMessageUser (msg : string) (user : User)
| HMessageUserToken (msg : string) (user : User) (token : string).

(** What [c.JSON(code, obj)] writes. *)
Record Response : Type := { Status : Z; Payload : H }.

Definition JSON (code : Z) (obj : H) : Response :=
  {| Status := code; Payload := obj |}.

(** The request body as [c.ShouldBindJSON] sees it: JSON that does not
    decode into the request structure, with the decoder's message, or the
    decoded structure, which the validator then checks against the
    [binding] tags. *)
Inductive Body (A : Type) : Type :=
| Malformed (msg : string)
| Decoded (req : A).
Arguments Malformed {A} msg.
Arguments Decoded {A} req.

Definition newline : string := String (ascii_of_nat 10) "".

(** The message of one failed field of the validator. *)
Definition fieldError (strct field tag : string) : string :=
  "Key: '" ++ strct ++ "." ++ field ++ "' Error:Field validation for '"
  ++ field ++ "' failed on the '" ++ tag ++ "' tag".

(** [utf8.RuneCountInString] on a valid UTF-8 string (the JSON decoder
    yields no other): the bytes that do not continue a sequence. *)
Fixpoint RuneCountInString (s : string) : Z :=
  match s with
  | EmptyString => 0
  | String c s' =>
      let b := Z.of_nat (nat_of_ascii c) in
      (if (128 <=? b) && (b <? 192) then 0 else 1) + RuneCountInString s'
  end.

Fixpoint joinLines (l : list string) : string :=
  match l with
  | [] => ""
  | [x] => x
  | x :: l' => x ++ newline ++ joinLines l'
  end.

(** [strconv.Atoi]: an optional sign, then decimal digits only, and a
    value that fits [int]. *)
Definition digitVal (c : ascii) : option Z :=
  let n := Z.of_nat (nat_of_ascii c) in
  if (48 <=? n) && (n <=? 57) then Some (n - 48) else None.

Fixpoint parseDigits (s : string) (acc : Z) : option Z :=
  match s with
  | EmptyString => Some acc
  | String c s' =>
      match digitVal c with
      | Some d => parseDigits s' (10 * acc + d)
      | None => None
      end
  end.

Definition Atoi (s : string) : option Z :=
  let (neg, ds) :=
    match s with
    | String "-"%char r => (true, r)
    | String "+"%char r => (false, r)
    | _ => (false, s)
    end in
  match ds with
  | EmptyString => None
  | _ =>
      match parseDigits ds 0 with
      | None => None
      | Some n =>
          let v := if neg then - n else n in
          if (retry.minInt64 <=? v) && (v <=? retry.maxInt64) then Some v
          else None
      end
  end.

(** The conversion [uint(id)] of an [int]. *)
Definition uint (z : Z) : Z := z mod 2 ^ 64.

Section WithEnv.
Variable env : Env.

Definition validateSignup (req : SignupRequest) : list string :=
  ((if String.eqb (Signup_Name req) "" then
      [fieldError "SignupRequest" "Name" "required"]
    else [])
   ++ (if String.eqb (Signup_Email req) "" then
         [fieldError "SignupRequest" "Email" "required"]
       else if negb (IsEmail env (Signup_Email req)) then
         [fieldError "SignupRequest" "Email" "email"]
       else [])
   ++ (if String.eqb (Signup_Password req) "" then
         [fieldError "SignupRequest" "Password" "required"]
       else if RuneCountInString (Signup_Password req) <? 6 then
         [fieldError "SignupRequest" "Password" "min"]
       else []))%list.

Definition validateLogin (req : LoginRequest) : list string :=
  ((if String.eqb (Login_Email req) "" then
      [fieldError "LoginRequest" "Email" "required"]
    else if negb (IsEmail env (Login_Email req)) then
      [fieldError "LoginRequest" "Email" "email"]
    else [])
   ++ (if String.eqb (Login_Password req) "" then
         [fieldError "LoginRequest" "Password" "required"]
       else []))%list.

Definition validateUpdate (req : RestUpdateUserRequest) : list string :=
  [].

(** [c.ShouldBindJSON(&req)]: the decoded request, or the text of the
    error. *)
Definition ShouldBindJSON {A : Type} (validate : A -> list string)
    (body : Body A) : A + string :=
  match body with
  | Malformed msg => inr msg
  | Decoded req =>
      match validate req with
      | [] => inl req
      | errs => inr (joinLines errs)
      end
  end.

Definition generateJWT (userID : Z) (w : World) : string + error :=
  SignedString env userID (Unix (now w + 24 * Hour)).

Definition Signup (body : Body SignupRequest) (w : World)
  : Response * World :=
  match ShouldBindJSON validateSignup body with
  | inr msg => (JSON StatusBadRequest (HError msg), w)
  | inl req =>
      let (created, w) :=
        service.CreateUser env (Signup_Name req) (Signup_Email req)
          (Signup_Password req) w in
      match created with
      | inr err =>
          if Contains (Error err) "duplicate key" then
            (JSON StatusConflict (HError "Email already exists"), w)
          else
            (JSON StatusInternalServerError
               (HError "Failed to create user"), w)
      | inl user =>
          match generateJWT (ID user) w with
          | inr _ =>
              (JSON StatusInternalServerError
                 (HError "Failed to generate token"), w)
          | inl token =>
              (JSON StatusCreated
                 (HMessageUserToken "User created successfully" user
                    token), w)
          end
      end
  end.

Definition Login (body : Body LoginRequest) (w : World)
  : Response * World :=
  match ShouldBindJSON validateLogin body with
  | inr msg => (JSON StatusBadRequest (HError msg), w)
  | inl req =>
      let (found, w) := service.GetUserByEmail env (Login_Email req) w in
      match found with
      | inr _ =>
          (JSON StatusUnauthorized (HError "Invalid credentials"), w)
      | inl user =>
          match service.ValidatePassword env user (Login_Password req) with
          | Some _ =>
              (JSON StatusUnauthorized (HError "Invalid credentials"), w)
          | None =>
              match generateJWT (ID user) w with
              | inr _ =>
                  (JSON StatusInternalServerError
                     (HError "Failed to generate token"), w)
              | inl token =>
                  (JSON StatusOK
                     (HMessageUserToken "Login successful" user token), w)
              end
          end
      end
  end.

Definition GetUsers (w : World) : Response * World :=
  let (listed, w) := service.ListUsers env w in
  match listed with
  | inr _ =>
      (JSON StatusInternalServerError (HError "Failed to fetch users"), w)
  | inl users => (JSON StatusOK (HUsers users), w)
  end.

(** [idParam] is [c.Param("id")]. *)
Definition GetUser (idParam : string) (w : World) : Response * World :=
  match Atoi idParam with
  | None => (JSON StatusBadRequest (HError "Invalid user ID"), w)
  | Some id =>
      let (found, w) := service.GetUser env (uint id) w in
      match found with
      | inr _ => (JSON StatusNotFound (HError "User not found"), w)
      | inl user => (JSON StatusOK (HUser user), w)
      end
  end.

Definition UpdateUser (idParam : string)
    (body : Body RestUpdateUserRequest) (w : World) : Response * World :=
  match Atoi idParam with
  | None => (JSON StatusBadRequest (HError "Invalid user ID"), w)
  | Some id =>
      match ShouldBindJSON validateUpdate body with
      | inr msg => (JSON StatusBadRequest (HError msg), w)
      | inl req =>
          let (updated, w) :=
            service.UpdateUser env (uint id) (Update_Name req)
              (Update_Email req) w in
          match updated with
          | inr err =>
              if Contains (Error err) "duplicate key" then
                (JSON StatusConflict (HError "Email already exists"), w)
              else
                (JSON StatusInternalServerError
                   (HError "Failed to update user"), w)
          | inl user =>
              (JSON StatusOK
                 (HMessageUser "User updated successfully" user), w)
          end
      end
  end.

Definition DeleteUser (idParam : string) (w : World) : Response * World :=
  match Atoi idParam with
  | None => (JSON StatusBadRequest (HError "Invalid user ID"), w)
  | Some id =>
      let (err, w) := service.DeleteUser env (uint id) w in
      match err with
      | Some _ =>
          (JSON StatusInternalServerError
             (HError "Failed to delete user"), w)
      | None => (JSON StatusOK (HMessage "User deleted successfully"), w)
      end
  end.
End WithEnv.
End api.

(* ================================================================= *)
(** ** Package grpc (RPC-style adapter) *)

Module grpc.

(** [codes.Code], the values the server uses and [Unauthenticated]. *)
Inductive Code : Type :=
| OK
| InvalidArgument
| NotFound
| AlreadyExists
| Unauthenticated
| Internal.

(** [status.Error(c, msg)] *)
Record Status : Type := { code : Code; message : string }.

Record CreateUserRequest : Type := {
  Create_Name : string;
  Create_Email : string;
  Create_Password : string
}.

(** The [Id] of a request is a [uint32]. *)
Record GetUserRequest : Type := { Get_Id : Z }.

Record UpdateUserRequest : Type := {
  Update_Id : Z;
  Update_Name : string;
  Update_Email : string
}.

Record DeleteUserRequest : Type := { Delete_Id : Z }.

Record ProtoUser : Type := {
  Id : Z;
  PName : string;
  PEmail : string;
  PCreatedAt : string;
  PUpdatedAt : string
}.

Record UserResponse : Type := { RUser : ProtoUser; Message : string }.
Record DeleteUserResponse : Type := { DMessage : string }.
Record ListUsersResponse : Type := { Users : list ProtoUser }.

(** The conversions [uint32(x)] of a [uint] and [uint(x)] of a
    [uint32]. *)
Definition uint32 (z : Z) : Z := z mod 2 ^ 32.
Definition uint (z : Z) : Z := z mod 2 ^ 64.

Section WithEnv.
Variable env : Env.

Definition userToProtoUser (user : User) : ProtoUser :=
  {| Id := uint32 (ID user);
     PName := Name user;
     PEmail := Email user;
     PCreatedAt := FormatRFC3339 env (CreatedAt user);
     PUpdatedAt := FormatRFC3339 env (UpdatedAt user) |}.

Definition CreateUser (req : CreateUserRequest) (w : World)
  : (UserResponse + Status) * World :=
  if String.eqb (Create_Name req) ""
     || String.eqb (Create_Email req) ""
     || String.eqb (Create_Password req) ""
  then
    (inr {| code := InvalidArgument;
            message := "name, email, and password are required" |}, w)
  else
    let (created, w) :=
      service.CreateUser env (Create_Name req) (Create_Email req)
        (Create_Password req) w in
    match created with
    | inr err =>
        if Contains (Error err) "duplicate key" then
          (inr {| code := AlreadyExists;
                  message := "email already exists" |}, w)
        else
          (inr {| code := Internal;
                  message := "failed to create user" |}, w)
    | inl user =>
        (inl {| RUser := userToProtoUser user;
                Message := "User created successfully" |}, w)
    end.

Definition GetUser (req : GetUserRequest) (w : World)
  : (UserResponse + Status) * World :=
  let (found, w) := service.GetUser env (uint (Get_Id req)) w in
  match found with
  | inr _ =>
      (inr {| code := NotFound; message := "user not found" |}, w)
  | inl user =>
      (inl {| RUser := userToProtoUser user;
              Message := "User retrieved successfully" |}, w)
  end.

Definition UpdateUser (req : UpdateUserRequest) (w : World)
  : (UserResponse + Status) * World :=
  let (updated, w) :=
    service.UpdateUser env (uint (Update_Id req)) (Update_Name req)
      (Update_Email req) w in
  match updated with
  | inr err =>
      if Contains (Error err) "duplicate key" then
        (inr {| code := AlreadyExists;
                message := "email already exists" |}, w)
      else
        (inr {| code := Internal; message := "failed to update user" |},
         w)
  | inl user =>
      (inl {| RUser := userToProtoUser user;
              Message := "User updated successfully" |}, w)
  end.

Definition DeleteUser (req : DeleteUserRequest) (w : World)
  : (DeleteUserResponse + Status) * World :=
  let (err, w) := service.DeleteUser env (uint (Delete_Id req)) w in
  match err with
  | Some _ =>
      (inr {| code := Internal; message := "failed to delete user" |}, w)
  | None => (inl {| DMessage := "User deleted successfully" |}, w)
  end.

Definition ListUsers (w : World)
  : (ListUsersResponse + Status) * World :=
  let (listed, w) := service.ListUsers env w in
  match listed with
  | inr _ =>
      (inr {| code := Internal; message := "failed to list users" |}, w)
  | inl users => (inl {| Users := map userToProtoUser users |}, w)
  end.
End WithEnv.
End grpc.

(* ================================================================= *)
(** ** A concrete environment for running the model *)

(** Stand-ins for the collaborators: the digest keeps the plaintext
    behind a prefix and refuses what bcrypt refuses (more than 72 bytes);
    out-of-range conversions give the least [int64], as on amd64. *)
Definition demoEnv : Env :=
  {| GenerateFromPassword := fun p =>
       if (72 <? Z.of_nat (String.length p)) then
         inr (ErrText "bcrypt: password length exceeds 72 bytes")
       else inl ("$2a$10$" ++ p);
     CompareHashAndPassword := fun h p =>
       if String.eqb h ("$2a$10$" ++ p) then None
       else Some ErrMismatchedHashAndPassword;
     SignedString := fun uid exp =>
       inl ("jwt." ++ itoa uid ++ "." ++ itoa exp);
     IsEmail := fun s => Contains s "@";
     FormatRFC3339 := itoa;
     ConvOutOfRange := fun _ _ => retry.minInt64 |}.

(** A transient failure of the connection to the store. *)
Definition connRefused : error :=
  ErrText "dial tcp 127.0.0.1:5432: connect: connection refused".

(** Devices for stating the results about the retry executor. *)
Section RetryObservers.
Context {St : Type}.
Variable env : Env.
Variable fn : retry.RetryableFunc St.
Variable config : retry.RetryConfig.

(** [fn] instrumented with a counter of its invocations. *)
Definition counted : retry.RetryableFunc (St * nat) :=
  fun '(st, n) => let (err, st') := fn st in (err, (st', S n)).

(** The state after [k] invocations of [fn]. *)
Fixpoint stateAfter (k : nat) (st : St) : St :=
  match k with
  | O => st
  | S k' => stateAfter k' (snd (fn st))
  end.

(** The delays computed after the failed attempts [attempt],
    [attempt + 1], ... ([k] of them). *)
Fixpoint backoff (k : nat) (attempt : Z) : list Duration :=
  match k with
  | O => []
  | S k' =>
      retry.calculateDelay env attempt (retry.BaseDelay config)
        (retry.MaxDelay config)
      :: backoff k' (attempt + 1)
  end.
End RetryObservers.

(* ================================================================= *)
(** ** Vocabulary of the statements *)

(** What a lookup leaves untouched. *)
Definition sameStore (w w' : World) : Prop :=
  rows w' = rows w /\ seq w' = seq w /\ hashed w' = hashed w.

(** What [Save] may change of the value it is given. *)
Definition sameButUpdatedAt (u u0 : User) : Prop :=
  ID u = ID u0 /\ Name u = Name u0 /\ Email u = Email u0
  /\ Password u = Password u0 /\ CreatedAt u = CreatedAt u0.

(** The value [UpdateUser] hands to [Save]. *)
Definition patched (name email : string) (u : User) : User :=
  let u := if String.eqb name "" then u else setName name u in
  if String.eqb email "" then u else setEmail email u.

(** The violations an insertion can meet. *)
Definition isViolation (e : error) : Prop :=
  e = gorm.uniqueViolation "users_pkey"
  \/ e = gorm.uniqueViolation "idx_users_email".

(** The round trip of the third attempt is not hit by a scheduled
    fault. *)
Definition thirdTripClear (w : World) : Prop :=
  nth 2 (faults w) None = None.

(** The sequence starts at 0 and only grows, and no stored row has the
    identifier 0: this holds in the empty store and every operation of the
    service layer keeps it, so the identifier of an existing user is not
    zero. *)
Definition positiveIDs (w : World) : Prop :=
  0 <= seq w /\ Forall (fun r => ID r <> 0) (rows w).

(* ================================================================= *)
(** ** Domain outcomes *)

(** The outcome taxonomy of the specification, used to compare what the
    two adapters report. *)
Inductive DomainError : Type :=
| AlreadyExists
| NotFound
| InvalidCredential
| InvalidInput
| InternalFailure.

Inductive Outcome : Type :=
| OUser (u : grpc.ProtoUser)
| OUsers (l : list grpc.ProtoUser)
| ODone
| OFail (e : DomainError).

(** The domain error behind an HTTP status and behind a gRPC code. *)
Definition ofStatus (status : Z) : DomainError :=
  if status =? api.StatusConflict then AlreadyExists
  else if status =? api.StatusNotFound then NotFound
  else if status =? api.StatusUnauthorized then InvalidCredential
  else if status =? api.StatusBadRequest then InvalidInput
  else InternalFailure.

Definition ofCode (c : grpc.Code) : DomainError :=
  match c with
  | grpc.AlreadyExists => AlreadyExists
  | grpc.NotFound => NotFound
  | grpc.Unauthenticated => InvalidCredential
  | grpc.InvalidArgument => InvalidInput
  | _ => InternalFailure
  end.

(** [errors.Is(err, bcrypt.ErrMismatchedHashAndPassword)] *)
Fixpoint IsMismatch (e : error) : bool :=
  match e with
  | ErrMismatchedHashAndPassword => true
  | ErrRetry _ _ (Some e') => IsMismatch e'
  | _ => false
  end.

(** How the specification sorts the errors that come out of the service
    layer: a uniqueness failure, an absent record, a digest mismatch,
    anything else. *)
Definition domainOf (e : error) : DomainError :=
  if Contains (Error e) "duplicate key" then AlreadyExists
  else if IsRecordNotFound e then NotFound
  else if IsMismatch e then InvalidCredential
  else InternalFailure.

Section Outcomes.
Variable env : Env.

(** The outcome a caller reads off an HTTP response; a user is viewed
    through the same representation as on the RPC surface. *)
Definition httpOutcome (r : api.Response) : Outcome :=
  match api.Payload r with
  | api.HError _ => OFail (ofStatus (api.Status r))
  | api.HMessage _ => ODone
  | api.HUser u => OUser (grpc.userToProtoUser env u)
  | api.HUsers l => OUsers (map (grpc.userToProtoUser env) l)
  | api.HMessageUser _ u => OUser (grpc.userToProtoUser env u)
  | api.HMessageUserToken _ u _ => OUser (grpc.userToProtoUser env u)
  end.

Definition grpcOutcome {A : Type} (view : A -> Outcome)
    (r : A + grpc.Status) : Outcome :=
  match r with
  | inl a => view a
  | inr s => OFail (ofCode (grpc.code s))
  end.

Definition userView (r : grpc.UserResponse) : Outcome :=
  OUser (grpc.RUser r).
Definition deleteView (r : grpc.DeleteUserResponse) : Outcome := ODone.
Definition listView (r : grpc.ListUsersResponse) : Outcome :=
  OUsers (grpc.Users r).
End Outcomes.

(** The code of a gRPC result ([OK] for a response). *)
Definition grpcCode {A : Type} (r : A + grpc.Status) : grpc.Code :=
  match r with
  | inl _ => grpc.OK
  | inr s => grpc.code s
  end.

(* ================================================================= *)
(** ** Scenarios *)

(** The store after [createUser("Ann", "ann@x.com", "secret1")] on the
    empty store, and the row it holds. *)
Definition annWorld : World :=
  Eval vm_compute in
    snd (service.CreateUser demoEnv "Ann" "ann@x.com" "secret1" emptyWorld).

Definition annRow : User :=
  {| ID := 1; Name := "Ann"; Email := "ann@x.com";
     Password := "$2a$10$secret1"; CreatedAt := 1; UpdatedAt := 1 |}.

(** The store of [annWorld] when the connection fails three times in a
    row. *)
Definition downWorld : World :=
  setFaults [Some connRefused; Some connRefused; Some connRefused] annWorld.

(* ================================================================= *)
(** ** Vocabulary of the further results *)

(** A well-formed table: the identifiers of the rows are positive, not
    beyond the last value drawn from the sequence and pairwise distinct
    (primary key), and the emails are pairwise distinct (unique index). *)
Definition storeOK (w : World) : Prop :=
  0 <= seq w
  /\ Forall (fun r => 0 < ID r <= seq w) (rows w)
  /\ NoDup (map ID (rows w))
  /\ NoDup (map Email (rows w)).

(** What one data-access operation under the default policy costs: [j]
    attempts, one to three, each of one to [perAttempt] round trips, and
    the backoff sleeps between the attempts. *)
Definition retriedRun (perAttempt : nat) (w w' : World) : Prop :=
  exists j : nat,
    (1 <= j <= 3)%nat
    /\ (calls w + j <= calls w' <= calls w + j * perAttempt)%nat
    /\ slept w' =
       (slept w
        ++ firstn (j - 1) [100 * Millisecond; 200 * Millisecond])%list.

(** The fields [Create] and the retries leave to the value created. *)
Definition sameInput (u u0 : User) : Prop :=
  Name u = Name u0 /\ Email u = Email u0 /\ Password u = Password u0.

(** One operation of the service layer, with any arguments. *)
Inductive serviceStep (env : Env) (w : World) : World -> Prop :=
| StepCreate name email password :
    serviceStep env w (snd (service.CreateUser env name email password w))
| StepUpdate id name email :
    serviceStep env w (snd (service.UpdateUser env id name email w))
| StepDelete id :
    serviceStep env w (snd (service.DeleteUser env id w))
| StepGet id :
    serviceStep env w (snd (service.GetUser env id w))
| StepGetByEmail email :
    serviceStep env w (snd (service.GetUserByEmail env email w))
| StepList :
    serviceStep env w (snd (service.ListUsers env w)).

(** Any number of operations, one after the other. *)
Inductive serviceRun (env : Env) (w : World) : World -> Prop :=
| RunDone : serviceRun env w w
| RunStep w1 w2 :
    serviceRun env w w1 -> serviceStep env w1 w2 -> serviceRun env w w2.

(* ================================================================= *)
(** ** The single-package server that preceded the layering *)

(** The first version of the server is one [package main].  Its handlers
    call the data-access functions themselves (those of its [database.go]
    are the functions of [internal/database], statement for statement),
    hash the password in the handler and use the request structures and
    binding tags that [pkg/models] now holds. *)
Module main.
Section WithEnv.
Variable env : Env.

Definition generateJWT (userID : Z) (w : World) : string + error :=
  SignedString env userID (Unix (now w + 24 * Hour)).

Definition signup (body : api.Body SignupRequest) (w : World)
  : api.Response * World :=
  match api.ShouldBindJSON (api.validateSignup env) body with
  | inr msg => (api.JSON api.StatusBadRequest (api.HError msg), w)
  | inl req =>
      let w := addHashed w in
      match GenerateFromPassword env (Signup_Password req) with
      | inr _ =>
          (api.JSON api.StatusInternalServerError
             (api.HError "Failed to hash password"), w)
      | inl hashedPassword =>
          let user :=
            {| ID := 0; Name := Signup_Name req; Email := Signup_Email req;
               Password := hashedPassword; CreatedAt := 0;
               UpdatedAt := 0 |} in
          let '(err, user, w) := database.CreateUserWithRetry env user w in
          match err with
          | Some e =>
              if Contains (Error e) "duplicate key" then
                (api.JSON api.StatusConflict
                   (api.HError "Email already exists"), w)
              else
                (api.JSON api.StatusInternalServerError
                   (api.HError "Failed to create user"), w)
          | None =>
              match generateJWT (ID user) w with
              | inr _ =>
                  (api.JSON api.StatusInternalServerError
                     (api.HError "Failed to generate token"), w)
              | inl token =>
                  (api.JSON api.StatusCreated
                     (api.HMessageUserToken "User created successfully"
                        user token), w)
              end
          end
      end
  end.

Definition login (body : api.Body LoginRequest) (w : World)
  : api.Response * World :=
  match api.ShouldBindJSON (api.validateLogin env) body with
  | inr msg => (api.JSON api.StatusBadRequest (api.HError msg), w)
  | inl req =>
      let (found, w) :=
        database.FindUserByEmailWithRetry env (Login_Email req) w in
      match found with
      | inr _ =>
          (api.JSON api.StatusUnauthorized
             (api.HError "Invalid credentials"), w)
      | inl user =>
          match CompareHashAndPassword env (Password user)
                  (Login_Password req) with
          | Some _ =>
              (api.JSON api.StatusUnauthorized
                 (api.HError "Invalid credentials"), w)
          | None =>
              match generateJWT (ID user) w with
              | inr _ =>
                  (api.JSON api.StatusInternalServerError
                     (api.HError "Failed to generate token"), w)
              | inl token =>
                  (api.JSON api.StatusOK
                     (api.HMessageUserToken "Login successful" user token),
                   w)
              end
          end
      end
  end.

Definition getUsers (w : World) : api.Response * World :=
  let (listed, w) := database.GetAllUsersWithRetry env w in
  match listed with
  | inr _ =>
      (api.JSON api.StatusInternalServerError
         (api.HError "Failed to fetch users"), w)
  | inl users => (api.JSON api.StatusOK (api.HUsers users), w)
  end.

Definition getUser (idParam : string) (w : World)
  : api.Response * World :=
  match api.Atoi idParam with
  | None =>
      (api.JSON api.StatusBadRequest (api.HError "Invalid user ID"), w)
  | Some id =>
      let (found, w) :=
        database.FindUserByIDWithRetry env (api.uint id) w in
      match found with
      | inr _ =>
          (api.JSON api.StatusNotFound (api.HError "User not found"), w)
      | inl user => (api.JSON api.StatusOK (api.HUser user), w)
      end
  end.

Definition updateUser (idParam : string)
    (body : api.Body RestUpdateUserRequest) (w : World)
  : api.Response * World :=
  match api.Atoi idParam with
  | None =>
      (api.JSON api.StatusBadRequest (api.HError "Invalid user ID"), w)
  | Some id =>
      match api.ShouldBindJSON api.validateUpdate body with
      | inr msg => (api.JSON api.StatusBadRequest (api.HError msg), w)
      | inl req =>
          let (found, w) :=
            database.FindUserByIDWithRetry env (api.uint id) w in
          match found with
          | inr _ =>
              (api.JSON api.StatusNotFound (api.HError "User not found"),
               w)
          | inl user =>
              let user :=
                if String.eqb (Update_Name req) "" then user
                else setName (Update_Name req) user in
              let user :=
                if String.eqb (Update_Email req) "" then user
                else setEmail (Update_Email req) user in
              let '(err, user, w) :=
                database.UpdateUserWithRetry env user w in
              match err with
              | Some e =>
                  if Contains (Error e) "duplicate key" then
                    (api.JSON api.StatusConflict
                       (api.HError "Email already exists"), w)
                  else
                    (api.JSON api.StatusInternalServerError
                       (api.HError "Failed to update user"), w)
              | None =>
                  (api.JSON api.StatusOK
                     (api.HMessageUser "User updated successfully" user),
                   w)
              end
          end
      end
  end.

Definition deleteUser (idParam : string) (w : World)
  : api.Response * World :=
  match api.Atoi idParam with
  | None =>
      (api.JSON api.StatusBadRequest (api.HError "Invalid user ID"), w)
  | Some id =>
      let (err, w) := database.DeleteUserWithRetry env (api.uint id) w in
      match err with
      | Some _ =>
          (api.JSON api.StatusInternalServerError
             (api.HError "Failed to delete user"), w)
      | None =>
          (api.JSON api.StatusOK
             (api.HMessage "User deleted successfully"), w)
      end
  end.
End WithEnv.
End main.

(* ================================================================= *)
(** ** Package metrics *)

(** The Prometheus registry is a second piece of process state, threaded
    beside the [World].  A counter vector is kept as the list of the label
    values it was incremented with (the count of a series is the number of
    its occurrences), a histogram vector as the list of its observations
    with their labels, a gauge vector as the list of the values set, the
    latest first.  An observation in seconds is kept as the
    [time.Duration] whose [Seconds()] the code observes; the gauge values
    [0.0] and [1.0] are [0] and [1]. *)
Module metrics.

Record Registry : Type := {
  httpRequestsTotal : list (string * string * string);
  httpRequestDuration : list (string * string * Duration);
  dbOperationsTotal : list (string * string * string);
  dbOperationDuration : list (string * string * Duration);
  healthCheckStatus : list (string * Z)
}.

Definition emptyRegistry : Registry :=
  {| httpRequestsTotal := []; httpRequestDuration := [];
     dbOperationsTotal := []; dbOperationDuration := [];
     healthCheckStatus := [] |}.

(** The conversion [rune(x)] of an [int]: the low 32 bits, signed. *)
Definition rune (z : Z) : Z := (z + 2 ^ 31) mod 2 ^ 32 - 2 ^ 31.

Definition byte (n : Z) : ascii := ascii_of_nat (Z.to_nat n).

(** [utf8.AppendRune] on a valid code point. *)
Definition encodeRune (r : Z) : string :=
  if r <? 128 then String (byte r) ""
  else if r <? 2048 then
    String (byte (Z.lor 192 (Z.shiftr r 6)))
      (String (byte (Z.lor 128 (Z.land r 63))) "")
  else if r <? 65536 then
    String (byte (Z.lor 224 (Z.shiftr r 12)))
      (String (byte (Z.lor 128 (Z.land (Z.shiftr r 6) 63)))
         (String (byte (Z.lor 128 (Z.land r 63))) ""))
  else
    String (byte (Z.lor 240 (Z.shiftr r 18)))
      (String (byte (Z.lor 128 (Z.land (Z.shiftr r 12) 63)))
         (String (byte (Z.lor 128 (Z.land (Z.shiftr r 6) 63)))
            (String (byte (Z.lor 128 (Z.land r 63))) ""))).

(** The conversion [string(r)] of a rune: the UTF-8 encoding of the code
    point, that of U+FFFD when [r] is not a valid code point. *)
Definition stringOfRune (r : Z) : string :=
  if (r <? 0) || (1114111 <? r) || ((55296 <=? r) && (r <=? 57343))
  then encodeRune 65533
  else encodeRune r.

Definition RecordHTTPRequest (method path : string) (statusCode : Z)
    (duration : Duration) (reg : Registry) : Registry :=
  {| httpRequestsTotal :=
       (method, path, stringOfRune (rune statusCode))
       :: httpRequestsTotal reg;
     httpRequestDuration := (method, path, duration)
                            :: httpRequestDuration reg;
     dbOperationsTotal := dbOperationsTotal reg;
     dbOperationDuration := dbOperationDuration reg;
     healthCheckStatus := healthCheckStatus reg |}.

(** The middleware around the rest of the chain [next], whose response
    has the status [status resp] ([c.Writer.Status()]). *)
Definition PrometheusMiddleware {R : Type} (status : R -> Z)
    (method path : string)
    (next : World -> Registry -> R * World * Registry)
    (w : World) (reg : Registry) : R * World * Registry :=
  let start := now w in
  let '(resp, w, reg) := next w reg in
  let duration := now w - start in
  (resp, w, RecordHTTPRequest method path (status resp) duration reg).

Definition RecordDatabaseOperation (operation table status : string)
    (duration : Duration) (reg : Registry) : Registry :=
  {| httpRequestsTotal := httpRequestsTotal reg;
     httpRequestDuration := httpRequestDuration reg;
     dbOperationsTotal := (operation, table, status)
                          :: dbOperationsTotal reg;
     dbOperationDuration := (operation, table, duration)
                            :: dbOperationDuration reg;
     healthCheckStatus := healthCheckStatus reg |}.

Definition UpdateHealthStatus (service : string) (healthy : bool)
    (reg : Registry) : Registry :=
  let status := if healthy then 1 else 0 in
  {| httpRequestsTotal := httpRequestsTotal reg;
     httpRequestDuration := httpRequestDuration reg;
     dbOperationsTotal := dbOperationsTotal reg;
     dbOperationDuration := dbOperationDuration reg;
     healthCheckStatus := (service, status) :: healthCheckStatus reg |}.

(** The body of the answer of [/healthz]. *)
Record Health : Type := {
  Health_status : string;
  Health_timestamp : string;
  Health_database : string;
  Health_error : option string
}.

Record HealthResponse : Type := { Code : Z; Body : Health }.

(** [database.GetDB().Exec("SELECT 1").Error] is one round trip to the
    store that reads no table. *)
Definition HealthCheckHandler (env : Env) (w : World) (reg : Registry)
  : HealthResponse * World * Registry :=
  let start := now w in
  let (err, w) := gorm.roundTrip w in
  let duration := now w - start in
  let healthy := match err with None => true | Some _ => false end in
  let reg := UpdateHealthStatus "database" healthy reg in
  match err with
  | None =>
      let reg :=
        RecordDatabaseOperation "health_check" "users" "success" duration
          reg in
      ({| Code := 200;
          Body := {| Health_status := "healthy";
                     Health_timestamp := FormatRFC3339 env (now w);
                     Health_database := "connected";
                     Health_error := None |} |}, w, reg)
  | Some e =>
      let reg :=
        RecordDatabaseOperation "health_check" "users" "error" duration
          reg in
      ({| Code := 500;
          Body := {| Health_status := "unhealthy";
                     Health_timestamp := FormatRFC3339 env (now w);
                     Health_database := "disconnected";
                     Health_error := Some (Error e) |} |}, w, reg)
  end.

(** The value of a gauge: the latest one set for the label. *)
Fixpoint gauge (service : string) (values : list (string * Z))
  : option Z :=
  match values with
  | [] => None
  | (s, v) :: rest =>
      if String.eqb s service then Some v else gauge service rest
  end.

(** A handler that leaves the registry alone, as a link of the chain. *)
Definition served {R : Type} (handler : World -> R * World)
    (w : World) (reg : Registry) : R * World * Registry :=
  let (resp, w) := handler w in (resp, w, reg).

End metrics.

(** The status codes a handler can write ([net/http] refuses the
    others). *)
Definition statusCodes : list Z :=
  map (fun i => 100 + Z.of_nat i) (List.seq 0 900).

(** The code point that a UTF-8 text of one or two bytes encodes. *)
Definition codePoint (s : string) : Z :=
  match s with
  | String a EmptyString => Z.of_nat (nat_of_ascii a)
  | String a (String b EmptyString) =>
      Z.lor (Z.shiftl (Z.land (Z.of_nat (nat_of_ascii a)) 31) 6)
            (Z.land (Z.of_nat (nat_of_ascii b)) 63)
  | _ => -1
  end.

(* ================================================================= *)
(** ** The credential gate of the HTTP routes *)

(** [strings.TrimPrefix] *)
Definition TrimPrefix (s prefix : string) : string :=
  if String.prefix prefix s then
    String.substring (String.length prefix)
      (String.length s - String.length prefix)%nat s
  else s.

(** What [jwt.Parse] gives back.  A claim is a value decoded from JSON
    into an [interface{}]: a number becomes a [float64], here the float
    [m * 2^e]; any other value is not a [float64]. *)
Module jwt.
Inductive Value : Type :=
| Float64 (m e : Z)
| NotFloat64.

Record Token : Type := {
  Valid : bool;
  Claims : string -> option Value
}.
End jwt.

(** The JWT library is a collaborator outside the repository, like the
    signer of [Env]: [Parse tokenString t] is
    [jwt.Parse(tokenString, keyFunc)] with the key [jwtSecret] at the
    time [t]; [UintOutOfRange m e] is the result of the conversion
    [uint(f)] of a float [m * 2^e] whose integer part does not fit
    [uint], which Go leaves to the implementation. *)
Record Verifier : Type := {
  Parse : string -> Time -> jwt.Token + error;
  UintOutOfRange : Z -> Z -> Z
}.

(** [AuthMiddleware] of package api. *)
Module auth.

(** How the middleware leaves the chain: it has answered and aborted; it
    has stored the user identifier in the context and called [c.Next()];
    or a type assertion on the claims has panicked. *)
Inductive Step : Type :=
| Abort (resp : api.Response)
| Next (userID : Z)
| Panic.

(** The conversion [uint(f)] of a [float64]: the fraction is
    discarded. *)
Definition uintOfFloat64 (v : Verifier) (m e : Z) : Z :=
  let t := if 0 <=? e then m * 2 ^ e else Z.quot m (2 ^ (- e)) in
  if (0 <=? t) && (t <? 2 ^ 64) then t else UintOutOfRange v m e.

Definition AuthMiddleware (v : Verifier) (authHeader : string) (w : World)
  : Step :=
  if String.eqb authHeader "" then
    Abort (api.JSON api.StatusUnauthorized
             (api.HError "Authorization header required"))
  else
    let tokenString := TrimPrefix authHeader "Bearer " in
    match Parse v tokenString (now w) with
    | inr _ =>
        Abort (api.JSON api.StatusUnauthorized (api.HError "Invalid token"))
    | inl token =>
        if negb (jwt.Valid token) then
          Abort (api.JSON api.StatusUnauthorized
                   (api.HError "Invalid token"))
        else
          match jwt.Claims token "user_id" with
          | Some (jwt.Float64 m e) => Next (uintOfFloat64 v m e)
          | _ => Panic
          end
    end.
End auth.

(** The protected routes of [cmd/server/main.go]: the group that uses
    [AuthMiddleware] before the handler.  A panic is caught by
    [gin.Recovery], which answers 500 without a body.  The logging and
    metrics middleware of the router do not influence the response. *)
Module server.

Inductive Reply : Type :=
| Answer (resp : api.Response)
| Recovered.

Section WithEnv.
Variable env : Env.
Variable v : Verifier.

Definition protected (authHeader : string)
    (handler : World -> api.Response * World) (w : World)
  : Reply * World :=
  match auth.AuthMiddleware v authHeader w with
  | auth.Abort resp => (Answer resp, w)
  | auth.Next _ => let (resp, w) := handler w in (Answer resp, w)
  | auth.Panic => (Recovered, w)
  end.

(** [protected.GET("/users", api.GetUsers)] and the three routes on
    [/users/:id]. *)
Definition GET_users (authHeader : string) : World -> Reply * World :=
  protected authHeader (api.GetUsers env).

Definition GET_user (authHeader idParam : string)
  : World -> Reply * World :=
  protected authHeader (api.GetUser env idParam).

Definition PUT_user (authHeader idParam : string)
    (body : api.Body RestUpdateUserRequest) : World -> Reply * World :=
  protected authHeader (api.UpdateUser env idParam body).

Definition DELETE_user (authHeader idParam : string)
  : World -> Reply * World :=
  protected authHeader (api.DeleteUser env idParam).
End WithEnv.
End server.

(** The outcome a caller reads off the reply of a route. *)
Definition replyOutcome (env : Env) (r : server.Reply) : Outcome :=
  match r with
  | server.Answer resp => httpOutcome env resp
  | server.Recovered => OFail InternalFailure
  end.

(** A verifier for the tokens of [demoEnv]: [jwt.<uid>.<exp>], valid
    until the second [exp]. *)
Fixpoint cut (c : ascii) (s : string) : string * string :=
  match s with
  | EmptyString => (EmptyString, EmptyString)
  | String a r =>
      if Ascii.eqb a c then (EmptyString, r)
      else let (x, y) := cut c r in (String a x, y)
  end.

Definition demoVerifier : Verifier :=
  {| Parse := fun tokenString t =>
       if String.prefix "jwt." tokenString then
         let (uid, exp) := cut "."%char (TrimPrefix tokenString "jwt.") in
         match api.Atoi uid, api.Atoi exp with
         | Some uid, Some exp =>
             if Unix t <? exp then
               inl {| jwt.Valid := true;
                      jwt.Claims := fun k =>
                        if String.eqb k "user_id"
                        then Some (jwt.Float64 uid 0)
                        else None |}
             else inr (ErrText "token has invalid claims: token is expired")
         | _, _ => inr (ErrText "token is malformed")
         end
       else inr (ErrText "token is malformed");
     UintOutOfRange := fun _ _ => 0 |}.

(* ================================================================= *)
(** ** Facts about package retry *)

Section RetryFacts.
Context {St : Type}.
Variable env : Env.
Variable operation : string.
Variable fn : retry.RetryableFunc St.
Variable config : retry.RetryConfig.

Let loop := retry.retryLoop env operation fn config.

(** A two-state invariant rule: [I] holds as long as attempts fail, [Q]
    after the attempt that succeeds. *)
Lemma retryLoop_inv (I Q : St -> Prop) :
  (forall s, I s ->
     match fn s with
     | (None, s') => Q s'
     | (Some _, s') => I s'
     end) ->
  forall fuel attempt lastErr st naps,
    I st ->
    match loop fuel attempt lastErr st naps with
    | (None, st', _) => Q st'
    | (Some _, st', _) => I st'
    end.
Proof.
  intros Hstep fuel.
  induction fuel as [|fuel IH]; intros attempt lastErr st naps Hst;
    cbn [loop retry.retryLoop].
  - exact Hst.
  - destruct (attempt <=? retry.MaxAttempts config); [|exact Hst].
    specialize (Hstep st Hst).
    destruct (fn st) as [[e|] st']; [|exact Hstep].
    destruct (attempt =? retry.MaxAttempts config); [exact Hstep|].
    apply IH. exact Hstep.
Qed.

(** The fuel [ExecuteWithRetry] gives the loop is never outrun: more
    fuel changes nothing, so the result is that of the Go loop. *)
Lemma retryLoop_fuel fuel : forall attempt lastErr st naps,
  retry.MaxAttempts config - attempt < Z.of_nat fuel ->
  loop (S fuel) attempt lastErr st naps = loop fuel attempt lastErr st naps.
Proof.
  induction fuel as [|fuel IH]; intros attempt lastErr st naps Hfuel.
  - cbn [loop retry.retryLoop].
    now replace (attempt <=? retry.MaxAttempts config) with false
      by (symmetry; apply Z.leb_gt; lia).
  - change (loop (S (S fuel)) attempt lastErr st naps) with
      (if attempt <=? retry.MaxAttempts config then
         let (err, st') := fn st in
         match err with
         | None => (None, st', naps)
         | Some e =>
             if attempt =? retry.MaxAttempts config then
               (Some (retry.exhausted operation config (Some e)), st', naps)
             else
               loop (S fuel) (attempt + 1) (Some e) st'
                 (naps ++ [retry.calculateDelay env attempt
                             (retry.BaseDelay config)
                             (retry.MaxDelay config)])%list
         end
       else (Some (retry.exhausted operation config lastErr), st, naps)).
    change (loop (S fuel) attempt lastErr st naps) with
      (if attempt <=? retry.MaxAttempts config then
         let (err, st') := fn st in
         match err with
         | None => (None, st', naps)
         | Some e =>
             if attempt =? retry.MaxAttempts config then
               (Some (retry.exhausted operation config (Some e)), st', naps)
             else
               loop fuel (attempt + 1) (Some e) st'
                 (naps ++ [retry.calculateDelay env attempt
                             (retry.BaseDelay config)
                             (retry.MaxDelay config)])%list
         end
       else (Some (retry.exhausted operation config lastErr), st, naps)).
    destruct (attempt <=? retry.MaxAttempts config); [|reflexivity].
    destruct (fn st) as [[e|] st']; [|reflexivity].
    destruct (attempt =? retry.MaxAttempts config); [reflexivity|].
    apply IH. lia.
Qed.

Lemma ExecuteWithRetry_fuel extra st :
  loop (Z.to_nat (retry.MaxAttempts config) + extra) 1 None st [] =
  retry.ExecuteWithRetry env operation fn config st.
Proof.
  unfold retry.ExecuteWithRetry. fold loop.
  induction extra as [|extra IH].
  - now rewrite Nat.add_0_r.
  - rewrite Nat.add_succ_r, retryLoop_fuel by lia. exact IH.
Qed.

Lemma ExecuteWithRetry_inv (I Q : St -> Prop) :
  (forall s, I s ->
     match fn s with
     | (None, s') => Q s'
     | (Some _, s') => I s'
     end) ->
  forall st,
    I st ->
    match retry.ExecuteWithRetry env operation fn config st with
    | (None, st', _) => Q st'
    | (Some _, st', _) => I st'
    end.
Proof.
  intros Hstep st Hst. unfold retry.ExecuteWithRetry.
  apply (retryLoop_inv I Q Hstep). exact Hst.
Qed.

Lemma ExecuteWithRetry_inv_eq (I Q : St -> Prop) st err st' naps :
  retry.ExecuteWithRetry env operation fn config st = (err, st', naps) ->
  (forall s, I s ->
     match fn s with
     | (None, s') => Q s'
     | (Some _, s') => I s'
     end) ->
  I st ->
  match err with
  | None => Q st'
  | Some _ => I st'
  end.
Proof.
  intros Hrun Hstep Hst.
  pose proof (ExecuteWithRetry_inv I Q Hstep st Hst) as H.
  rewrite Hrun in H. exact H.
Qed.

(** When no invocation succeeds, the loop entered at [attempt] with
    [k] attempts to follow runs [fn] [k + 1] times, sleeps between them
    and wraps the error of the last invocation. *)
Lemma retryLoop_all_fail :
  (forall s, fst (fn s) <> None) ->
  forall k attempt lastErr st naps,
    attempt + Z.of_nat k = retry.MaxAttempts config ->
    loop (S k) attempt lastErr st naps =
    (Some (retry.exhausted operation config (fst (fn (stateAfter fn k st)))),
     stateAfter fn (S k) st,
     (naps ++ backoff env config k attempt)%list).
Proof.
  intros Hfail k.
  induction k as [|k IH]; intros attempt lastErr st naps Hk.
  - cbn [loop retry.retryLoop stateAfter backoff].
    replace (attempt <=? retry.MaxAttempts config) with true
      by (symmetry; apply Z.leb_le; lia).
    replace (attempt =? retry.MaxAttempts config) with true
      by (symmetry; apply Z.eqb_eq; lia).
    specialize (Hfail st).
    destruct (fn st) as [[e|] st']; cbn [fst snd] in *;
      [|congruence].
    now rewrite app_nil_r.
  - change (loop (S (S k)) attempt lastErr st naps) with
      (if attempt <=? retry.MaxAttempts config then
         let (err, st') := fn st in
         match err with
         | None => (None, st', naps)
         | Some e =>
             if attempt =? retry.MaxAttempts config then
               (Some (retry.exhausted operation config (Some e)), st', naps)
             else
               loop (S k) (attempt + 1) (Some e) st'
                 (naps ++ [retry.calculateDelay env attempt
                             (retry.BaseDelay config)
                             (retry.MaxDelay config)])%list
         end
       else (Some (retry.exhausted operation config lastErr), st, naps)).
    replace (attempt <=? retry.MaxAttempts config) with true
      by (symmetry; apply Z.leb_le; lia).
    replace (attempt =? retry.MaxAttempts config) with false
      by (symmetry; apply Z.eqb_neq; lia).
    pose proof (Hfail st) as Hst.
    cbn [stateAfter backoff].
    destruct (fn st) as [[e|] st']; cbn [fst snd] in *; [|congruence].
    rewrite IH by lia.
    now rewrite <- app_assoc.
Qed.

Lemma stateAfter_counted k st n :
  stateAfter (counted fn) k (st, n) = (stateAfter fn k st, (n + k)%nat).
Proof.
  revert st n.
  induction k as [|k IH]; intros st n; cbn [stateAfter].
  - now rewrite Nat.add_0_r.
  - unfold counted at 2. destruct (fn st) as [err st'].
    cbn [snd]. rewrite IH. f_equal. lia.
Qed.

Lemma counted_fst st n : fst (counted fn (st, n)) = fst (fn st).
Proof. unfold counted. now destruct (fn st). Qed.

Lemma nth_error_backoff k : forall attempt i,
  (i < k)%nat ->
  nth_error (backoff env config k attempt) i =
  Some (retry.calculateDelay env (attempt + Z.of_nat i)
          (retry.BaseDelay config) (retry.MaxDelay config)).
Proof.
  induction k as [|k IH]; intros attempt i Hi; [lia|].
  destruct i as [|i]; cbn [backoff nth_error].
  - now rewrite Z.add_0_r.
  - rewrite IH by lia. do 2 f_equal. lia.
Qed.
End RetryFacts.

Section RetryPrefix.
Context {St : Type}.
Variable env : Env.
Variable operation : string.
Variable fn : retry.RetryableFunc St.
Variable config : retry.RetryConfig.

Let loop := retry.retryLoop env operation fn config.

(** The sleeps already made stay at the head of the list. *)
Lemma retryLoop_naps_grow fuel : forall attempt lastErr st naps,
  exists rest,
    snd (loop fuel attempt lastErr st naps) = (naps ++ rest)%list.
Proof.
  induction fuel as [|fuel IH]; intros attempt lastErr st naps.
  - exists []. cbn [loop retry.retryLoop snd]. now rewrite app_nil_r.
  - cbn [loop retry.retryLoop].
    destruct (attempt <=? retry.MaxAttempts config);
      [|exists []; cbn [snd]; now rewrite app_nil_r].
    destruct (fn st) as [[e|] st'];
      [|exists []; cbn [snd]; now rewrite app_nil_r].
    destruct (attempt =? retry.MaxAttempts config);
      [exists []; cbn [snd]; now rewrite app_nil_r|].
    destruct (IH (attempt + 1) (Some e) st'
                (naps ++ [retry.calculateDelay env attempt
                            (retry.BaseDelay config)
                            (retry.MaxDelay config)])%list)
      as [rest Hrest].
    exists (retry.calculateDelay env attempt (retry.BaseDelay config)
              (retry.MaxDelay config) :: rest).
    fold loop. rewrite Hrest, <- app_assoc. reflexivity.
Qed.

(** The loop when the first [j] invocations fail, none of them being
    the last attempt: the [j] delays are slept, whatever follows. *)
Lemma retryLoop_failed_prefix j : forall fuel attempt lastErr st naps,
  (j <= fuel)%nat ->
  attempt + Z.of_nat j <= retry.MaxAttempts config ->
  (forall i, (i < j)%nat -> fst (fn (stateAfter fn i st)) <> None) ->
  exists rest,
    snd (loop fuel attempt lastErr st naps)
    = (naps ++ backoff env config j attempt ++ rest)%list.
Proof.
  induction j as [|j IH]; intros fuel attempt lastErr st naps Hfuel Hj
    Hfail.
  - cbn [backoff app]. apply retryLoop_naps_grow.
  - destruct fuel as [|fuel]; [lia|].
    cbn [loop retry.retryLoop backoff].
    replace (attempt <=? retry.MaxAttempts config) with true
      by (symmetry; apply Z.leb_le; lia).
    replace (attempt =? retry.MaxAttempts config) with false
      by (symmetry; apply Z.eqb_neq; lia).
    pose proof (Hfail 0%nat ltac:(lia)) as H0. cbn [stateAfter] in H0.
    destruct (fn st) as [[e|] st'] eqn:Hfn; cbn [fst] in H0;
      [|congruence].
    destruct (IH fuel (attempt + 1) (Some e) st'
                (naps ++ [retry.calculateDelay env attempt
                            (retry.BaseDelay config)
                            (retry.MaxDelay config)])%list)
      as [rest Hrest].
    + lia.
    + lia.
    + intros i Hi. specialize (Hfail (S i) ltac:(lia)).
      cbn [stateAfter] in Hfail. now rewrite Hfn in Hfail.
    + exists rest. fold loop. rewrite Hrest, <- app_assoc. reflexivity.
Qed.
End RetryPrefix.

Lemma wrapInt_small z :
  retry.minInt64 <= z <= retry.maxInt64 -> retry.wrapInt z = z.
Proof.
  unfold retry.minInt64, retry.maxInt64, retry.wrapInt. intros Hz.
  rewrite Z.mod_small by lia. lia.
Qed.

Lemma float64OfInt_exact x :
  Z.abs x < 2 ^ 53 -> retry.float64OfInt x = x.
Proof.
  intros Hx. unfold retry.float64OfInt.
  now replace (Z.abs x <? 2 ^ 53) with true by (symmetry; apply Z.ltb_lt; lia).
Qed.

(** The delay computed after a failed attempt, where the float product is
    exact and fits a duration. *)
Lemma calculateDelay_exact env attempt base maxd :
  1 <= attempt -> attempt - 1 < 1024 ->
  0 <= base < 2 ^ 53 ->
  base * 2 ^ (attempt - 1) <= retry.maxInt64 ->
  retry.calculateDelay env attempt base maxd =
  Z.min (base * 2 ^ (attempt - 1)) maxd.
Proof.
  intros Ha Hn Hb Hfit. unfold retry.calculateDelay.
  rewrite float64OfInt_exact by (rewrite Z.abs_eq; lia).
  rewrite wrapInt_small
    by (unfold retry.minInt64, retry.maxInt64; lia).
  unfold retry.scaleToDuration.
  replace (1024 <=? attempt - 1) with false
    by (symmetry; apply Z.leb_gt; lia).
  replace (0 <=? attempt - 1) with true by (symmetry; apply Z.leb_le; lia).
  assert (0 <= base * 2 ^ (attempt - 1)) as Hpos
    by (apply Z.mul_nonneg_nonneg; [lia | apply Z.pow_nonneg; lia]).
  replace (retry.minInt64 <=? base * 2 ^ (attempt - 1)) with true
    by (symmetry; apply Z.leb_le; unfold retry.minInt64; lia).
  replace (base * 2 ^ (attempt - 1) <=? retry.maxInt64) with true
    by (symmetry; apply Z.leb_le; lia).
  cbn [andb].
  destruct (Z.gtb_spec (base * 2 ^ (attempt - 1)) maxd); lia.
Qed.

(* ================================================================= *)
(** ** Results about package retry *)

(** C1 (the code departs from the claim).  [GetUser] on an identifier
    that no row carries, with the default policy and a store that answers
    without any transient failure: the lookup is sent three times, with
    the two backoff sleeps in between, and the caller receives the
    not-found error wrapped as an exhausted retry, where the claim
    expects one persistence attempt and an immediate return.  The same in
    the executor alone: an operation function whose every failure is
    record-not-found is invoked [MaxAttempts] times, here five. *)
Theorem C1_not_found_is_retried :
  service.GetUser demoEnv 7 emptyWorld =
  (inr (ErrRetry "find_user_by_id" 3 (Some ErrRecordNotFound)),
   {| rows := []; seq := 0; now := 4; faults := []; calls := 3%nat;
      slept := [100 * Millisecond; 200 * Millisecond];
      hashed := 0%nat |})
  /\ retry.ExecuteWithRetry demoEnv "find_user_by_id"
       (counted (fun s : unit => (Some ErrRecordNotFound, s)))
       {| retry.MaxAttempts := 5; retry.BaseDelay := 100 * Millisecond;
          retry.MaxDelay := 2 * Second |} (tt, 0%nat) =
     (Some (ErrRetry "find_user_by_id" 5 (Some ErrRecordNotFound)),
      (tt, 5%nat),
      [100 * Millisecond; 200 * Millisecond; 400 * Millisecond;
       800 * Millisecond]).
Proof. split; vm_compute; reflexivity. Qed.

(** C2, counterexample to the claim as stated: with the default policy
    the sleep that precedes attempt 6 is the delay computed after attempt
    5, which is 1.6 s and not the cap of 2 s. *)
Lemma C2_attempt6_not_capped :
  retry.calculateDelay demoEnv (6 - 1)
    (retry.BaseDelay retry.DefaultRetryConfig)
    (retry.MaxDelay retry.DefaultRetryConfig) = 1600 * Millisecond
  /\ 1600 * Millisecond <> retry.MaxDelay retry.DefaultRetryConfig.
Proof. split; [vm_compute; reflexivity | discriminate]. Qed.

(** C2 (amended).  Whenever attempt [k] is made
    ([2 <= k <= MaxAttempts], attempts 1 to [k - 1] having failed), and
    whatever attempt [k] and the later ones do, the sleep that precedes
    it is [calculateDelay (k - 1) baseDelay maxDelay]; that delay is
    [min (baseDelay * 2^(k-2)) maxDelay] as long as the product fits a
    64-bit duration ([baseDelay] non-negative and below [2^53]); with
    baseDelay = 100 ms and maxDelay = 2 s it is 100, 200, 400, 800 and
    1600 ms before attempts 2 to 6 and 2 s before attempts 7 to 38. *)
Theorem C2_backoff_delay (env : Env) :
  (forall (St : Type) operation (fn : retry.RetryableFunc St) config st k,
     (forall i, (i < Z.to_nat (k - 1))%nat ->
                fst (fn (stateAfter fn i st)) <> None) ->
     2 <= k <= retry.MaxAttempts config ->
     nth_error (snd (retry.ExecuteWithRetry env operation fn config st))
       (Z.to_nat (k - 2)) =
     Some (retry.calculateDelay env (k - 1) (retry.BaseDelay config)
             (retry.MaxDelay config)))
  /\ (forall k base maxd,
        2 <= k -> k - 2 < 1024 ->
        0 <= base < 2 ^ 53 ->
        base * 2 ^ (k - 2) <= retry.maxInt64 ->
        retry.calculateDelay env (k - 1) base maxd =
        Z.min (base * 2 ^ (k - 2)) maxd)
  /\ (let delay k :=
        retry.calculateDelay env (k - 1)
          (retry.BaseDelay retry.DefaultRetryConfig)
          (retry.MaxDelay retry.DefaultRetryConfig) in
      delay 2 = 100 * Millisecond
      /\ delay 3 = 200 * Millisecond
      /\ delay 4 = 400 * Millisecond
      /\ delay 5 = 800 * Millisecond
      /\ delay 6 = 1600 * Millisecond
      /\ forall k, 7 <= k <= 38 -> delay k = 2 * Second).
Proof.
  split; [|split].
  - intros St operation fn config st k Hfail Hk.
    unfold retry.ExecuteWithRetry.
    destruct (retryLoop_failed_prefix env operation fn config
                (Z.to_nat (k - 1)) (Z.to_nat (retry.MaxAttempts config))
                1 None st [] ltac:(lia) ltac:(lia) Hfail)
      as [rest ->].
    cbn [app].
    pose proof (nth_error_backoff env config (Z.to_nat (k - 1)) 1
                  (Z.to_nat (k - 2)) ltac:(lia)) as Hnth.
    rewrite nth_error_app1
      by (apply nth_error_Some; rewrite Hnth; discriminate).
    rewrite Hnth. do 2 f_equal. lia.
  - intros k base maxd Hk Hn Hb Hfit.
    replace (k - 2) with (k - 1 - 1) in * by lia.
    apply calculateDelay_exact; lia.
  - cbn zeta.
    assert (forall k, 2 <= k <= 38 ->
              retry.calculateDelay env (k - 1)
                (retry.BaseDelay retry.DefaultRetryConfig)
                (retry.MaxDelay retry.DefaultRetryConfig) =
              Z.min (100 * Millisecond * 2 ^ (k - 2)) (2 * Second)) as Hd.
    { intros k Hk.
      assert (2 ^ 0 <= 2 ^ (k - 2) <= 2 ^ 36) as Hpow
        by (split; apply Z.pow_le_mono_r; lia).
      replace (k - 2) with (k - 1 - 1) in * by lia.
      apply calculateDelay_exact;
        cbn [retry.BaseDelay retry.DefaultRetryConfig];
        unfold Millisecond, retry.maxInt64; lia. }
    repeat split; try (rewrite Hd by lia; reflexivity).
    intros k Hk. rewrite Hd by lia.
    assert (2 ^ 5 <= 2 ^ (k - 2)) as Hpow
      by (apply Z.pow_le_mono_r; lia).
    unfold Millisecond, Second. lia.
Qed.

Lemma C2_backoff_delay_witness :
  nth_error
    (snd (retry.ExecuteWithRetry demoEnv "demo"
            (fun n : nat =>
               (if (n <? 2)%nat then Some connRefused else None, S n))
            retry.DefaultRetryConfig 0%nat)) (Z.to_nat (3 - 2))
  = Some (retry.calculateDelay demoEnv (3 - 1) (100 * Millisecond)
            (2 * Second))
  /\ retry.calculateDelay demoEnv (4 - 1) (100 * Millisecond) (2 * Second)
     = Z.min (100 * Millisecond * 2 ^ (4 - 2)) (2 * Second).
Proof.
  split.
  - apply (proj1 (C2_backoff_delay demoEnv) nat "demo"
             (fun n : nat =>
                (if (n <? 2)%nat then Some connRefused else None, S n))
             retry.DefaultRetryConfig 0%nat 3).
    + intros [|[|i]] Hi; [discriminate | discriminate |].
      vm_compute in Hi. lia.
    + vm_compute. split; discriminate.
  - apply (proj1 (proj2 (C2_backoff_delay demoEnv))).
    + lia.
    + lia.
    + vm_compute. split; [discriminate | reflexivity].
    + vm_compute. discriminate.
Defined.



(* ================================================================= *)
(** ** Facts about the persistence collaborator *)

Lemma firstByID_Some p tbl u :
  gorm.firstByID p tbl = Some u -> In u tbl /\ p u = true.
Proof.
  revert u. induction tbl as [|r tbl IH]; intros u; cbn [gorm.firstByID].
  - discriminate.
  - destruct (p r) eqn:Hp.
    + destruct (gorm.firstByID p tbl) as [r'|] eqn:Hrest.
      * destruct (ID r' <? ID r); intros [= <-].
        -- destruct (IH r' eq_refl). split; [now right | assumption].
        -- split; [now left | assumption].
      * intros [= <-]. split; [now left | assumption].
    + intros Hu. destruct (IH u Hu). split; [now right | assumption].
Qed.

Lemma firstByID_found p tbl r :
  In r tbl -> p r = true -> exists u, gorm.firstByID p tbl = Some u.
Proof.
  induction tbl as [|r' tbl IH]; intros Hin Hp; [contradiction|].
  cbn [gorm.firstByID].
  destruct (p r') eqn:Hp'.
  - destruct (gorm.firstByID p tbl) as [r''|];
      [destruct (ID r'' <? ID r')|]; eauto.
  - destruct Hin as [->|Hin]; [congruence | now apply IH].
Qed.

Lemma firstByID_none p tbl :
  (forall r, In r tbl -> p r = false) -> gorm.firstByID p tbl = None.
Proof.
  intros Hnone.
  destruct (gorm.firstByID p tbl) as [u|] eqn:Hu; [|reflexivity].
  apply firstByID_Some in Hu. destruct Hu as [Hin Hp].
  rewrite (Hnone u Hin) in Hp. discriminate.
Qed.

(** When every matching row is the same value, that value is found. *)
Lemma firstByID_unique p tbl x :
  (forall r, In r tbl -> p r = true -> r = x) ->
  (exists r, In r tbl /\ p r = true) ->
  gorm.firstByID p tbl = Some x.
Proof.
  intros Hall [r [Hin Hp]].
  destruct (firstByID_found p tbl r Hin Hp) as [u Hu].
  rewrite Hu. f_equal.
  apply firstByID_Some in Hu. destruct Hu. now apply Hall.
Qed.

Lemma delay_after_attempt1 env :
  retry.calculateDelay env 1 (100 * Millisecond) (2 * Second)
  = 100 * Millisecond.
Proof.
  rewrite calculateDelay_exact; try reflexivity; vm_compute;
    try split; congruence.
Qed.

Lemma delay_after_attempt2 env :
  retry.calculateDelay env 2 (100 * Millisecond) (2 * Second)
  = 200 * Millisecond.
Proof.
  rewrite calculateDelay_exact; try reflexivity; vm_compute;
    try split; congruence.
Qed.

(** The executor under the default policy, unrolled. *)
Lemma ExecuteWithRetry_default {St : Type} env operation
    (fn : retry.RetryableFunc St) st :
  retry.ExecuteWithRetry env operation fn retry.DefaultRetryConfig st =
  let (e1, s1) := fn st in
  match e1 with
  | None => (None, s1, [])
  | Some _ =>
      let (e2, s2) := fn s1 in
      match e2 with
      | None => (None, s2, [100 * Millisecond])
      | Some _ =>
          let (e3, s3) := fn s2 in
          match e3 with
          | None => (None, s3, [100 * Millisecond; 200 * Millisecond])
          | Some e =>
              (Some (ErrRetry operation 3 (Some e)), s3,
               [100 * Millisecond; 200 * Millisecond])
          end
      end
  end.
Proof.
  unfold retry.ExecuteWithRetry.
  change (Z.to_nat (retry.MaxAttempts retry.DefaultRetryConfig))
    with 3%nat.
  cbn [retry.retryLoop retry.MaxAttempts retry.BaseDelay retry.MaxDelay
       retry.DefaultRetryConfig].
  change (1 <=? 3) with true. change (1 =? 3) with false.
  change (1 + 1) with 2. change (2 <=? 3) with true.
  change (2 =? 3) with false. change (2 + 1) with 3.
  change (3 <=? 3) with true. change (3 =? 3) with true.
  cbv iota.
  rewrite delay_after_attempt1, delay_after_attempt2.
  destruct (fn st) as [[e1|] s1]; [|reflexivity].
  destruct (fn s1) as [[e2|] s2]; [|reflexivity].
  destruct (fn s2) as [[e3|] s3]; reflexivity.
Qed.

Lemma sameStore_refl w : sameStore w w.
Proof. repeat split. Qed.

Section DatabaseFacts.
Variable env : Env.

(** A lookup by identifier leaves the table alone, and the user it
    returns is the row of the table with that identifier. *)
Lemma FindUserByIDWithRetry_spec id w :
  match database.FindUserByIDWithRetry env id w with
  | (inl u, w') =>
      sameStore w w'
      /\ gorm.firstByID (fun r => ID r =? id) (rows w) = Some u
  | (inr _, w') => sameStore w w'
  end.
Proof.
  unfold database.FindUserByIDWithRetry.
  destruct (retry.ExecuteWithRetry _ _ _ _ _)
    as [[err [user w']] naps] eqn:Hrun.
  apply ExecuteWithRetry_inv_eq with
    (I := fun s => sameStore w (snd s))
    (Q := fun s => sameStore w (snd s)
                   /\ gorm.firstByID (fun r => ID r =? id) (rows w)
                      = Some (fst s)) in Hrun.
  - destruct err; cbn [fst snd] in Hrun; [exact Hrun|].
    destruct Hrun. split; assumption.
  - intros [u0 w0] Hw0. cbn [snd] in Hw0.
    unfold gorm.First, gorm.roundTrip.
    destruct Hw0 as (Hrows & Hseq & Hhash).
    destruct (faults w0) as [|[e|] fs]; cbn [fst snd gorm.tick rows];
      try (rewrite Hrows;
           destruct (gorm.firstByID (fun r => ID r =? id) (rows w))
             as [r|]; cbn [IsRecordNotFound fst snd];
           repeat split; assumption).
    destruct (IsRecordNotFound e); cbn [snd]; repeat split; assumption.
  - apply sameStore_refl.
Qed.

Lemma FindUserByEmailWithRetry_spec email w :
  match database.FindUserByEmailWithRetry env email w with
  | (inl u, w') =>
      sameStore w w'
      /\ gorm.firstByID (fun r => String.eqb (Email r) email) (rows w)
         = Some u
  | (inr _, w') => sameStore w w'
  end.
Proof.
  unfold database.FindUserByEmailWithRetry.
  destruct (retry.ExecuteWithRetry _ _ _ _ _)
    as [[err [user w']] naps] eqn:Hrun.
  apply ExecuteWithRetry_inv_eq with
    (I := fun s => sameStore w (snd s))
    (Q := fun s => sameStore w (snd s)
                   /\ gorm.firstByID
                        (fun r => String.eqb (Email r) email) (rows w)
                      = Some (fst s)) in Hrun.
  - destruct err; cbn [fst snd] in Hrun; [exact Hrun|].
    destruct Hrun. split; assumption.
  - intros [u0 w0] Hw0. cbn [snd] in Hw0.
    unfold gorm.WhereEmailFirst, gorm.roundTrip.
    destruct Hw0 as (Hrows & Hseq & Hhash).
    destruct (faults w0) as [|[e|] fs]; cbn [fst snd gorm.tick rows];
      try (rewrite Hrows;
           destruct (gorm.firstByID
                       (fun r => String.eqb (Email r) email) (rows w))
             as [r|]; cbn [IsRecordNotFound fst snd];
           repeat split; assumption).
    destruct (IsRecordNotFound e); cbn [snd]; repeat split; assumption.
  - apply sameStore_refl.
Qed.
Lemma FindUserByIDWithRetry_ok id w u :
  faults w = [] ->
  gorm.firstByID (fun r => ID r =? id) (rows w) = Some u ->
  exists w',
    database.FindUserByIDWithRetry env id w = (inl u, w')
    /\ faults w' = [] /\ rows w' = rows w.
Proof.
  intros Hfaults Hrow.
  unfold database.FindUserByIDWithRetry.
  rewrite ExecuteWithRetry_default. cbv beta iota.
  unfold gorm.First, gorm.roundTrip. rewrite Hfaults.
  cbv beta iota. cbn [gorm.tick rows]. rewrite Hrow.
  eexists. split; [reflexivity|].
  cbn [addSlept gorm.tick faults rows]. rewrite Hfaults.
  split; reflexivity.
Qed.

(** Saving a user whose row exists: on success the row holds the value
    returned, which differs from the value given in [UpdatedAt] at
    most; on failure the table is as before. *)
Lemma UpdateUserWithRetry_spec user w :
  ID user <> 0 ->
  gorm.idTaken (ID user) (rows w) = true ->
  match database.UpdateUserWithRetry env user w with
  | (None, u', w') =>
      sameButUpdatedAt u' user
      /\ rows w' = map (fun r => if ID r =? ID user then u' else r) (rows w)
  | (Some _, _, w') => rows w' = rows w
  end.
Proof.
  intros Hid Htaken.
  unfold database.UpdateUserWithRetry.
  destruct (retry.ExecuteWithRetry _ _ _ _ _)
    as [[err [u' w']] naps] eqn:Hrun.
  apply ExecuteWithRetry_inv_eq with
    (I := fun s => sameButUpdatedAt (fst s) user
                   /\ rows (snd s) = rows w)
    (Q := fun s => sameButUpdatedAt (fst s) user
                   /\ rows (snd s) =
                      map (fun r => if ID r =? ID user then fst s else r)
                        (rows w)) in Hrun.
  - destruct err; cbn [fst snd] in Hrun; [apply Hrun | exact Hrun].
  - intros [u0 w0] [Hu0 Hw0]. cbn [fst snd] in *.
    assert (ID u0 = ID user) as Hid0 by apply Hu0.
    unfold gorm.Save.
    replace (ID u0 =? 0) with false
      by (symmetry; apply Z.eqb_neq; congruence).
    unfold gorm.roundTrip.
    destruct (faults w0) as [|[e|] fs];
      cbn [gorm.tick rows ID Email setUpdatedAt];
      rewrite ?Hw0, ?Hid0, ?Htaken;
      repeat match goal with
             | |- context [if ?b then _ else _] => destruct b
             end;
      cbn [fst snd gorm.tick rows setRows];
      (split; [exact Hu0 | first [exact Hw0 | reflexivity]]).
  - cbn [fst snd]. repeat split.
Qed.

Lemma UpdateUserWithRetry_ok user w :
  ID user <> 0 ->
  gorm.idTaken (ID user) (rows w) = true ->
  gorm.emailTaken (Email user) (ID user) (rows w) = false ->
  faults w = [] ->
  exists u' w', database.UpdateUserWithRetry env user w = (None, u', w').
Proof.
  intros Hid Htaken Hfree Hfaults.
  unfold database.UpdateUserWithRetry.
  rewrite ExecuteWithRetry_default. cbv beta iota.
  unfold gorm.Save.
  replace (ID user =? 0) with false by (symmetry; now apply Z.eqb_neq).
  unfold gorm.roundTrip. rewrite Hfaults.
  cbv beta iota. cbn [gorm.tick rows ID Email setUpdatedAt].
  rewrite Htaken, Hfree.
  eexists _, _. reflexivity.
Qed.

Lemma idTaken_of_first id tbl u :
  gorm.firstByID (fun r => ID r =? id) tbl = Some u ->
  ID u = id /\ gorm.idTaken id tbl = true.
Proof.
  intros Hu. apply firstByID_Some in Hu. destruct Hu as [Hin Hp].
  split; [now apply Z.eqb_eq|].
  unfold gorm.idTaken. apply existsb_exists. eauto.
Qed.

Lemma patched_ID name email u : ID (patched name email u) = ID u.
Proof.
  unfold patched.
  destruct (String.eqb name ""), (String.eqb email ""); reflexivity.
Qed.

(** [UpdateUser] on an existing user with a non-zero identifier. *)
Lemma UpdateUser_spec id name email w u :
  id <> 0 ->
  gorm.firstByID (fun r => ID r =? id) (rows w) = Some u ->
  match service.UpdateUser env id name email w with
  | (inl u', w') =>
      sameButUpdatedAt u' (patched name email u)
      /\ rows w' = map (fun r => if ID r =? id then u' else r) (rows w)
  | (inr _, w') => rows w' = rows w
  end.
Proof.
  intros Hid Hu.
  unfold service.UpdateUser.
  pose proof (FindUserByIDWithRetry_spec id w) as Hfind.
  destruct (database.FindUserByIDWithRetry env id w) as [[u0|e] w1].
  - destruct Hfind as [(Hrows & _) Hu0].
    assert (u0 = u) as -> by congruence.
    destruct (idTaken_of_first _ _ _ Hu) as [Hidu Htaken].
    fold (patched name email u).
    pose proof (UpdateUserWithRetry_spec (patched name email u) w1) as Hsave.
    rewrite patched_ID, Hidu, Hrows in Hsave.
    specialize (Hsave Hid Htaken).
    destruct (database.UpdateUserWithRetry env (patched name email u) w1)
      as [[[e|] u'] w'].
    + exact Hsave.
    + exact Hsave.
  - apply Hfind.
Qed.

Lemma UpdateUser_ok id name email w u :
  id <> 0 ->
  gorm.firstByID (fun r => ID r =? id) (rows w) = Some u ->
  gorm.emailTaken (Email (patched name email u)) id (rows w) = false ->
  faults w = [] ->
  exists u' w', service.UpdateUser env id name email w = (inl u', w').
Proof.
  intros Hid Hu Hfree Hfaults.
  unfold service.UpdateUser.
  destruct (FindUserByIDWithRetry_ok id w u Hfaults Hu)
    as (w1 & -> & Hfaults1 & Hrows1).
  destruct (idTaken_of_first _ _ _ Hu) as [Hidu Htaken].
  fold (patched name email u).
  destruct (UpdateUserWithRetry_ok (patched name email u) w1)
    as (u' & w' & Hsave).
  - rewrite patched_ID. congruence.
  - rewrite patched_ID, Hidu, Hrows1. exact Htaken.
  - rewrite patched_ID, Hidu, Hrows1. exact Hfree.
  - exact Hfaults1.
  - rewrite Hsave. eauto.
Qed.

(** The row an update leaves under the identifier. *)
Lemma firstByID_replaced id tbl u u' :
  gorm.firstByID (fun r => ID r =? id) tbl = Some u ->
  ID u' = id ->
  gorm.firstByID (fun r => ID r =? id)
    (map (fun r => if ID r =? id then u' else r) tbl) = Some u'.
Proof.
  intros Hu Hid'.
  apply firstByID_Some in Hu. destruct Hu as [Hin Hp].
  apply firstByID_unique.
  - intros r Hr Hpr. apply in_map_iff in Hr.
    destruct Hr as (r0 & Hr0 & _).
    destruct (ID r0 =? id) eqn:Hr0id; congruence.
  - exists u'. split.
    + apply in_map_iff. exists u. rewrite Hp. now split.
    + now apply Z.eqb_eq.
Qed.
Lemma stamp_ID t u : ID (gorm.stamp t u) = ID u.
Proof.
  unfold gorm.stamp.
  destruct (CreatedAt u =? 0); cbn [UpdatedAt setCreatedAt];
    destruct (UpdatedAt u =? 0); reflexivity.
Qed.

Lemma stamp_Email t u : Email (gorm.stamp t u) = Email u.
Proof.
  unfold gorm.stamp.
  destruct (CreatedAt u =? 0); cbn [UpdatedAt setCreatedAt];
    destruct (UpdatedAt u =? 0); reflexivity.
Qed.

Lemma emailTaken_intro email except tbl r :
  In r tbl -> Email r = email -> ID r <> except ->
  gorm.emailTaken email except tbl = true.
Proof.
  intros Hin Hemail Hid. unfold gorm.emailTaken.
  apply existsb_exists. exists r. split; [assumption|].
  rewrite Hemail, String.eqb_refl.
  now replace (ID r =? except) with false
    by (symmetry; now apply Z.eqb_neq).
Qed.

Lemma idTaken_false id tbl r :
  gorm.idTaken id tbl = false -> In r tbl -> ID r <> id.
Proof.
  unfold gorm.idTaken. intros Hfree Hin Heq.
  assert (existsb (fun r => ID r =? id) tbl = true) as Habs
    by (apply existsb_exists; exists r; split;
        [assumption | now apply Z.eqb_eq]).
  congruence.
Qed.

(** An insertion whose email is already in the table fails and leaves
    the table as it is: with the scheduled fault if there is one, with a
    unique violation otherwise. *)
Lemma Create_duplicate user w r :
  ID user = 0 -> In r (rows w) -> Email r = Email user ->
  exists e u' w',
    gorm.Create user w = (Some e, u', w')
    /\ ID u' = 0 /\ Email u' = Email user
    /\ rows w' = rows w /\ faults w' = tl (faults w)
    /\ match faults w with
       | Some f :: _ => e = f
       | _ => isViolation e
       end.
Proof.
  intros Hid Hin Hemail.
  unfold gorm.Create, gorm.roundTrip.
  assert (exists e,
            gorm.insertRow
              (setID (seq (gorm.tick w) + 1) (gorm.stamp (now w) user))
              (setSeq (seq (gorm.tick w) + 1) (gorm.tick w))
            = (Some e, setSeq (seq (gorm.tick w) + 1) (gorm.tick w))
            /\ isViolation e) as Hins.
  { unfold gorm.insertRow. cbn [ID Email setID rows seq setSeq gorm.tick].
    destruct (gorm.idTaken (seq w + 1) (rows w)) eqn:Hpk.
    - eexists. split; [reflexivity | now left].
    - rewrite (emailTaken_intro _ _ _ r Hin)
        by (rewrite ?stamp_Email; eauto using idTaken_false).
      eexists. split; [reflexivity | now right]. }
  destruct (faults w) as [|[f|] fs'] eqn:Hfs; cbv beta iota;
    rewrite ?stamp_ID, ?Hid; cbn [Z.eqb].
  - destruct Hins as (e & -> & He).
    do 3 eexists. split; [reflexivity|].
    rewrite stamp_ID, stamp_Email. cbn [rows faults setSeq gorm.tick].
    rewrite Hfs. repeat split; assumption.
  - do 3 eexists. split; [reflexivity|].
    rewrite stamp_ID, stamp_Email. cbn [rows faults gorm.tick].
    rewrite Hfs. repeat split; assumption.
  - destruct Hins as (e & -> & He).
    do 3 eexists. split; [reflexivity|].
    rewrite stamp_ID, stamp_Email. cbn [rows faults setSeq gorm.tick].
    rewrite Hfs. repeat split; assumption.
Qed.

Lemma CreateUserWithRetry_duplicate user w r :
  ID user = 0 -> In r (rows w) -> Email r = Email user ->
  exists e u' w',
    database.CreateUserWithRetry env user w =
    (Some (ErrRetry "create_user" 3 (Some e)), u', w')
    /\ rows w' = rows w
    /\ (thirdTripClear w -> isViolation e).
Proof.
  intros Hid Hin Hemail.
  unfold database.CreateUserWithRetry.
  rewrite ExecuteWithRetry_default. cbv beta iota.
  destruct (Create_duplicate user w r Hid Hin Hemail)
    as (e1 & u1 & w1 & -> & Hid1 & Hemail1 & Hrows1 & Hfs1 & _).
  cbv beta iota.
  destruct (database.isUniqueViolation e1); cbv beta iota.
  all: rewrite <- Hrows1 in Hin; rewrite <- Hemail1 in Hemail.
  all: destruct (Create_duplicate u1 w1 r Hid1 Hin Hemail)
         as (e2 & u2 & w2 & -> & Hid2 & Hemail2 & Hrows2 & Hfs2 & _).
  all: cbv beta iota.
  all: destruct (database.isUniqueViolation e2); cbv beta iota.
  all: rewrite <- Hrows2 in Hin; rewrite <- Hemail2 in Hemail.
  all: destruct (Create_duplicate u2 w2 r Hid2 Hin Hemail)
         as (e3 & u3 & w3 & -> & Hid3 & Hemail3 & Hrows3 & Hfs3 & He3).
  all: cbv beta iota.
  all: destruct (database.isUniqueViolation e3); cbv beta iota.
  all: do 3 eexists; split; [reflexivity|].
  all: cbn [rows addSlept]; split; [congruence|].
  all: unfold thirdTripClear; intros Hclear.
  all: rewrite Hfs2, Hfs1 in He3.
  all: destruct (faults w) as [|a [|b [|[f|] l]]]; cbn in Hclear, He3;
    try discriminate; assumption.
Qed.

Lemma violation_text e :
  isViolation e ->
  Contains (Error (ErrRetry "create_user" 3 (Some e))) "duplicate key"
  = true.
Proof. intros [->| ->]; vm_compute; reflexivity. Qed.
End DatabaseFacts.

(* ================================================================= *)
(** ** Identifiers of stored users are never zero *)

Lemma positiveIDs_empty : positiveIDs emptyWorld.
Proof. split; [cbn; lia | constructor]. Qed.

Lemma positiveIDs_lookup w id u :
  positiveIDs w ->
  gorm.firstByID (fun r => ID r =? id) (rows w) = Some u ->
  id <> 0.
Proof.
  intros [_ Hrows] Hu. apply firstByID_Some in Hu.
  destruct Hu as [Hin Hid]. apply Z.eqb_eq in Hid. subst id.
  rewrite Forall_forall in Hrows. now apply Hrows.
Qed.

Lemma positiveIDs_same w w' :
  sameStore w w' -> positiveIDs w -> positiveIDs w'.
Proof. intros (Hr & Hs & _) [H1 H2]. split; [lia | now rewrite Hr]. Qed.

Lemma insertRow_positive user w :
  ID user <> 0 -> positiveIDs w ->
  positiveIDs (snd (gorm.insertRow user w)).
Proof.
  intros Hid [Hseq Hrows]. unfold gorm.insertRow.
  destruct (gorm.idTaken (ID user) (rows w)); [now split|].
  destruct (gorm.emailTaken (Email user) (ID user) (rows w)); [now split|].
  split; [exact Hseq|]. cbn [snd rows setRows].
  apply Forall_app. split; [exact Hrows|]. now constructor.
Qed.

Lemma Create_positive user w :
  positiveIDs w ->
  match gorm.Create user w with
  | (None, _, w') => positiveIDs w'
  | (Some _, u', w') => positiveIDs w' /\ ID u' = ID user
  end.
Proof.
  intros Hw. unfold gorm.Create, gorm.roundTrip.
  assert (positiveIDs (gorm.tick w)) as Htick by exact Hw.
  destruct (faults w) as [|[f|] fs]; cbv beta iota;
    try (split; [exact Htick | apply stamp_ID]).
  all: rewrite stamp_ID.
  all: destruct (ID user =? 0) eqn:Hz.
  all: match goal with
       | |- context [gorm.insertRow ?u ?w0] =>
           pose proof (insertRow_positive u w0) as Hins;
           destruct (gorm.insertRow u w0) as [[e|] w1]
       end.
  all: cbn [snd ID setID] in Hins.
  all: try (rewrite stamp_ID in Hins).
  all: try (apply Z.eqb_neq in Hz).
  all: try (split; [|apply stamp_ID]).
  all: apply Hins;
    try (destruct Hw as [Hs Hr]; split; cbn [seq rows setSeq gorm.tick];
         [lia | exact Hr]);
    try (destruct Hw; cbn [seq gorm.tick]; lia);
    try exact Hz; try exact Htick.
Qed.

Lemma Save_positive user w :
  ID user <> 0 -> positiveIDs w ->
  positiveIDs (snd (gorm.Save user w))
  /\ ID (snd (fst (gorm.Save user w))) = ID user.
Proof.
  intros Hid Hw. unfold gorm.Save.
  replace (ID user =? 0) with false by (symmetry; now apply Z.eqb_neq).
  unfold gorm.roundTrip.
  cbn [gorm.tick faults rows ID Email setUpdatedAt].
  assert (positiveIDs (gorm.tick w)) as Ht by exact Hw.
  assert (positiveIDs (gorm.tick (gorm.tick w))) as Htt by exact Hw.
  pose proof (insertRow_positive (setUpdatedAt (now w) user)
                (gorm.tick (gorm.tick w)) Hid Htt) as Hins.
  assert (positiveIDs
            (setRows
               (map (fun r => if ID r =? ID user
                              then setUpdatedAt (now w) user else r)
                  (rows w)) (gorm.tick w))) as Hmap.
  { destruct Hw as [Hs Hr]. split; [exact Hs|].
    cbn [rows setRows]. apply Forall_forall. intros r Hin.
    apply in_map_iff in Hin. destruct Hin as (r0 & <- & Hin0).
    rewrite Forall_forall in Hr.
    destruct (ID r0 =? ID user); [exact Hid | now apply Hr]. }
  destruct (faults w) as [|[f|] fs] eqn:Hf; cbv beta iota;
    cbn [gorm.tick rows faults ID Email setUpdatedAt fst snd];
    rewrite ?Hf; cbn [tl]; cbv beta iota;
    try (split; [exact Ht | reflexivity]).
  all: destruct (gorm.idTaken (ID user) (rows w)).
  all: try match goal with
           | |- context [gorm.emailTaken ?a ?b ?c] =>
               destruct (gorm.emailTaken a b c)
           end.
  all: cbn [fst snd];
    try (split; [first [exact Ht | exact Hmap] | reflexivity]).
  all: try (destruct fs as [|[f'|] fs']); cbv beta iota; cbn [fst snd];
    try (split; [exact Htt | reflexivity]).
  all: destruct (gorm.insertRow _ _) as [err w3]; cbn [fst snd] in *.
  all: split; [exact Hins | reflexivity].
Qed.

Section Invariant.
Variable env : Env.

Lemma CreateUser_positive name email password w :
  positiveIDs w ->
  positiveIDs (snd (service.CreateUser env name email password w)).
Proof.
  intros Hw. unfold service.CreateUser.
  destruct (GenerateFromPassword env password) as [h|e]; [|exact Hw].
  unfold database.CreateUserWithRetry.
  destruct (retry.ExecuteWithRetry _ _ _ _ _)
    as [[err [u' w']] naps] eqn:Hrun.
  apply ExecuteWithRetry_inv_eq with
    (I := fun s => positiveIDs (snd s))
    (Q := fun s => positiveIDs (snd s)) in Hrun.
  - destruct err; exact Hrun.
  - intros [u0 w0] Hw0. cbn [snd] in Hw0.
    pose proof (Create_positive u0 w0 Hw0) as Hc.
    destruct (gorm.Create u0 w0) as [[[e|] u1] w1].
    + destruct (database.isUniqueViolation e); apply Hc.
    + exact Hc.
  - exact Hw.
Qed.

Lemma DeleteUser_positive id w :
  positiveIDs w -> positiveIDs (snd (service.DeleteUser env id w)).
Proof.
  intros Hw. unfold service.DeleteUser, database.DeleteUserWithRetry.
  destruct (retry.ExecuteWithRetry _ _ _ _ _)
    as [[err w'] naps] eqn:Hrun.
  apply ExecuteWithRetry_inv_eq with
    (I := positiveIDs) (Q := positiveIDs) in Hrun.
  - destruct err; exact Hrun.
  - intros w0 [Hs Hr]. unfold gorm.Delete, gorm.roundTrip.
    destruct (faults w0) as [|[f|] fs]; split;
      cbn [seq rows setRows gorm.tick]; try assumption.
    all: apply Forall_forall; intros r Hin;
      apply filter_In in Hin; destruct Hin as [Hin _];
      rewrite Forall_forall in Hr; now apply Hr.
  - exact Hw.
Qed.

Lemma UpdateUser_positive id name email w :
  positiveIDs w ->
  positiveIDs (snd (service.UpdateUser env id name email w)).
Proof.
  intros Hw. unfold service.UpdateUser.
  pose proof (FindUserByIDWithRetry_spec env id w) as Hfind.
  destruct (database.FindUserByIDWithRetry env id w) as [[u|e] w1].
  - destruct Hfind as [Hsame Hu].
    pose proof (positiveIDs_lookup w id u Hw Hu) as Hid.
    pose proof (positiveIDs_same w w1 Hsame Hw) as Hw1.
    destruct (idTaken_of_first _ _ _ Hu) as [Hidu _].
    fold (patched name email u).
    assert (ID (patched name email u) <> 0) as Hpid
      by (rewrite patched_ID; congruence).
    unfold database.UpdateUserWithRetry.
    destruct (retry.ExecuteWithRetry _ _ _ _ _)
      as [[err [u' w']] naps] eqn:Hrun.
    apply ExecuteWithRetry_inv_eq with
      (I := fun s => positiveIDs (snd s) /\ ID (fst s) <> 0)
      (Q := fun s => positiveIDs (snd s)) in Hrun.
    + destruct err; cbn [snd]; [apply Hrun | exact Hrun].
    + intros [u0 w0] [Hw0 Hu0]. cbn [fst snd] in *.
      destruct (Save_positive u0 w0 Hu0 Hw0) as [Hs Hi].
      destruct (gorm.Save u0 w0) as [[[e|] u1] w2]; cbn [fst snd] in *.
      * destruct (database.isUniqueViolation e); cbn [fst snd];
          (split; [exact Hs | congruence]).
      * exact Hs.
    + split; assumption.
  - now apply (positiveIDs_same w w1).
Qed.
End Invariant.

(* ================================================================= *)
(** ** Results about the service layer *)

(** C4.  [UpdateUser id name email] on an existing user (identifiers are
    drawn from a sequence that starts at 1, so [id] is not zero): whenever
    the call succeeds, the user returned, which is also the row then
    stored under [id], has the name (the email) given when it is not
    empty and the prior one when it is empty, and keeps the identifier,
    the digest and the creation time; the store stamps [UpdatedAt].  The
    call does succeed when the store answers without a fault and no other
    row carries the resulting email. *)
Theorem C4_partial_update env id name email w u :
  id <> 0 ->
  gorm.firstByID (fun r => ID r =? id) (rows w) = Some u ->
  (forall u' w',
     service.UpdateUser env id name email w = (inl u', w') ->
     Name u' = (if String.eqb name "" then Name u else name)
     /\ Email u' = (if String.eqb email "" then Email u else email)
     /\ ID u' = ID u /\ Password u' = Password u
     /\ CreatedAt u' = CreatedAt u
     /\ gorm.firstByID (fun r => ID r =? id) (rows w') = Some u')
  /\ (faults w = [] ->
      gorm.emailTaken (if String.eqb email "" then Email u else email) id
        (rows w) = false ->
      exists u' w', service.UpdateUser env id name email w = (inl u', w')).
Proof.
  intros Hid Hu. split.
  - intros u' w' Hrun.
    pose proof (UpdateUser_spec env id name email w u Hid Hu) as Hspec.
    rewrite Hrun in Hspec.
    destruct Hspec as [(Hi & Hn & He & Hp & Hc) Hrows].
    destruct (idTaken_of_first _ _ _ Hu) as [Hidu _].
    repeat split.
    + rewrite Hn. unfold patched.
      destruct (String.eqb name ""), (String.eqb email ""); reflexivity.
    + rewrite He. unfold patched.
      destruct (String.eqb name ""), (String.eqb email ""); reflexivity.
    + now rewrite Hi, patched_ID.
    + rewrite Hp. unfold patched.
      destruct (String.eqb name ""), (String.eqb email ""); reflexivity.
    + rewrite Hc. unfold patched.
      destruct (String.eqb name ""), (String.eqb email ""); reflexivity.
    + rewrite Hrows. apply firstByID_replaced with (u := u); [exact Hu|].
      rewrite Hi, patched_ID. exact Hidu.
  - intros Hfaults Hfree.
    apply UpdateUser_ok with (u := u); try assumption.
    unfold patched.
    destruct (String.eqb name ""), (String.eqb email "");
      cbn [Email setEmail setName]; exact Hfree.
Qed.

Lemma C4_partial_update_witness :
  (forall u' w',
     service.UpdateUser demoEnv 1 "" "new@x.com" annWorld = (inl u', w') ->
     Name u' = "Ann"
     /\ Email u' = "new@x.com"
     /\ ID u' = 1 /\ Password u' = "$2a$10$secret1"
     /\ CreatedAt u' = 1
     /\ gorm.firstByID (fun r => ID r =? 1) (rows w') = Some u')
  /\ (faults annWorld = [] ->
      gorm.emailTaken "new@x.com" 1 (rows annWorld) = false ->
      exists u' w',
        service.UpdateUser demoEnv 1 "" "new@x.com" annWorld = (inl u', w')).
Proof.
  apply (C4_partial_update demoEnv 1 "" "new@x.com" annWorld annRow).
  - discriminate.
  - vm_compute. reflexivity.
Defined.

(** C10.  [UpdateUser id name email] on an existing user (with the
    non-zero identifier every stored user has): whenever the call
    succeeds, the user returned and the row stored under [id] agree with
    the user that was loaded on [ID], [Password] and [CreatedAt], whatever
    the [name] and [email] arguments; and the call succeeds when the store
    answers without a fault and no other row carries the resulting
    email. *)
Theorem C10_update_preserves_identity env id name email w u :
  id <> 0 ->
  gorm.firstByID (fun r => ID r =? id) (rows w) = Some u ->
  (forall u' w',
     service.UpdateUser env id name email w = (inl u', w') ->
     (ID u' = ID u /\ Password u' = Password u /\ CreatedAt u' = CreatedAt u)
     /\ exists stored,
          gorm.firstByID (fun r => ID r =? id) (rows w') = Some stored
          /\ ID stored = ID u /\ Password stored = Password u
          /\ CreatedAt stored = CreatedAt u)
  /\ (faults w = [] ->
      gorm.emailTaken (Email (patched name email u)) id (rows w) = false ->
      exists u' w', service.UpdateUser env id name email w = (inl u', w')).
Proof.
  intros Hid Hu. split.
  - intros u' w' Hrun.
    pose proof (UpdateUser_spec env id name email w u Hid Hu) as Hspec.
    rewrite Hrun in Hspec.
    destruct Hspec as [(Hi & Hn & He & Hp & Hc) Hrows].
    destruct (idTaken_of_first _ _ _ Hu) as [Hidu _].
    assert (ID u' = ID u /\ Password u' = Password u
            /\ CreatedAt u' = CreatedAt u) as Hkeep.
    { rewrite Hi, Hp, Hc, patched_ID. unfold patched.
      destruct (String.eqb name ""), (String.eqb email "");
        repeat split. }
    split; [exact Hkeep|].
    exists u'. split; [|exact Hkeep].
    rewrite Hrows. apply firstByID_replaced with (u := u); [exact Hu|].
    destruct Hkeep as [-> _]. exact Hidu.
  - intros Hfaults Hfree.
    now apply UpdateUser_ok with (u := u).
Qed.

Lemma C10_update_preserves_identity_witness :
  (forall u' w',
     service.UpdateUser demoEnv 1 "Anna" "anna@x.com" annWorld = (inl u', w')
     ->
     (ID u' = ID annRow /\ Password u' = Password annRow
      /\ CreatedAt u' = CreatedAt annRow)
     /\ exists stored,
          gorm.firstByID (fun r => ID r =? 1) (rows w') = Some stored
          /\ ID stored = ID annRow /\ Password stored = Password annRow
          /\ CreatedAt stored = CreatedAt annRow)
  /\ (faults annWorld = [] ->
      gorm.emailTaken (Email (patched "Anna" "anna@x.com" annRow)) 1
        (rows annWorld) = false ->
      exists u' w',
        service.UpdateUser demoEnv 1 "Anna" "anna@x.com" annWorld
        = (inl u', w')).
Proof.
  apply (C10_update_preserves_identity demoEnv 1 "Anna" "anna@x.com"
           annWorld annRow).
  - discriminate.
  - vm_compute. reflexivity.
Defined.



(** The scenario of the specification, run: the second creation fails on
    the unique index and the stored name is still "Ann". *)
Example duplicate_signup_scenario :
  let (res, w') :=
    service.CreateUser demoEnv "Ann2" "ann@x.com" "secret2" annWorld in
  res = inr (ErrRetry "create_user" 3
               (Some (gorm.uniqueViolation "idx_users_email")))
  /\ rows w' = [annRow] /\ map Name (rows w') = ["Ann"].
Proof. vm_compute. repeat split. Qed.

(* ================================================================= *)
(** ** Results about the adapters *)

(** A login is answered 401 "Invalid credentials" whenever no stored row
    with the email of the request passes the password check, be it that
    there is no such row or that the check fails. *)
Lemma Login_unauthorized env req w :
  api.validateLogin env req = [] ->
  (forall r, In r (rows w) -> Email r = Login_Email req ->
             service.ValidatePassword env r (Login_Password req) <> None) ->
  fst (api.Login env (api.Decoded req) w)
  = api.JSON api.StatusUnauthorized (api.HError "Invalid credentials").
Proof.
  intros Hvalid Hwrong.
  unfold api.Login, api.ShouldBindJSON. rewrite Hvalid.
  unfold service.GetUserByEmail.
  pose proof (FindUserByEmailWithRetry_spec env (Login_Email req) w) as Hf.
  destruct (database.FindUserByEmailWithRetry env (Login_Email req) w)
    as [[u|e] w']; [|reflexivity].
  destruct Hf as [_ Hu]. apply firstByID_Some in Hu.
  destruct Hu as [Hin Hmail]. apply String.eqb_eq in Hmail.
  specialize (Hwrong u Hin Hmail).
  destruct (service.ValidatePassword env u (Login_Password req));
    [reflexivity | congruence].
Qed.

(** C7.  A login whose password does not verify against the digest of
    the stored account (store [w2]) and the same login when no account
    has that email (store [w1]) receive the same response: status 401
    with the body "Invalid credentials", the InvalidCredential outcome;
    this holds whatever transient faults the store meets. *)
Theorem C7_login_failures_indistinguishable env req w1 w2 :
  api.validateLogin env req = [] ->
  (forall r, In r (rows w1) -> Email r <> Login_Email req) ->
  (exists r, In r (rows w2) /\ Email r = Login_Email req) ->
  (forall r, In r (rows w2) -> Email r = Login_Email req ->
             service.ValidatePassword env r (Login_Password req) <> None) ->
  fst (api.Login env (api.Decoded req) w1)
  = fst (api.Login env (api.Decoded req) w2)
  /\ fst (api.Login env (api.Decoded req) w2)
     = api.JSON api.StatusUnauthorized (api.HError "Invalid credentials")
  /\ httpOutcome env (fst (api.Login env (api.Decoded req) w2))
     = OFail InvalidCredential.
Proof.
  intros Hvalid Habsent _ Hwrong.
  rewrite (Login_unauthorized env req w2 Hvalid Hwrong).
  rewrite (Login_unauthorized env req w1 Hvalid).
  - repeat split.
  - intros r Hin Hmail. now destruct (Habsent r Hin).
Qed.

Lemma C7_login_failures_indistinguishable_witness :
  fst (api.Login demoEnv
         (api.Decoded {| Login_Email := "ann@x.com";
                         Login_Password := "wrong-password" |}) emptyWorld)
  = fst (api.Login demoEnv
           (api.Decoded {| Login_Email := "ann@x.com";
                           Login_Password := "wrong-password" |}) annWorld)
  /\ fst (api.Login demoEnv
            (api.Decoded {| Login_Email := "ann@x.com";
                            Login_Password := "wrong-password" |}) annWorld)
     = api.JSON api.StatusUnauthorized (api.HError "Invalid credentials")
  /\ httpOutcome demoEnv
       (fst (api.Login demoEnv
               (api.Decoded {| Login_Email := "ann@x.com";
                               Login_Password := "wrong-password" |})
               annWorld))
     = OFail InvalidCredential.
Proof.
  apply (C7_login_failures_indistinguishable demoEnv
           {| Login_Email := "ann@x.com";
              Login_Password := "wrong-password" |} emptyWorld annWorld).
  - vm_compute. reflexivity.
  - intros r Hin. destruct Hin.
  - exists annRow. split; [vm_compute; left; reflexivity | reflexivity].
  - intros r Hin _. vm_compute in Hin. destruct Hin as [<-|[]].
    vm_compute. discriminate.
Defined.

Lemma validateSignup_rejects env req :
  Signup_Name req = "" \/ Signup_Email req = ""
  \/ IsEmail env (Signup_Email req) = false
  \/ api.RuneCountInString (Signup_Password req) < 6 ->
  api.validateSignup env req <> [].
Proof.
  intros Hbad Hnil. unfold api.validateSignup in Hnil.
  apply app_eq_nil in Hnil. destruct Hnil as [Hname Hrest].
  apply app_eq_nil in Hrest. destruct Hrest as [Hmail Hpw].
  destruct Hbad as [Hb|[Hb|[Hb|Hb]]].
  - rewrite Hb in Hname. discriminate.
  - rewrite Hb in Hmail. discriminate.
  - rewrite Hb in Hmail.
    destruct (String.eqb (Signup_Email req) ""); discriminate.
  - apply Z.ltb_lt in Hb. rewrite Hb in Hpw.
    destruct (String.eqb (Signup_Password req) ""); discriminate.
Qed.

(** A request that passes the binding of [SignupRequest] has a name, an
    email and a password. *)
Lemma validateSignup_accepts env req :
  api.validateSignup env req = [] ->
  String.eqb (Signup_Name req) "" = false
  /\ String.eqb (Signup_Email req) "" = false
  /\ String.eqb (Signup_Password req) "" = false.
Proof.
  intros Hnil. unfold api.validateSignup in Hnil.
  apply app_eq_nil in Hnil. destruct Hnil as [Hname Hrest].
  apply app_eq_nil in Hrest. destruct Hrest as [Hmail Hpw].
  destruct (String.eqb (Signup_Name req) ""); [discriminate|].
  destruct (String.eqb (Signup_Email req) ""); [discriminate|].
  destruct (String.eqb (Signup_Password req) ""); [discriminate|].
  repeat split.
Qed.

(** C9.  The RPC [CreateUser] answers a request with an empty name,
    email or password with InvalidArgument and leaves the whole state as
    it was: no digest computed, no round trip to the store.  The HTTP
    signup answers 400 in the same way when the binding fails: name or
    email missing, email not well-formed, password shorter than six
    characters (the empty one included). *)
Theorem C9_empty_fields_rejected env w :
  (forall req,
     grpc.Create_Name req = "" \/ grpc.Create_Email req = ""
     \/ grpc.Create_Password req = "" ->
     grpc.CreateUser env req w
     = (inr {| grpc.code := grpc.InvalidArgument;
               grpc.message := "name, email, and password are required" |},
        w))
  /\ (forall req,
        Signup_Name req = "" \/ Signup_Email req = ""
        \/ IsEmail env (Signup_Email req) = false
        \/ api.RuneCountInString (Signup_Password req) < 6 ->
        exists msg,
          api.Signup env (api.Decoded req) w
          = (api.JSON api.StatusBadRequest (api.HError msg), w)).
Proof.
  split.
  - intros req Hbad. unfold grpc.CreateUser.
    destruct Hbad as [->|[->| ->]]; cbn [String.eqb orb];
      rewrite ?orb_true_r; reflexivity.
  - intros req Hbad. unfold api.Signup, api.ShouldBindJSON.
    pose proof (validateSignup_rejects env req Hbad) as Hne.
    destruct (api.validateSignup env req) as [|m errs]; [congruence|].
    eexists. reflexivity.
Qed.

Lemma C9_empty_fields_rejected_witness :
  grpc.CreateUser demoEnv
    {| grpc.Create_Name := "Ann"; grpc.Create_Email := "";
       grpc.Create_Password := "secret1" |} annWorld
  = (inr {| grpc.code := grpc.InvalidArgument;
            grpc.message := "name, email, and password are required" |},
     annWorld).
Proof.
  apply (proj1 (C9_empty_fields_rejected demoEnv annWorld)).
  right. left. reflexivity.
Defined.




(** C6, counterexample to the claim as stated: user 1 exists but the
    store cannot be reached for three round trips.  The error that comes
    out of the service layer is neither of the three business errors, and
    yet both adapters report not-found, not a generic internal failure. *)
Lemma C6_transient_failure_reported_not_found :
  exists e w',
    service.GetUser demoEnv 1 downWorld = (inr e, w')
    /\ e = ErrRetry "find_user_by_id" 3 (Some connRefused)
    /\ domainOf e = InternalFailure
    /\ grpcCode (fst (grpc.GetUser demoEnv {| grpc.Get_Id := 1 |} downWorld))
       = grpc.NotFound
    /\ api.Status (fst (api.GetUser demoEnv "1" downWorld))
       = api.StatusNotFound
    /\ ofCode grpc.NotFound <> domainOf e
    /\ ofStatus api.StatusNotFound <> domainOf e.
Proof.
  do 2 eexists. split; [vm_compute; reflexivity|].
  split; [reflexivity|].
  repeat split; vm_compute; try reflexivity; discriminate.
Qed.

(** C6 (amended).  The adapters map the errors of the service layer
    operation by operation.  Create (RPC [CreateUser], HTTP signup): an
    error whose text holds "duplicate key" is reported as conflict
    (AlreadyExists, 409), any other as internal failure (Internal, 500).
    Get: every error, whatever its cause, is reported as not-found
    (NotFound, 404).  Update: an error whose text holds "duplicate key"
    is reported as conflict, and an error that is neither that nor a
    record-not-found as internal failure.  Login (HTTP only; the RPC
    surface has no credential operation): a failed lookup and a failed
    password check are both reported as 401.  Delete and list: every
    error is reported as internal failure. *)
Theorem C6_error_mapping env w :
  (forall name email password e w',
     service.CreateUser env name email password w = (inr e, w') ->
     (name <> "" -> email <> "" -> password <> "" ->
      grpcCode
        (fst (grpc.CreateUser env
                {| grpc.Create_Name := name; grpc.Create_Email := email;
                   grpc.Create_Password := password |} w))
      = if Contains (Error e) "duplicate key" then grpc.AlreadyExists
        else grpc.Internal)
     /\ (api.validateSignup env
           {| Signup_Name := name; Signup_Email := email;
              Signup_Password := password |} = [] ->
         api.Status
           (fst (api.Signup env
                   (api.Decoded
                      {| Signup_Name := name; Signup_Email := email;
                         Signup_Password := password |}) w))
         = if Contains (Error e) "duplicate key" then api.StatusConflict
           else api.StatusInternalServerError))
  /\ (forall idParam z id e w',
        api.Atoi idParam = Some z -> api.uint z = grpc.uint id ->
        service.GetUser env (grpc.uint id) w = (inr e, w') ->
        grpcCode (fst (grpc.GetUser env {| grpc.Get_Id := id |} w))
        = grpc.NotFound
        /\ api.Status (fst (api.GetUser env idParam w))
           = api.StatusNotFound)
  /\ (forall idParam z id name email e w',
        api.Atoi idParam = Some z -> api.uint z = grpc.uint id ->
        service.UpdateUser env (grpc.uint id) name email w = (inr e, w') ->
        let g :=
          grpcCode
            (fst (grpc.UpdateUser env
                    {| grpc.Update_Id := id; grpc.Update_Name := name;
                       grpc.Update_Email := email |} w)) in
        let h :=
          api.Status
            (fst (api.UpdateUser env idParam
                    (api.Decoded
                       {| Update_Name := name; Update_Email := email |})
                    w)) in
        (Contains (Error e) "duplicate key" = true ->
         g = grpc.AlreadyExists /\ h = api.StatusConflict)
        /\ (Contains (Error e) "duplicate key" = false ->
            IsRecordNotFound e = false ->
            g = grpc.Internal /\ h = api.StatusInternalServerError))
  /\ (forall req,
        api.validateLogin env req = [] ->
        let h := api.Status (fst (api.Login env (api.Decoded req) w)) in
        (forall e w',
           service.GetUserByEmail env (Login_Email req) w = (inr e, w') ->
           h = api.StatusUnauthorized)
        /\ (forall u w' e,
              service.GetUserByEmail env (Login_Email req) w = (inl u, w')
              ->
              service.ValidatePassword env u (Login_Password req) = Some e
              -> h = api.StatusUnauthorized))
  /\ (forall idParam z id e w',
        api.Atoi idParam = Some z -> api.uint z = grpc.uint id ->
        service.DeleteUser env (grpc.uint id) w = (Some e, w') ->
        grpcCode (fst (grpc.DeleteUser env {| grpc.Delete_Id := id |} w))
        = grpc.Internal
        /\ api.Status (fst (api.DeleteUser env idParam w))
           = api.StatusInternalServerError)
  /\ (forall e w',
        service.ListUsers env w = (inr e, w') ->
        grpcCode (fst (grpc.ListUsers env w)) = grpc.Internal
        /\ api.Status (fst (api.GetUsers env w))
           = api.StatusInternalServerError).
Proof.
  split; [|split; [|split; [|split; [|split]]]].
  - intros name email password e w' Hsvc. split.
    + intros Hn Hm Hp. unfold grpc.CreateUser.
      cbn [grpc.Create_Name grpc.Create_Email grpc.Create_Password].
      apply String.eqb_neq in Hn, Hm, Hp. rewrite Hn, Hm, Hp.
      cbn [orb]. rewrite Hsvc.
      destruct (Contains (Error e) "duplicate key"); reflexivity.
    + intros Hvalid. unfold api.Signup, api.ShouldBindJSON.
      rewrite Hvalid. cbn [Signup_Name Signup_Email Signup_Password].
      rewrite Hsvc.
      destruct (Contains (Error e) "duplicate key"); reflexivity.
  - intros idParam z id e w' Hatoi Hid Hsvc.
    unfold grpc.GetUser, api.GetUser. rewrite Hatoi, Hid.
    cbn [grpc.Get_Id]. rewrite Hsvc. split; reflexivity.
  - intros idParam z id name email e w' Hatoi Hid Hsvc. cbv zeta.
    unfold grpc.UpdateUser, api.UpdateUser, api.ShouldBindJSON.
    rewrite Hatoi, Hid.
    cbn [api.validateUpdate Update_Name Update_Email grpc.Update_Id
         grpc.Update_Name grpc.Update_Email].
    rewrite Hsvc.
    split; [intros ->|intros -> _]; split; reflexivity.
  - intros req Hvalid. cbv zeta.
    unfold api.Login, api.ShouldBindJSON. rewrite Hvalid. split.
    + intros e w' ->. reflexivity.
    + intros u w' e -> ->. reflexivity.
  - intros idParam z id e w' Hatoi Hid Hsvc.
    unfold grpc.DeleteUser, api.DeleteUser. rewrite Hatoi, Hid.
    cbn [grpc.Delete_Id]. rewrite Hsvc. split; reflexivity.
  - intros e w' Hsvc. unfold grpc.ListUsers, api.GetUsers.
    rewrite Hsvc. split; reflexivity.
Qed.

Lemma C6_error_mapping_witness :
  grpcCode (fst (grpc.GetUser demoEnv {| grpc.Get_Id := 7 |} annWorld))
  = grpc.NotFound
  /\ api.Status (fst (api.GetUser demoEnv "7" annWorld))
     = api.StatusNotFound.
Proof.
  apply (proj1 (proj2 (C6_error_mapping demoEnv annWorld)) "7" 7 7
           (ErrRetry "find_user_by_id" 3 (Some ErrRecordNotFound))
           (snd (service.GetUser demoEnv 7 annWorld))).
  - vm_compute. reflexivity.
  - vm_compute. reflexivity.
  - vm_compute. reflexivity.
Defined.

(* ================================================================= *)
(** ** More about package retry: success, bounds, degenerate policies *)

Section RetryRuns.
Context {St : Type}.
Variable env : Env.
Variable operation : string.
Variable fn : retry.RetryableFunc St.
Variable config : retry.RetryConfig.

Let loop := retry.retryLoop env operation fn config.

(** The loop when the invocations fail [k] times and then succeed. *)
Lemma retryLoop_first_success k : forall fuel attempt lastErr st naps,
  (k < fuel)%nat ->
  attempt + Z.of_nat k <= retry.MaxAttempts config ->
  (forall i, (i < k)%nat -> fst (fn (stateAfter fn i st)) <> None) ->
  fst (fn (stateAfter fn k st)) = None ->
  loop fuel attempt lastErr st naps =
  (None, stateAfter fn (S k) st,
   (naps ++ backoff env config k attempt)%list).
Proof.
  induction k as [|k IH]; intros fuel attempt lastErr st naps Hfuel Hk
    Hfail Hok.
  - destruct fuel as [|fuel]; [lia|].
    cbn [loop retry.retryLoop stateAfter backoff] in *.
    replace (attempt <=? retry.MaxAttempts config) with true
      by (symmetry; apply Z.leb_le; lia).
    destruct (fn st) as [[e|] st']; cbn [fst snd] in *; [discriminate|].
    now rewrite app_nil_r.
  - destruct fuel as [|fuel]; [lia|].
    change (loop (S fuel) attempt lastErr st naps) with
      (if attempt <=? retry.MaxAttempts config then
         let (err, st') := fn st in
         match err with
         | None => (None, st', naps)
         | Some e =>
             if attempt =? retry.MaxAttempts config then
               (Some (retry.exhausted operation config (Some e)), st', naps)
             else
               loop fuel (attempt + 1) (Some e) st'
                 (naps ++ [retry.calculateDelay env attempt
                             (retry.BaseDelay config)
                             (retry.MaxDelay config)])%list
         end
       else (Some (retry.exhausted operation config lastErr), st, naps)).
    replace (attempt <=? retry.MaxAttempts config) with true
      by (symmetry; apply Z.leb_le; lia).
    replace (attempt =? retry.MaxAttempts config) with false
      by (symmetry; apply Z.eqb_neq; lia).
    pose proof (Hfail 0%nat ltac:(lia)) as H0.
    cbn [stateAfter backoff] in *.
    destruct (fn st) as [[e|] st'] eqn:Hfn; cbn [fst snd] in *;
      [|congruence].
    rewrite IH; try lia.
    + now rewrite <- app_assoc.
    + intros i Hi. specialize (Hfail (S i) ltac:(lia)).
      cbn [stateAfter] in Hfail. now rewrite Hfn in Hfail.
    + exact Hok.
Qed.

(** What any run of the loop satisfies, whatever [fn] does: [c] counts
    the invocations so far. *)
Lemma retryLoop_counted_shape fuel : forall attempt lastErr st c naps0,
  Z.of_nat fuel = retry.MaxAttempts config - attempt + 1 ->
  match retry.retryLoop env operation (counted fn) config fuel attempt
          lastErr (st, c) naps0 with
  | (None, (_, n), naps) =>
      (c < n <= c + fuel)%nat
      /\ List.length naps = (List.length naps0 + (n - c - 1))%nat
  | (Some _, (_, n), naps) =>
      n = (c + fuel)%nat
      /\ List.length naps = (List.length naps0 + (fuel - 1))%nat
  end.
Proof.
  induction fuel as [|fuel IH]; intros attempt lastErr st c naps0 Hfuel.
  - cbn [retry.retryLoop]. split; lia.
  - cbn [retry.retryLoop].
    replace (attempt <=? retry.MaxAttempts config) with true
      by (symmetry; apply Z.leb_le; lia).
    unfold counted at 1.
    destruct (fn st) as [[e|] st']; [|split; lia].
    destruct (attempt =? retry.MaxAttempts config) eqn:Hlast.
    + apply Z.eqb_eq in Hlast. split; lia.
    + apply Z.eqb_neq in Hlast.
      specialize (IH (attempt + 1) (Some e) st' (S c)
                    (naps0 ++ [retry.calculateDelay env attempt
                                 (retry.BaseDelay config)
                                 (retry.MaxDelay config)])%list
                    ltac:(lia)).
      fold (counted fn) in IH.
      destruct (retry.retryLoop env operation (counted fn) config fuel
                  (attempt + 1) (Some e) (st', S c) _)
        as [[[e'|] [st'' n]] naps]; rewrite List.length_app in IH;
        cbn [List.length] in IH; destruct IH as [Hn Hl]; split; lia.
Qed.
End RetryRuns.

(** X1.  If the operation function fails [k] times and then succeeds,
    with [k < MaxAttempts], the executor returns [nil], has invoked the
    function exactly [k + 1] times and has slept exactly the [k] backoff
    delays computed after attempts 1 to [k] (none when the first attempt
    succeeds). *)
Theorem X1_success_after_failures {St : Type} (env : Env)
    (operation : string) (fn : retry.RetryableFunc St)
    (config : retry.RetryConfig) (st : St) (k : nat) :
  Z.of_nat k < retry.MaxAttempts config ->
  (forall i, (i < k)%nat -> fst (fn (stateAfter fn i st)) <> None) ->
  fst (fn (stateAfter fn k st)) = None ->
  retry.ExecuteWithRetry env operation (counted fn) config (st, 0%nat) =
  (None, (stateAfter fn (S k) st, S k), backoff env config k 1).
Proof.
  intros Hk Hfail Hok. unfold retry.ExecuteWithRetry.
  rewrite retryLoop_first_success with (k := k); try lia.
  - rewrite stateAfter_counted. reflexivity.
  - intros i Hi. rewrite stateAfter_counted, counted_fst. now apply Hfail.
  - now rewrite stateAfter_counted, counted_fst.
Qed.

Lemma X1_success_after_failures_witness :
  retry.ExecuteWithRetry demoEnv "ping"
    (counted (fun n : nat =>
                (if (n <? 2)%nat then Some connRefused else None, S n)))
    retry.DefaultRetryConfig (0%nat, 0%nat) =
  (None,
   (stateAfter
      (fun n : nat =>
         (if (n <? 2)%nat then Some connRefused else None, S n)) 3 0%nat,
    3%nat),
   backoff demoEnv retry.DefaultRetryConfig 2 1).
Proof.
  apply (X1_success_after_failures demoEnv "ping"
           (fun n : nat =>
              (if (n <? 2)%nat then Some connRefused else None, S n))
           retry.DefaultRetryConfig 0%nat 2).
  - vm_compute. reflexivity.
  - intros i Hi. destruct i as [|[|i]]; [discriminate|discriminate|lia].
  - reflexivity.
Defined.

(** X2.  With a policy whose [MaxAttempts] is zero or negative the
    operation function is never invoked and nothing is slept, yet the
    executor reports a failure: an error that wraps no cause, whose text
    ends in the rendering of a nil error. *)
Theorem X2_no_attempts_policy {St : Type} (env : Env) (operation : string)
    (fn : retry.RetryableFunc St) (config : retry.RetryConfig) (st : St) :
  retry.MaxAttempts config <= 0 ->
  retry.ExecuteWithRetry env operation (counted fn) config (st, 0%nat) =
  (Some (ErrRetry operation (retry.MaxAttempts config) None),
   (st, 0%nat), [])
  /\ Unwrap (ErrRetry operation (retry.MaxAttempts config) None) = None
  /\ Error (ErrRetry operation (retry.MaxAttempts config) None) =
     "operation '" ++ operation ++ "' failed after "
     ++ itoa (retry.MaxAttempts config) ++ " attempts: %!w(<nil>)".
Proof.
  intros Hmax. unfold retry.ExecuteWithRetry.
  replace (Z.to_nat (retry.MaxAttempts config)) with 0%nat by lia.
  repeat split.
Qed.

Lemma X2_no_attempts_policy_witness :
  retry.ExecuteWithRetry demoEnv "ping"
    (counted (fun s : unit => (None, s)))
    {| retry.MaxAttempts := 0; retry.BaseDelay := 100 * Millisecond;
       retry.MaxDelay := 2 * Second |} (tt, 0%nat) =
  (Some (ErrRetry "ping" 0 None), (tt, 0%nat), [])
  /\ Unwrap (ErrRetry "ping" 0 None) = None
  /\ Error (ErrRetry "ping" 0 None) =
     "operation '" ++ "ping" ++ "' failed after "
     ++ itoa 0 ++ " attempts: %!w(<nil>)".
Proof.
  apply (X2_no_attempts_policy demoEnv "ping" (fun s : unit => (None, s))
           {| retry.MaxAttempts := 0; retry.BaseDelay := 100 * Millisecond;
              retry.MaxDelay := 2 * Second |} tt).
  vm_compute. discriminate.
Defined.

(** X3.  Whatever the operation function does, one run of the executor
    invokes it at most [MaxAttempts] times (not at all for a policy
    without attempts), sleeps once between two consecutive invocations
    and never after the last one, stops before [MaxAttempts] invocations
    only on a success, and reports an error only after all of them. *)
Theorem X3_attempts_are_bounded {St : Type} (env : Env)
    (operation : string) (fn : retry.RetryableFunc St)
    (config : retry.RetryConfig) (st : St) :
  match retry.ExecuteWithRetry env operation (counted fn) config
          (st, 0%nat) with
  | (err, (_, n), naps) =>
      (n <= Z.to_nat (retry.MaxAttempts config))%nat
      /\ List.length naps = (n - 1)%nat
      /\ (err = None -> (1 <= n)%nat)
      /\ (err <> None -> n = Z.to_nat (retry.MaxAttempts config))
  end.
Proof.
  unfold retry.ExecuteWithRetry.
  destruct (Z_le_gt_dec (retry.MaxAttempts config) 0) as [Hle|Hgt].
  - replace (Z.to_nat (retry.MaxAttempts config)) with 0%nat by lia.
    cbn [retry.retryLoop List.length]. repeat split; try lia. congruence.
  - pose proof (retryLoop_counted_shape env operation fn config
                  (Z.to_nat (retry.MaxAttempts config)) 1 None st 0%nat []
                  ltac:(lia)) as Hshape.
    destruct (retry.retryLoop env operation (counted fn) config
                (Z.to_nat (retry.MaxAttempts config)) 1 None (st, 0%nat) [])
      as [[[e|] [st' n]] naps]; cbn [List.length] in Hshape;
      destruct Hshape as [Hn Hl]; repeat split; try lia; congruence.
Qed.

(** X4.  The backoff delay never exceeds [maxDelay], for every attempt
    number, base delay and platform; and where the product is exact (base
    delay non-negative and below [2^53], product within a 64-bit duration)
    it does not decrease from one attempt to a later one and is not
    negative when [maxDelay] is not. *)
Theorem X4_delay_capped_and_monotone (env : Env) :
  (forall attempt base maxd,
     retry.calculateDelay env attempt base maxd <= maxd)
  /\ (forall a a' base maxd,
        1 <= a <= a' -> a' - 1 < 1024 ->
        0 <= base < 2 ^ 53 ->
        base * 2 ^ (a' - 1) <= retry.maxInt64 ->
        retry.calculateDelay env a base maxd
        <= retry.calculateDelay env a' base maxd
        /\ (0 <= maxd -> 0 <= retry.calculateDelay env a base maxd)).
Proof.
  split.
  - intros attempt base maxd. unfold retry.calculateDelay.
    destruct (Z.gtb_spec
                (retry.scaleToDuration env (retry.float64OfInt base)
                   (retry.wrapInt (attempt - 1))) maxd); lia.
  - intros a a' base maxd Ha Hn Hb Hfit.
    assert (0 < 2 ^ (a - 1)) as Hpos by (apply Z.pow_pos_nonneg; lia).
    assert (2 ^ (a - 1) <= 2 ^ (a' - 1)) as Hpow
      by (apply Z.pow_le_mono_r; lia).
    assert (base * 2 ^ (a - 1) <= base * 2 ^ (a' - 1)) as Hle
      by (apply Z.mul_le_mono_nonneg_l; lia).
    rewrite !calculateDelay_exact by lia.
    split; [lia|]. intros Hmax.
    assert (0 <= base * 2 ^ (a - 1)) by (apply Z.mul_nonneg_nonneg; lia).
    lia.
Qed.

Lemma X4_delay_capped_and_monotone_witness :
  retry.calculateDelay demoEnv 2 (100 * Millisecond) (2 * Second)
  <= retry.calculateDelay demoEnv 9 (100 * Millisecond) (2 * Second)
  /\ (0 <= 2 * Second ->
      0 <= retry.calculateDelay demoEnv 2 (100 * Millisecond) (2 * Second)).
Proof.
  apply (proj2 (X4_delay_capped_and_monotone demoEnv) 2 9
           (100 * Millisecond) (2 * Second)).
  - lia.
  - lia.
  - vm_compute. split; [discriminate | reflexivity].
  - vm_compute. discriminate.
Defined.

(** X5.  Once the doubled base delay no longer fits a 64-bit duration
    (or the power of two is no longer a finite float) the delay is
    whatever the platform's float-to-integer conversion gives, still
    capped by [maxDelay] from above: nothing keeps it from being
    negative. *)
Theorem X5_delay_past_int64 (env : Env) a base maxd :
  1 <= a <= retry.maxInt64 ->
  0 <= base < 2 ^ 53 ->
  1024 <= a - 1 \/ retry.maxInt64 < base * 2 ^ (a - 1) ->
  retry.calculateDelay env a base maxd =
  Z.min (ConvOutOfRange env base (a - 1)) maxd.
Proof.
  intros Ha Hb Hover. unfold retry.calculateDelay.
  rewrite float64OfInt_exact by (rewrite Z.abs_eq; lia).
  rewrite wrapInt_small
    by (unfold retry.minInt64, retry.maxInt64 in *; lia).
  unfold retry.scaleToDuration.
  destruct (1024 <=? a - 1) eqn:Hbig.
  - destruct (Z.gtb_spec (ConvOutOfRange env base (a - 1)) maxd); lia.
  - apply Z.leb_gt in Hbig. destruct Hover as [Hover|Hover]; [lia|].
    replace (0 <=? a - 1) with true by (symmetry; apply Z.leb_le; lia).
    replace (base * 2 ^ (a - 1) <=? retry.maxInt64) with false
      by (symmetry; apply Z.leb_gt; lia).
    rewrite andb_false_r.
    destruct (Z.gtb_spec (ConvOutOfRange env base (a - 1)) maxd); lia.
Qed.

Lemma X5_delay_past_int64_witness :
  retry.calculateDelay demoEnv 38 (100 * Millisecond) (2 * Second) =
  Z.min (ConvOutOfRange demoEnv (100 * Millisecond) (38 - 1)) (2 * Second).
Proof.
  apply (X5_delay_past_int64 demoEnv 38 (100 * Millisecond) (2 * Second)).
  - vm_compute. split; discriminate.
  - vm_compute. split; [discriminate | reflexivity].
  - right. vm_compute. reflexivity.
Defined.

(* ================================================================= *)
(** ** More about the data-access layer *)

(** One run under the default policy, measured by a counter [m] that
    every invocation of [fn] advances by one to [b], with a property [P]
    that every invocation keeps. *)
Lemma default_run_shape {St : Type} env operation
    (fn : retry.RetryableFunc St) (m : St -> nat) (P : St -> Prop)
    (b : nat) st :
  (forall s, P s ->
             (m s < m (snd (fn s)) <= m s + b)%nat /\ P (snd (fn s))) ->
  P st ->
  match retry.ExecuteWithRetry env operation fn retry.DefaultRetryConfig st
  with
  | (err, st', naps) =>
      P st'
      /\ exists j : nat,
           (1 <= j <= 3)%nat
           /\ (m st + j <= m st' <= m st + j * b)%nat
           /\ naps = firstn (j - 1) [100 * Millisecond; 200 * Millisecond]
           /\ (err <> None -> j = 3%nat)
  end.
Proof.
  intros Hm Hst. rewrite ExecuteWithRetry_default.
  destruct (Hm st Hst) as [H1 P1].
  destruct (fn st) as [[e1|] s1]; cbn [snd] in H1, P1.
  - destruct (Hm s1 P1) as [H2 P2].
    destruct (fn s1) as [[e2|] s2]; cbn [snd] in H2, P2.
    + destruct (Hm s2 P2) as [H3 P3].
      destruct (fn s2) as [[e3|] s3]; cbn [snd] in H3, P3;
        (split; [assumption|]);
        exists 3%nat; repeat split; try lia; congruence.
    + split; [assumption|].
      exists 2%nat. repeat split; try lia; congruence.
  - split; [assumption|].
    exists 1%nat. repeat split; try lia; congruence.
Qed.

Lemma retriedRun_addSlept b w w1 naps j :
  (1 <= j <= 3)%nat ->
  (calls w + j <= calls w1 <= calls w + j * b)%nat ->
  slept w1 = slept w ->
  naps = firstn (j - 1) [100 * Millisecond; 200 * Millisecond] ->
  retriedRun b w (addSlept naps w1).
Proof.
  intros Hj Hc Hs ->. exists j. repeat split; try apply Hj; try apply Hc.
  cbn [slept addSlept]. now rewrite Hs.
Qed.

(** Every statement sent to the store is one round trip that leaves the
    sleep log alone; [Save] sends one or two. *)
Lemma Create_cost user w :
  calls (snd (gorm.Create user w)) = S (calls w)
  /\ slept (snd (gorm.Create user w)) = slept w.
Proof.
  unfold gorm.Create, gorm.roundTrip, gorm.insertRow.
  destruct (faults w) as [|[f|] fs]; cbv beta iota;
    repeat match goal with
           | |- context [if ?c then _ else _] => destruct c
           end; split; reflexivity.
Qed.

Lemma First_cost user id w :
  calls (snd (gorm.First user id w)) = S (calls w)
  /\ slept (snd (gorm.First user id w)) = slept w.
Proof.
  unfold gorm.First, gorm.roundTrip.
  destruct (faults w) as [|[f|] fs]; cbv beta iota;
    try destruct (gorm.firstByID _ _); split; reflexivity.
Qed.

Lemma WhereEmailFirst_cost user email w :
  calls (snd (gorm.WhereEmailFirst user email w)) = S (calls w)
  /\ slept (snd (gorm.WhereEmailFirst user email w)) = slept w.
Proof.
  unfold gorm.WhereEmailFirst, gorm.roundTrip.
  destruct (faults w) as [|[f|] fs]; cbv beta iota;
    try destruct (gorm.firstByID _ _); split; reflexivity.
Qed.

Lemma Delete_cost id w :
  calls (snd (gorm.Delete id w)) = S (calls w)
  /\ slept (snd (gorm.Delete id w)) = slept w.
Proof.
  unfold gorm.Delete, gorm.roundTrip.
  destruct (faults w) as [|[f|] fs]; split; reflexivity.
Qed.

Lemma Find_cost users w :
  calls (snd (gorm.Find users w)) = S (calls w)
  /\ slept (snd (gorm.Find users w)) = slept w.
Proof.
  unfold gorm.Find, gorm.roundTrip.
  destruct (faults w) as [|[f|] fs]; split; reflexivity.
Qed.

Lemma Save_cost user w :
  (calls w < calls (snd (gorm.Save user w)) <= calls w + 2)%nat
  /\ slept (snd (gorm.Save user w)) = slept w.
Proof.
  unfold gorm.Save.
  destruct (ID user =? 0).
  - destruct (Create_cost user w) as [-> ->]. split; [lia | reflexivity].
  - unfold gorm.roundTrip, gorm.insertRow.
    destruct (faults w) as [|[f|] fs] eqn:Hf; cbv beta iota;
      cbn [gorm.tick faults]; rewrite ?Hf; cbn [tl];
      try destruct fs as [|[f'|] fs']; cbv beta iota;
      repeat match goal with
             | |- context [if ?c then _ else _] => destruct c
             end; cbn [snd calls slept gorm.tick setRows]; split;
      first [lia | reflexivity].
Qed.

(** X6.  Every data-access operation runs under the default policy: it
    costs at least one and at most three attempts, each a single round
    trip to the store (one or two for an update, whose [Save] may fall
    back to an insertion), and between the attempts it sleeps 100 ms and
    then 200 ms, so never more than 300 ms in all. *)
Theorem X6_data_access_cost (env : Env) (w : World) :
  (forall user,
     retriedRun 1 w (snd (database.CreateUserWithRetry env user w)))
  /\ (forall email,
        retriedRun 1 w (snd (database.FindUserByEmailWithRetry env email w)))
  /\ (forall id,
        retriedRun 1 w (snd (database.FindUserByIDWithRetry env id w)))
  /\ (forall user,
        retriedRun 2 w (snd (database.UpdateUserWithRetry env user w)))
  /\ (forall id,
        retriedRun 1 w (snd (database.DeleteUserWithRetry env id w)))
  /\ retriedRun 1 w (snd (database.GetAllUsersWithRetry env w)).
Proof.
  split; [|split; [|split; [|split; [|split]]]].
  - intros user. unfold database.CreateUserWithRetry.
    match goal with
    | |- context [retry.ExecuteWithRetry env ?op ?fn _ ?st] =>
        pose proof (default_run_shape env op fn
                      (fun s => calls (snd s))
                      (fun s => slept (snd s) = slept w) 1 st) as Hrun;
        destruct (retry.ExecuteWithRetry env op fn _ st)
          as [[err [u' w']] naps]
    end.
    destruct Hrun as (Hs & j & Hj & Hc & Hn & _); [|reflexivity|].
    + intros [u0 w0] Hs0. cbn [snd] in *.
      destruct (Create_cost u0 w0) as [Hc Hs].
      destruct (gorm.Create u0 w0) as [[[e|] u1] w1]; cbn [snd] in *;
        try destruct (database.isUniqueViolation e); cbn [snd];
        (split; [lia | congruence]).
    + cbn [snd] in *. eapply retriedRun_addSlept; eauto.
  - intros email. unfold database.FindUserByEmailWithRetry.
    match goal with
    | |- context [retry.ExecuteWithRetry env ?op ?fn _ ?st] =>
        pose proof (default_run_shape env op fn
                      (fun s => calls (snd s))
                      (fun s => slept (snd s) = slept w) 1 st) as Hrun;
        destruct (retry.ExecuteWithRetry env op fn _ st)
          as [[err [u' w']] naps]
    end.
    destruct Hrun as (Hs & j & Hj & Hc & Hn & _); [|reflexivity|].
    + intros [u0 w0] Hs0. cbn [snd] in *.
      destruct (WhereEmailFirst_cost u0 email w0) as [Hc Hs].
      destruct (gorm.WhereEmailFirst u0 email w0) as [[[e|] u1] w1];
        cbn [snd] in *;
        try destruct (IsRecordNotFound e); cbn [snd];
        (split; [lia | congruence]).
    + cbn [snd] in *. destruct err; cbn [snd];
        eapply retriedRun_addSlept; eauto.
  - intros id. unfold database.FindUserByIDWithRetry.
    match goal with
    | |- context [retry.ExecuteWithRetry env ?op ?fn _ ?st] =>
        pose proof (default_run_shape env op fn
                      (fun s => calls (snd s))
                      (fun s => slept (snd s) = slept w) 1 st) as Hrun;
        destruct (retry.ExecuteWithRetry env op fn _ st)
          as [[err [u' w']] naps]
    end.
    destruct Hrun as (Hs & j & Hj & Hc & Hn & _); [|reflexivity|].
    + intros [u0 w0] Hs0. cbn [snd] in *.
      destruct (First_cost u0 id w0) as [Hc Hs].
      destruct (gorm.First u0 id w0) as [[[e|] u1] w1];
        cbn [snd] in *;
        try destruct (IsRecordNotFound e); cbn [snd];
        (split; [lia | congruence]).
    + cbn [snd] in *. destruct err; cbn [snd];
        eapply retriedRun_addSlept; eauto.
  - intros user. unfold database.UpdateUserWithRetry.
    match goal with
    | |- context [retry.ExecuteWithRetry env ?op ?fn _ ?st] =>
        pose proof (default_run_shape env op fn
                      (fun s => calls (snd s))
                      (fun s => slept (snd s) = slept w) 2 st) as Hrun;
        destruct (retry.ExecuteWithRetry env op fn _ st)
          as [[err [u' w']] naps]
    end.
    destruct Hrun as (Hs & j & Hj & Hc & Hn & _); [|reflexivity|].
    + intros [u0 w0] Hs0. cbn [snd] in *.
      destruct (Save_cost u0 w0) as [Hc Hs].
      destruct (gorm.Save u0 w0) as [[[e|] u1] w1]; cbn [snd] in *;
        try destruct (database.isUniqueViolation e); cbn [snd];
        (split; [lia | congruence]).
    + cbn [snd] in *. eapply retriedRun_addSlept; eauto.
  - intros id. unfold database.DeleteUserWithRetry.
    match goal with
    | |- context [retry.ExecuteWithRetry env ?op ?fn _ ?st] =>
        pose proof (default_run_shape env op fn calls
                      (fun s => slept s = slept w) 1 st) as Hrun;
        destruct (retry.ExecuteWithRetry env op fn _ st)
          as [[err w'] naps]
    end.
    destruct Hrun as (Hs & j & Hj & Hc & Hn & _); [|reflexivity|].
    + intros w0 Hs0. destruct (Delete_cost id w0) as [Hc Hs].
      split; [lia | congruence].
    + cbn [snd] in *. eapply retriedRun_addSlept; eauto.
  - unfold database.GetAllUsersWithRetry.
    match goal with
    | |- context [retry.ExecuteWithRetry env ?op ?fn _ ?st] =>
        pose proof (default_run_shape env op fn
                      (fun s => calls (snd s))
                      (fun s => slept (snd s) = slept w) 1 st) as Hrun;
        destruct (retry.ExecuteWithRetry env op fn _ st)
          as [[err [l' w']] naps]
    end.
    destruct Hrun as (Hs & j & Hj & Hc & Hn & _); [|reflexivity|].
    + intros [l0 w0] Hs0. cbn [snd] in *.
      destruct (Find_cost l0 w0) as [Hc Hs].
      destruct (gorm.Find l0 w0) as [[e l1] w1]; cbn [snd] in *.
      split; [lia | congruence].
    + cbn [snd] in *. destruct err; cbn [snd];
        eapply retriedRun_addSlept; eauto.
Qed.

Lemma First_fault user id w e fs :
  faults w = Some e :: fs ->
  gorm.First user id w = (Some e, user, gorm.tick w)
  /\ faults (gorm.tick w) = fs.
Proof.
  intros Hf. unfold gorm.First, gorm.roundTrip. rewrite Hf.
  split; [reflexivity|]. cbn [gorm.tick faults]. now rewrite Hf.
Qed.

Lemma First_clear user id w :
  hd None (faults w) = None ->
  gorm.First user id w =
  match gorm.firstByID (fun r => ID r =? id) (rows w) with
  | Some r => (None, r, gorm.tick w)
  | None => (Some ErrRecordNotFound, user, gorm.tick w)
  end.
Proof.
  intros Hf. unfold gorm.First, gorm.roundTrip.
  destruct (faults w) as [|[f|] fs]; cbn [hd] in Hf;
    try discriminate; cbv beta iota; cbn [gorm.tick rows];
    destruct (gorm.firstByID _ _); reflexivity.
Qed.

Lemma WhereEmailFirst_clear user email w :
  hd None (faults w) = None ->
  gorm.WhereEmailFirst user email w =
  match gorm.firstByID (fun r => String.eqb (Email r) email) (rows w) with
  | Some r => (None, r, gorm.tick w)
  | None => (Some ErrRecordNotFound, user, gorm.tick w)
  end.
Proof.
  intros Hf. unfold gorm.WhereEmailFirst, gorm.roundTrip.
  destruct (faults w) as [|[f|] fs]; cbn [hd] in Hf;
    try discriminate; cbv beta iota; cbn [gorm.tick rows];
    destruct (gorm.firstByID _ _); reflexivity.
Qed.

Lemma tick_no_faults w : faults w = [] -> faults (gorm.tick w) = [].
Proof. intros Hf. cbn [gorm.tick faults]. now rewrite Hf. Qed.

Lemma hd_no_faults w : faults w = [] -> hd None (faults w) = None.
Proof. now intros ->. Qed.

(** Lookups on a store that answers every round trip. *)
Lemma GetUser_clear env id w :
  faults w = [] ->
  match gorm.firstByID (fun r => ID r =? id) (rows w) with
  | Some u => fst (service.GetUser env id w) = inl u
  | None =>
      fst (service.GetUser env id w)
      = inr (ErrRetry "find_user_by_id" 3 (Some ErrRecordNotFound))
  end.
Proof.
  intros Hf. unfold service.GetUser, database.FindUserByIDWithRetry.
  rewrite ExecuteWithRetry_default. cbv beta iota.
  rewrite First_clear by now apply hd_no_faults.
  destruct (gorm.firstByID _ (rows w)) as [u|] eqn:Hrow; [reflexivity|].
  cbn [IsRecordNotFound]. cbv beta iota.
  rewrite First_clear by (apply hd_no_faults; now apply tick_no_faults).
  cbn [gorm.tick rows]. rewrite Hrow.
  cbn [IsRecordNotFound]. cbv beta iota.
  rewrite First_clear
    by (apply hd_no_faults; do 2 apply tick_no_faults; exact Hf).
  cbn [gorm.tick rows]. rewrite Hrow. reflexivity.
Qed.

Lemma GetUserByEmail_clear env email w :
  faults w = [] ->
  match gorm.firstByID (fun r => String.eqb (Email r) email) (rows w) with
  | Some u => fst (service.GetUserByEmail env email w) = inl u
  | None =>
      fst (service.GetUserByEmail env email w)
      = inr (ErrRetry "find_user_by_email" 3 (Some ErrRecordNotFound))
  end.
Proof.
  intros Hf.
  unfold service.GetUserByEmail, database.FindUserByEmailWithRetry.
  rewrite ExecuteWithRetry_default. cbv beta iota.
  rewrite WhereEmailFirst_clear by now apply hd_no_faults.
  destruct (gorm.firstByID _ (rows w)) as [u|] eqn:Hrow; [reflexivity|].
  cbn [IsRecordNotFound]. cbv beta iota.
  rewrite WhereEmailFirst_clear
    by (apply hd_no_faults; now apply tick_no_faults).
  cbn [gorm.tick rows]. rewrite Hrow.
  cbn [IsRecordNotFound]. cbv beta iota.
  rewrite WhereEmailFirst_clear
    by (apply hd_no_faults; do 2 apply tick_no_faults; exact Hf).
  cbn [gorm.tick rows]. rewrite Hrow. reflexivity.
Qed.

(** X7.  A lookup by identifier or by email never changes the table,
    whatever faults the store meets; the user it returns is the stored
    row with that key, and without such a row it returns an error.  When
    the store answers every round trip, the lookup (by an identifier
    below [2^63], the range of the key column, or by an email) returns
    the row if there is one and otherwise an error that, though wrapped
    by the retry executor, is still recognised as record-not-found along
    the chain of wrapped errors. *)
Theorem X7_lookup_returns_stored_row (env : Env) (w : World) :
  (forall id,
     let res := service.GetUser env id w in
     let row := gorm.firstByID (fun r => ID r =? id) (rows w) in
     sameStore w (snd res)
     /\ (forall u, fst res = inl u -> row = Some u)
     /\ (row = None -> exists e, fst res = inr e)
     /\ (faults w = [] -> 0 <= id < 2 ^ 63 ->
         match row with
         | Some u => fst res = inl u
         | None =>
             exists e, fst res = inr e
                       /\ IsRecordNotFound e = true
                       /\ Unwrap e = Some ErrRecordNotFound
         end))
  /\ (forall email,
        let res := service.GetUserByEmail env email w in
        let row :=
          gorm.firstByID (fun r => String.eqb (Email r) email) (rows w) in
        sameStore w (snd res)
        /\ (forall u, fst res = inl u -> row = Some u)
        /\ (row = None -> exists e, fst res = inr e)
        /\ (faults w = [] ->
            match row with
            | Some u => fst res = inl u
            | None =>
                exists e, fst res = inr e
                          /\ IsRecordNotFound e = true
                          /\ Unwrap e = Some ErrRecordNotFound
            end)).
Proof.
  split.
  - intros id. cbv zeta. unfold service.GetUser.
    pose proof (FindUserByIDWithRetry_spec env id w) as Hspec.
    split; [|split; [|split]].
    + destruct (database.FindUserByIDWithRetry env id w) as [[u|e] w'];
        apply Hspec.
    + intros u Hu.
      destruct (database.FindUserByIDWithRetry env id w) as [[u'|e] w'];
        cbn [fst] in Hu; [|discriminate].
      injection Hu as ->. apply Hspec.
    + intros Hnone.
      destruct (database.FindUserByIDWithRetry env id w) as [[u'|e] w'];
        cbn [fst]; [|eauto].
      destruct Hspec as [_ Hrow]. congruence.
    + intros Hf _. clear Hspec.
      pose proof (GetUser_clear env id w Hf) as Hc.
      unfold service.GetUser in Hc.
      destruct (gorm.firstByID _ (rows w)) as [u|]; [exact Hc|].
      rewrite Hc. eexists. repeat split.
  - intros email. cbv zeta. unfold service.GetUserByEmail.
    pose proof (FindUserByEmailWithRetry_spec env email w) as Hspec.
    split; [|split; [|split]].
    + destruct (database.FindUserByEmailWithRetry env email w)
        as [[u|e] w']; apply Hspec.
    + intros u Hu.
      destruct (database.FindUserByEmailWithRetry env email w)
        as [[u'|e] w']; cbn [fst] in Hu; [|discriminate].
      injection Hu as ->. apply Hspec.
    + intros Hnone.
      destruct (database.FindUserByEmailWithRetry env email w)
        as [[u'|e] w']; cbn [fst]; [|eauto].
      destruct Hspec as [_ Hrow]. congruence.
    + intros Hf. clear Hspec.
      pose proof (GetUserByEmail_clear env email w Hf) as Hc.
      unfold service.GetUserByEmail in Hc.
      destruct (gorm.firstByID _ (rows w)) as [u|]; [exact Hc|].
      rewrite Hc. eexists. repeat split.
Qed.

Lemma X7_lookup_returns_stored_row_witness :
  match gorm.firstByID (fun r => ID r =? 1) (rows annWorld) with
  | Some u => fst (service.GetUser demoEnv 1 annWorld) = inl u
  | None =>
      exists e, fst (service.GetUser demoEnv 1 annWorld) = inr e
                /\ IsRecordNotFound e = true
                /\ Unwrap e = Some ErrRecordNotFound
  end.
Proof.
  apply (proj1 (X7_lookup_returns_stored_row demoEnv annWorld) 1).
  - vm_compute. reflexivity.
  - vm_compute. split; [discriminate | reflexivity].
Defined.

(** X8.  The retry does mask transient failures of a lookup: when the
    user exists and the store fails at most two round trips in a row
    before it answers, [GetUser] returns the user, having made one round
    trip more than there were failures and slept the backoff delays in
    between; after three failures in a row it gives up and returns the
    third failure wrapped, although the user exists.  The table is
    unchanged either way. *)
Theorem X8_transient_faults_masked (env : Env) id w u es rest :
  gorm.firstByID (fun r => ID r =? id) (rows w) = Some u ->
  faults w = (map Some es ++ rest)%list ->
  ((List.length es <= 2)%nat -> hd None rest = None ->
   exists w',
     service.GetUser env id w = (inl u, w')
     /\ calls w' = (calls w + S (List.length es))%nat
     /\ slept w' =
        (slept w
         ++ firstn (List.length es)
              [100 * Millisecond; 200 * Millisecond])%list
     /\ rows w' = rows w)
  /\ (forall e1 e2 e3,
        es = [e1; e2; e3] ->
        fst (service.GetUser env id w)
        = inr (ErrRetry "find_user_by_id" 3 (Some e3))
        /\ rows (snd (service.GetUser env id w)) = rows w).
Proof.
  intros Hrow Hf. split.
  - intros Hlen Hrest.
    unfold service.GetUser, database.FindUserByIDWithRetry.
    rewrite ExecuteWithRetry_default. cbv beta iota.
    destruct es as [|e1 [|e2 [|e3 es']]]; cbn [List.length] in Hlen;
      [| | |lia]; cbn [map app] in Hf.
    + rewrite First_clear by (rewrite Hf; exact Hrest).
      rewrite Hrow. eexists. split; [reflexivity|].
      cbn [calls slept rows addSlept gorm.tick List.length firstn].
      repeat split; lia.
    + destruct (First_fault zeroUser id w e1 rest Hf) as [-> Hf1].
      destruct (IsRecordNotFound e1); cbv beta iota.
      all: rewrite First_clear by (rewrite Hf1; exact Hrest).
      all: cbn [gorm.tick rows]; rewrite Hrow.
      all: eexists; split; [reflexivity|].
      all: cbn [calls slept rows addSlept gorm.tick List.length firstn].
      all: repeat split; lia.
    + destruct (First_fault zeroUser id w e1 _ Hf) as [-> Hf1].
      destruct (IsRecordNotFound e1); cbv beta iota.
      all: destruct (First_fault zeroUser id (gorm.tick w) e2 _ Hf1)
             as [-> Hf2].
      all: destruct (IsRecordNotFound e2); cbv beta iota.
      all: rewrite First_clear by (rewrite Hf2; exact Hrest).
      all: cbn [gorm.tick rows]; rewrite Hrow.
      all: eexists; split; [reflexivity|].
      all: cbn [calls slept rows addSlept gorm.tick List.length firstn].
      all: repeat split; lia.
  - intros e1 e2 e3 ->. cbn [map app] in Hf.
    unfold service.GetUser, database.FindUserByIDWithRetry.
    rewrite ExecuteWithRetry_default. cbv beta iota.
    destruct (First_fault zeroUser id w e1 _ Hf) as [-> Hf1].
    destruct (IsRecordNotFound e1); cbv beta iota.
    all: destruct (First_fault zeroUser id (gorm.tick w) e2 _ Hf1)
           as [-> Hf2].
    all: destruct (IsRecordNotFound e2); cbv beta iota.
    all: destruct (First_fault zeroUser id (gorm.tick (gorm.tick w)) e3 _
                     Hf2) as [-> Hf3].
    all: destruct (IsRecordNotFound e3); cbv beta iota.
    all: split; reflexivity.
Qed.

Lemma X8_transient_faults_masked_witness :
  exists w',
    service.GetUser demoEnv 1
      (setFaults [Some connRefused; Some connRefused] annWorld)
    = (inl annRow, w')
    /\ calls w' =
       (calls (setFaults [Some connRefused; Some connRefused] annWorld)
        + S (List.length [connRefused; connRefused]))%nat
    /\ slept w' =
       (slept (setFaults [Some connRefused; Some connRefused] annWorld)
        ++ firstn (List.length [connRefused; connRefused])
             [100 * Millisecond; 200 * Millisecond])%list
    /\ rows w' =
       rows (setFaults [Some connRefused; Some connRefused] annWorld).
Proof.
  apply (proj1 (X8_transient_faults_masked demoEnv 1
                  (setFaults [Some connRefused; Some connRefused] annWorld)
                  annRow [connRefused; connRefused] []
                  ltac:(vm_compute; reflexivity) eq_refl)).
  - cbn. lia.
  - reflexivity.
Defined.

(* ================================================================= *)
(** ** More about the service layer: creation *)

Lemma stamp_Name t u : Name (gorm.stamp t u) = Name u.
Proof.
  unfold gorm.stamp.
  destruct (CreatedAt u =? 0); cbn [UpdatedAt setCreatedAt];
    destruct (UpdatedAt u =? 0); reflexivity.
Qed.

Lemma stamp_Password t u : Password (gorm.stamp t u) = Password u.
Proof.
  unfold gorm.stamp.
  destruct (CreatedAt u =? 0); cbn [UpdatedAt setCreatedAt];
    destruct (UpdatedAt u =? 0); reflexivity.
Qed.

Lemma emailTaken_false email except tbl r :
  gorm.emailTaken email except tbl = false ->
  In r tbl -> ID r <> except -> Email r <> email.
Proof.
  intros Hfree Hin Hid Hmail.
  rewrite (emailTaken_intro email except tbl r Hin Hmail Hid) in Hfree.
  discriminate.
Qed.

Lemma idTaken_intro id tbl r :
  In r tbl -> ID r = id -> gorm.idTaken id tbl = true.
Proof.
  intros Hin Hid. unfold gorm.idTaken. apply existsb_exists.
  exists r. split; [assumption | now apply Z.eqb_eq].
Qed.

Lemma idTaken_free id tbl :
  (forall r, In r tbl -> ID r <> id) -> gorm.idTaken id tbl = false.
Proof.
  intros Hfree. destruct (gorm.idTaken id tbl) eqn:Ht; [|reflexivity].
  unfold gorm.idTaken in Ht. apply existsb_exists in Ht.
  destruct Ht as (r & Hin & Hid). apply Z.eqb_eq in Hid.
  now destruct (Hfree r Hin).
Qed.

Lemma emailTaken_free email except tbl :
  (forall r, In r tbl -> Email r <> email) ->
  gorm.emailTaken email except tbl = false.
Proof.
  intros Hfree.
  destruct (gorm.emailTaken email except tbl) eqn:Ht; [|reflexivity].
  unfold gorm.emailTaken in Ht. apply existsb_exists in Ht.
  destruct Ht as (r & Hin & Hm). apply andb_prop in Hm.
  destruct Hm as [Hm _]. apply String.eqb_eq in Hm.
  now destruct (Hfree r Hin).
Qed.

Section CreationFacts.
Variable env : Env.

(** What a creation through the retry executor leaves, for a value whose
    identifier is still to be drawn. *)
Lemma CreateUserWithRetry_result user w :
  ID user = 0 ->
  match database.CreateUserWithRetry env user w with
  | (None, u', w') =>
      sameInput u' user
      /\ ID u' = seq w' /\ seq w < seq w'
      /\ rows w' = (rows w ++ [u'])%list
      /\ hashed w' = hashed w
      /\ gorm.idTaken (ID u') (rows w) = false
      /\ gorm.emailTaken (Email u') (ID u') (rows w) = false
  | (Some _, _, w') =>
      rows w' = rows w /\ seq w <= seq w' /\ hashed w' = hashed w
  end.
Proof.
  intros Hid. unfold database.CreateUserWithRetry.
  destruct (retry.ExecuteWithRetry _ _ _ _ _)
    as [[err [u' w']] naps] eqn:Hrun.
  apply ExecuteWithRetry_inv_eq with
    (I := fun s => ID (fst s) = 0 /\ sameInput (fst s) user
                   /\ rows (snd s) = rows w /\ seq w <= seq (snd s)
                   /\ hashed (snd s) = hashed w)
    (Q := fun s => sameInput (fst s) user
                   /\ ID (fst s) = seq (snd s) /\ seq w < seq (snd s)
                   /\ rows (snd s) = (rows w ++ [fst s])%list
                   /\ hashed (snd s) = hashed w
                   /\ gorm.idTaken (ID (fst s)) (rows w) = false
                   /\ gorm.emailTaken (Email (fst s)) (ID (fst s)) (rows w)
                      = false) in Hrun.
  - destruct err; cbn [fst snd] in Hrun; [|exact Hrun].
    destruct Hrun as (_ & _ & Hr & Hs & Hh). repeat split; assumption.
  - intros [u0 w0] (Hid0 & (Hn & Hm & Hp) & Hr & Hs & Hh).
    cbn [fst snd] in *.
    unfold gorm.Create, gorm.roundTrip.
    assert (sameInput (gorm.stamp (now w0) u0) user) as Hsame
      by (unfold sameInput;
          rewrite stamp_Name, stamp_Email, stamp_Password; auto).
    destruct (faults w0) as [|[f|] fs]; cbv beta iota;
      rewrite ?stamp_ID, ?Hid0; cbn [Z.eqb].
    2:{ destruct (database.isUniqueViolation f); cbn [fst snd];
          rewrite stamp_ID; repeat split; try apply Hsame; assumption. }
    all: unfold gorm.insertRow;
      cbn [ID Email setID rows seq setSeq gorm.tick];
      destruct (gorm.idTaken (seq w0 + 1) (rows w0)) eqn:Hpk;
      [|destruct (gorm.emailTaken (Email (gorm.stamp (now w0) u0))
                    (seq w0 + 1) (rows w0)) eqn:Hem];
      cbv beta iota;
      try (destruct (database.isUniqueViolation _));
      cbn [fst snd ID Name Email Password setID rows seq hashed setSeq
           setRows gorm.tick];
      rewrite ?stamp_ID, ?Hr in *;
      repeat split; try apply Hsame; try assumption; try lia;
      try reflexivity.
  - cbn [fst snd]. repeat split; try assumption; lia.
Qed.

Lemma storeOK_next_id_free w :
  storeOK w -> gorm.idTaken (seq w + 1) (rows w) = false.
Proof.
  intros (_ & Hrows & _). apply idTaken_free. intros r Hin.
  rewrite Forall_forall in Hrows. specialize (Hrows r Hin). lia.
Qed.

Lemma CreateUserWithRetry_ok user w :
  ID user = 0 -> faults w = [] ->
  gorm.idTaken (seq w + 1) (rows w) = false ->
  (forall r, In r (rows w) -> Email r <> Email user) ->
  exists u' w', database.CreateUserWithRetry env user w = (None, u', w').
Proof.
  intros Hid Hf Hpk Hfree.
  unfold database.CreateUserWithRetry.
  rewrite ExecuteWithRetry_default. cbv beta iota.
  unfold gorm.Create, gorm.roundTrip. rewrite Hf. cbv beta iota.
  rewrite stamp_ID, Hid. cbn [Z.eqb].
  unfold gorm.insertRow. cbn [ID Email setID rows seq setSeq gorm.tick].
  rewrite Hpk, stamp_Email, (emailTaken_free _ _ _ Hfree).
  eexists _, _. reflexivity.
Qed.
End CreationFacts.

(** What [CreateUser] returns and leaves. *)
Lemma CreateUser_result (env : Env) name email password w :
  match service.CreateUser env name email password w with
  | (inl u, w') =>
      rows w' = (rows w ++ [u])%list
      /\ Name u = name /\ Email u = email
      /\ GenerateFromPassword env password = inl (Password u)
      /\ ID u = seq w' /\ seq w < ID u
      /\ hashed w' = S (hashed w)
      /\ (forall r, In r (rows w) -> ID r <> ID u /\ Email r <> email)
  | (inr _, w') => rows w' = rows w /\ seq w <= seq w'
  end.
Proof.
  unfold service.CreateUser.
  destruct (GenerateFromPassword env password) as [h|eh];
    [|split; [reflexivity | cbn [seq addHashed]; lia]].
  set (user := {| ID := 0; Name := name; Email := email; Password := h;
                  CreatedAt := 0; UpdatedAt := 0 |}).
  pose proof (CreateUserWithRetry_result env user (addHashed w) eq_refl)
    as Hres.
  destruct (database.CreateUserWithRetry env user (addHashed w))
    as [[[e|] u] w']; [split; apply Hres|].
  destruct Hres as ((Hn & Hm & Hp) & Hi & Hs & Hr & Hh & Hpk & Hem).
  cbn [rows seq hashed addHashed Name Email Password user] in *.
  repeat split; try assumption; try lia; try congruence.
  - eauto using idTaken_false.
  - rewrite <- Hm. apply (emailTaken_false _ _ _ r Hem H).
    eauto using idTaken_false.
Qed.

Lemma CreateUser_ok (env : Env) name email password w h :
  storeOK w -> faults w = [] ->
  GenerateFromPassword env password = inl h ->
  (forall r, In r (rows w) -> Email r <> email) ->
  exists u w', service.CreateUser env name email password w = (inl u, w').
Proof.
  intros Hok Hf Hh Hfree. unfold service.CreateUser. rewrite Hh.
  destruct (CreateUserWithRetry_ok env
              {| ID := 0; Name := name; Email := email; Password := h;
                 CreatedAt := 0; UpdatedAt := 0 |} (addHashed w) eq_refl Hf
              (storeOK_next_id_free w Hok) Hfree) as (u' & w' & ->).
  eauto.
Qed.

(** X9.  [CreateUser], whatever faults the store meets: when it succeeds
    the table has grown by exactly the row returned, placed last, which
    carries the name and email given and the digest of the password, and
    whose identifier is the value just drawn from the sequence, above the
    previous one; no row already had that identifier or that email; one
    digest was computed.  On a store that answers every round trip, so
    that a failure is one the store or the hashing reports, a failed
    creation leaves the table unchanged, and the creation does succeed on
    a well-formed table that holds no row with the email when the digest
    is computed. *)
Theorem X9_create_postcondition (env : Env) name email password w :
  (forall u w',
     service.CreateUser env name email password w = (inl u, w') ->
     rows w' = (rows w ++ [u])%list
     /\ Name u = name /\ Email u = email
     /\ GenerateFromPassword env password = inl (Password u)
     /\ ID u = seq w' /\ seq w < ID u
     /\ hashed w' = S (hashed w)
     /\ (forall r, In r (rows w) -> ID r <> ID u /\ Email r <> email))
  /\ (faults w = [] ->
      forall e w',
        service.CreateUser env name email password w = (inr e, w') ->
        rows w' = rows w)
  /\ (storeOK w -> faults w = [] ->
      (exists h, GenerateFromPassword env password = inl h) ->
      (forall r, In r (rows w) -> Email r <> email) ->
      exists u w',
        service.CreateUser env name email password w = (inl u, w')).
Proof.
  pose proof (CreateUser_result env name email password w) as Hres.
  split; [|split].
  - intros u w' Hrun. rewrite Hrun in Hres. exact Hres.
  - intros _ e w' Hrun. rewrite Hrun in Hres. apply Hres.
  - intros Hok Hf [h Hh] Hfree.
    now apply CreateUser_ok with (h := h).
Qed.

Lemma X9_create_postcondition_witness :
  exists u w',
    service.CreateUser demoEnv "Ann" "ann@x.com" "secret1" emptyWorld
    = (inl u, w').
Proof.
  apply (proj2 (proj2 (X9_create_postcondition demoEnv "Ann" "ann@x.com"
                         "secret1" emptyWorld))).
  - repeat split; try constructor. vm_compute. discriminate.
  - reflexivity.
  - eexists. vm_compute. reflexivity.
  - intros r [].
Defined.

(** After a successful creation the new row is the one its identifier
    and its email select. *)
Lemma created_user_rows (env : Env) name email password w u w' :
  service.CreateUser env name email password w = (inl u, w') ->
  gorm.firstByID (fun r => ID r =? ID u) (rows w') = Some u
  /\ gorm.firstByID (fun r => String.eqb (Email r) email) (rows w')
     = Some u.
Proof.
  intros Hrun.
  pose proof (CreateUser_result env name email password w) as Hres.
  rewrite Hrun in Hres.
  destruct Hres as (Hrows & _ & Hmail & _ & _ & _ & _ & Hfresh).
  rewrite Hrows. split; apply firstByID_unique.
  - intros r Hin Hp. apply Z.eqb_eq in Hp. apply in_app_or in Hin.
    destruct Hin as [Hin|[<-|[]]]; [|reflexivity].
    now destruct (proj1 (Hfresh r Hin)).
  - exists u. split; [apply in_or_app; right; now left|].
    apply Z.eqb_refl.
  - intros r Hin Hp. apply String.eqb_eq in Hp. apply in_app_or in Hin.
    destruct Hin as [Hin|[<-|[]]]; [|reflexivity].
    now destruct (proj2 (Hfresh r Hin)).
  - exists u. split; [apply in_or_app; right; now left|].
    rewrite Hmail. apply String.eqb_refl.
Qed.

(** X10.  Insert and look up: after [CreateUser] has succeeded, on any
    state that holds the table it left and whose store answers, [GetUser]
    with the identifier returned and [GetUserByEmail] with the email given
    both return exactly the user that was returned by the creation. *)
Theorem X10_created_user_is_found (env : Env) name email password w u w' :
  service.CreateUser env name email password w = (inl u, w') ->
  forall w2,
    rows w2 = rows w' -> faults w2 = [] ->
    fst (service.GetUser env (ID u) w2) = inl u
    /\ fst (service.GetUserByEmail env email w2) = inl u.
Proof.
  intros Hrun w2 Hrows Hf.
  destruct (created_user_rows env name email password w u w' Hrun)
    as [Hid Hmail].
  pose proof (GetUser_clear env (ID u) w2 Hf) as H1.
  pose proof (GetUserByEmail_clear env email w2 Hf) as H2.
  rewrite Hrows, Hid in H1. rewrite Hrows, Hmail in H2. now split.
Qed.

Lemma X10_created_user_is_found_witness :
  fst (service.GetUser demoEnv (ID annRow) annWorld) = inl annRow
  /\ fst (service.GetUserByEmail demoEnv "ann@x.com" annWorld) = inl annRow.
Proof.
  apply (X10_created_user_is_found demoEnv "Ann" "ann@x.com" "secret1"
           emptyWorld annRow annWorld).
  - vm_compute. reflexivity.
  - reflexivity.
  - reflexivity.
Defined.

Lemma validateSignup_validateLogin env req :
  api.validateSignup env req = [] ->
  api.validateLogin env
    {| Login_Email := Signup_Email req;
       Login_Password := Signup_Password req |} = [].
Proof.
  intros Hnil. unfold api.validateSignup in Hnil.
  apply app_eq_nil in Hnil. destruct Hnil as [_ Hrest].
  apply app_eq_nil in Hrest. destruct Hrest as [Hmail Hpw].
  unfold api.validateLogin. cbn [Login_Email Login_Password].
  destruct (String.eqb (Signup_Email req) ""); [discriminate|].
  destruct (negb (IsEmail env (Signup_Email req))); [discriminate|].
  destruct (String.eqb (Signup_Password req) ""); [discriminate|].
  reflexivity.
Qed.

(** X11.  Sign up, then log in: when a signup has been answered 201, the
    digest check accepts the password a digest was made from and the
    signer issues tokens, a login with the same email and password, on any
    state that holds the table the signup left and whose store answers,
    is answered 200 with the very user the signup returned. *)
Theorem X11_signup_then_login (env : Env) req w r w' :
  api.Signup env (api.Decoded req) w = (r, w') ->
  api.Status r = api.StatusCreated ->
  (forall h, GenerateFromPassword env (Signup_Password req) = inl h ->
             CompareHashAndPassword env h (Signup_Password req) = None) ->
  (forall uid exp, exists token, SignedString env uid exp = inl token) ->
  forall w2,
    rows w2 = rows w' -> faults w2 = [] ->
    exists u token1 token2,
      r = api.JSON api.StatusCreated
            (api.HMessageUserToken "User created successfully" u token1)
      /\ Name u = Signup_Name req /\ Email u = Signup_Email req
      /\ fst (api.Login env
                (api.Decoded {| Login_Email := Signup_Email req;
                                Login_Password := Signup_Password req |})
                w2)
         = api.JSON api.StatusOK
             (api.HMessageUserToken "Login successful" u token2).
Proof.
  intros Hrun Hstatus Hbcrypt Hsigner w2 Hrows Hf.
  unfold api.Signup, api.ShouldBindJSON in Hrun.
  destruct (api.validateSignup env req) as [|m errs] eqn:Hvalid;
    [|injection Hrun as <- _; discriminate].
  destruct (service.CreateUser env (Signup_Name req) (Signup_Email req)
              (Signup_Password req) w) as [[u|e] w1] eqn:Hcreate.
  2:{ destruct (Contains (Error e) "duplicate key");
        injection Hrun as <- _; discriminate. }
  destruct (api.generateJWT env (ID u) w1) as [token1|e1];
    [|injection Hrun as <- _; discriminate].
  injection Hrun as <- <-.
  pose proof (CreateUser_result env (Signup_Name req) (Signup_Email req)
                (Signup_Password req) w) as Hres.
  rewrite Hcreate in Hres.
  destruct Hres as (_ & Hn & Hm & Hh & _).
  destruct (created_user_rows env _ _ _ w u w1 Hcreate) as [_ Hmail].
  pose proof (GetUserByEmail_clear env (Signup_Email req) w2 Hf) as Hlook.
  rewrite Hrows, Hmail in Hlook.
  unfold api.Login, api.ShouldBindJSON.
  rewrite (validateSignup_validateLogin env req Hvalid).
  cbn [Login_Email Login_Password].
  destruct (service.GetUserByEmail env (Signup_Email req) w2)
    as [found w3]. cbn [fst snd] in *. subst found.
  unfold service.ValidatePassword. rewrite (Hbcrypt _ Hh).
  unfold api.generateJWT.
  destruct (Hsigner (ID u) (Unix (now w3 + 24 * Hour))) as [token2 ->].
  exists u, token1, token2. repeat split; assumption.
Qed.

Lemma X11_signup_then_login_witness :
  exists u token1 token2,
    fst (api.Signup demoEnv
           (api.Decoded {| Signup_Name := "Ann"; Signup_Email := "ann@x.com";
                           Signup_Password := "secret1" |}) emptyWorld)
    = api.JSON api.StatusCreated
        (api.HMessageUserToken "User created successfully" u token1)
    /\ Name u = "Ann" /\ Email u = "ann@x.com"
    /\ fst (api.Login demoEnv
              (api.Decoded {| Login_Email := "ann@x.com";
                              Login_Password := "secret1" |}) annWorld)
       = api.JSON api.StatusOK
           (api.HMessageUserToken "Login successful" u token2).
Proof.
  apply (X11_signup_then_login demoEnv
           {| Signup_Name := "Ann"; Signup_Email := "ann@x.com";
              Signup_Password := "secret1" |} emptyWorld
           (fst (api.Signup demoEnv
                   (api.Decoded {| Signup_Name := "Ann";
                                   Signup_Email := "ann@x.com";
                                   Signup_Password := "secret1" |})
                   emptyWorld))
           annWorld).
  - vm_compute. reflexivity.
  - vm_compute. reflexivity.
  - intros h Hh. vm_compute in Hh. injection Hh as <-.
    vm_compute. reflexivity.
  - intros uid exp. eexists. reflexivity.
  - reflexivity.
  - reflexivity.
Defined.

(* ================================================================= *)
(** ** The table stays well-formed *)

Lemma NoDup_map_filter {A B : Type} (f : A -> B) (p : A -> bool) l :
  NoDup (map f l) -> NoDup (map f (filter p l)).
Proof.
  induction l as [|a l IH]; intros Hnd; cbn [filter map] in *;
    [constructor|].
  inversion Hnd as [|x xs Hnotin Hrest]; subst.
  destruct (p a); cbn [map]; [|now apply IH].
  constructor; [|now apply IH].
  intros Hin. apply Hnotin. apply in_map_iff in Hin.
  destruct Hin as (b & Hb & Hinb). apply filter_In in Hinb.
  apply in_map_iff. exists b. now split.
Qed.

Lemma replace_absent id u l :
  (forall r, In r l -> ID r <> id) ->
  map (fun r => if ID r =? id then u else r) l = l.
Proof.
  induction l as [|r l IH]; intros Habs; cbn [map]; [reflexivity|].
  replace (ID r =? id) with false
    by (symmetry; apply Z.eqb_neq; apply Habs; now left).
  rewrite IH; [reflexivity|]. intros r' Hin. apply Habs. now right.
Qed.

Lemma replace_keeps_ids id u l :
  ID u = id ->
  map ID (map (fun r => if ID r =? id then u else r) l) = map ID l.
Proof.
  intros Hu. induction l as [|r l IH]; cbn [map]; [reflexivity|].
  rewrite IH. destruct (ID r =? id) eqn:Hr; [|reflexivity].
  apply Z.eqb_eq in Hr. congruence.
Qed.

Lemma replace_emails_nodup id u l :
  ID u = id ->
  NoDup (map ID l) -> NoDup (map Email l) ->
  (forall r, In r l -> ID r <> id -> Email r <> Email u) ->
  NoDup (map Email (map (fun r => if ID r =? id then u else r) l)).
Proof.
  intros Hu. subst id.
  induction l as [|r l IH]; intros Hids Hmails Hfree;
    cbn [map] in *; [constructor|].
  inversion Hids as [|x xs Hidnotin Hidrest]; subst x xs.
  inversion Hmails as [|x xs Hmnotin Hmrest]; subst x xs.
  destruct (ID r =? ID u) eqn:Hr.
  - apply Z.eqb_eq in Hr.
    assert (forall r', In r' l -> ID r' <> ID u) as Habs.
    { intros r' Hin Heq. apply Hidnotin. rewrite Hr, <- Heq.
      now apply in_map. }
    rewrite replace_absent by exact Habs.
    constructor; [|exact Hmrest].
    intros Hin. apply in_map_iff in Hin. destruct Hin as (r' & He & Hin).
    apply (Hfree r'); [now right | now apply Habs | exact He].
  - apply Z.eqb_neq in Hr. constructor.
    + intros Hin. apply in_map_iff in Hin.
      destruct Hin as (x & He & Hin). apply in_map_iff in Hin.
      destruct Hin as (r0 & Hx & Hin0).
      destruct (ID r0 =? ID u); subst x.
      * apply (Hfree r); [now left | exact Hr | now symmetry].
      * apply Hmnotin. apply in_map_iff. exists r0. now split.
    + apply IH; try assumption. intros r' Hin. apply Hfree. now right.
Qed.

Lemma storeOK_same w w' : sameStore w w' -> storeOK w -> storeOK w'.
Proof.
  intros (Hr & Hs & _) (H1 & H2 & H3 & H4).
  unfold storeOK. rewrite Hr, Hs. repeat split; assumption.
Qed.

Lemma storeOK_seq_grows w z :
  seq w <= z -> storeOK w -> storeOK (setSeq z w).
Proof.
  intros Hz (H1 & H2 & H3 & H4). repeat split; cbn [seq rows setSeq];
    try assumption; try lia.
  apply Forall_forall. intros r Hin. rewrite Forall_forall in H2.
  specialize (H2 r Hin). lia.
Qed.

Lemma insertRow_storeOK user w :
  0 < ID user <= seq w -> storeOK w ->
  storeOK (snd (gorm.insertRow user w)).
Proof.
  intros Hid Hok. unfold gorm.insertRow.
  destruct (gorm.idTaken (ID user) (rows w)) eqn:Hpk; [exact Hok|].
  destruct (gorm.emailTaken (Email user) (ID user) (rows w)) eqn:Hem;
    [exact Hok|].
  destruct Hok as (H1 & H2 & H3 & H4).
  repeat split; cbn [snd seq rows setRows]; try assumption.
  - apply Forall_app. split; [exact H2 | now constructor].
  - rewrite map_app. cbn [map].
    apply NoDup_app; [exact H3 | repeat constructor; intros [] |].
    intros a Hin [<-|[]]. apply in_map_iff in Hin.
    destruct Hin as (r & Hr & Hin).
    now apply (idTaken_false _ _ r Hpk Hin).
  - rewrite map_app. cbn [map].
    apply NoDup_app; [exact H4 | repeat constructor; intros [] |].
    intros a Hin [<-|[]]. apply in_map_iff in Hin.
    destruct Hin as (r & Hr & Hin).
    apply (emailTaken_false _ _ _ r Hem Hin); [|exact Hr].
    now apply (idTaken_false _ _ r Hpk Hin).
Qed.

Lemma Create_storeOK user w :
  ID user = 0 -> storeOK w ->
  storeOK (snd (gorm.Create user w))
  /\ (fst (fst (gorm.Create user w)) <> None ->
      ID (snd (fst (gorm.Create user w))) = 0).
Proof.
  intros Hid Hok. unfold gorm.Create, gorm.roundTrip.
  assert (storeOK (gorm.tick w)) as Ht by exact Hok.
  assert (storeOK
            (snd (gorm.insertRow
                    (setID (seq w + 1) (gorm.stamp (now w) user))
                    (setSeq (seq w + 1) (gorm.tick w))))) as Hins.
  { apply insertRow_storeOK.
    - destruct Hok as (Hs & _). cbn [ID setID seq setSeq]. lia.
    - apply storeOK_seq_grows; [cbn [seq gorm.tick]; lia | exact Ht]. }
  destruct (faults w) as [|[f|] fs]; cbv beta iota;
    rewrite ?stamp_ID, ?Hid; cbn [Z.eqb fst snd seq gorm.tick];
    try (split; [exact Ht | intros _; now rewrite stamp_ID]).
  all: destruct (gorm.insertRow _ _) as [[e|] w1]; cbn [fst snd] in *.
  all: split; [exact Hins | intros Hne; now rewrite ?stamp_ID].
Qed.

Lemma Save_storeOK user w :
  0 < ID user <= seq w -> storeOK w ->
  storeOK (snd (gorm.Save user w))
  /\ ID (snd (fst (gorm.Save user w))) = ID user.
Proof.
  intros Hid Hok. unfold gorm.Save.
  replace (ID user =? 0) with false by (symmetry; apply Z.eqb_neq; lia).
  unfold gorm.roundTrip.
  assert (storeOK (gorm.tick w)) as Ht by exact Hok.
  assert (storeOK (gorm.tick (gorm.tick w))) as Htt by exact Hok.
  pose proof (insertRow_storeOK (setUpdatedAt (now w) user)
                (gorm.tick (gorm.tick w)) Hid Htt) as Hins.
  assert (gorm.emailTaken (Email user) (ID user) (rows w) = false ->
          storeOK
            (setRows
               (map (fun r => if ID r =? ID user
                              then setUpdatedAt (now w) user else r)
                  (rows w)) (gorm.tick w))) as Hmap.
  { intros Hem. destruct Hok as (H1 & H2 & H3 & H4).
    repeat split; cbn [seq rows setRows gorm.tick]; try assumption.
    - apply Forall_forall. intros r Hin.
      apply in_map_iff in Hin. destruct Hin as (r0 & <- & Hin0).
      rewrite Forall_forall in H2.
      destruct (ID r0 =? ID user); [exact Hid | now apply H2].
    - now rewrite replace_keeps_ids.
    - apply replace_emails_nodup; try assumption; try reflexivity.
      intros r Hin Hr. cbn [Email setUpdatedAt].
      now apply (emailTaken_false _ _ _ r Hem Hin). }
  destruct (faults w) as [|[f|] fs] eqn:Hf; cbv beta iota;
    cbn [gorm.tick rows faults ID Email setUpdatedAt fst snd];
    rewrite ?Hf; cbn [tl]; cbv beta iota;
    try (split; [exact Ht | reflexivity]).
  all: destruct (gorm.idTaken (ID user) (rows w)).
  all: try match goal with
           | |- context [gorm.emailTaken ?a ?b ?c] =>
               destruct (gorm.emailTaken a b c) eqn:Hem
           end.
  all: cbn [fst snd];
    try (split; [first [exact Ht | now apply Hmap] | reflexivity]).
  all: try (destruct fs as [|[f'|] fs']); cbv beta iota; cbn [fst snd];
    try (split; [exact Htt | reflexivity]).
  all: destruct (gorm.insertRow _ _) as [err w3]; cbn [fst snd] in *.
  all: split; [exact Hins | reflexivity].
Qed.

Lemma Delete_storeOK id w :
  storeOK w -> storeOK (snd (gorm.Delete id w)).
Proof.
  intros Hok. unfold gorm.Delete, gorm.roundTrip.
  assert (storeOK
            (setRows (filter (fun r => negb (ID r =? id)) (rows w))
               (gorm.tick w))) as Hdel.
  { destruct Hok as (H1 & H2 & H3 & H4).
    repeat split; cbn [seq rows setRows gorm.tick]; try assumption.
    - apply Forall_forall. intros r Hin. apply filter_In in Hin.
      rewrite Forall_forall in H2. now apply H2.
    - now apply NoDup_map_filter.
    - now apply NoDup_map_filter. }
  destruct (faults w) as [|[f|] fs]; cbn [snd];
    first [exact Hdel | exact Hok].
Qed.

Section WellFormed.
Variable env : Env.

Lemma CreateUser_storeOK name email password w :
  storeOK w ->
  storeOK (snd (service.CreateUser env name email password w)).
Proof.
  intros Hw. unfold service.CreateUser.
  destruct (GenerateFromPassword env password) as [h|e]; [|exact Hw].
  unfold database.CreateUserWithRetry.
  destruct (retry.ExecuteWithRetry _ _ _ _ _)
    as [[err [u' w']] naps] eqn:Hrun.
  apply ExecuteWithRetry_inv_eq with
    (I := fun s => storeOK (snd s) /\ ID (fst s) = 0)
    (Q := fun s => storeOK (snd s)) in Hrun.
  - destruct err; cbn [snd]; [apply Hrun | exact Hrun].
  - intros [u0 w0] [Hw0 Hu0]. cbn [fst snd] in *.
    destruct (Create_storeOK u0 w0 Hu0 Hw0) as [Hs Hi].
    destruct (gorm.Create u0 w0) as [[[e|] u1] w1]; cbn [fst snd] in *.
    + destruct (database.isUniqueViolation e); cbn [fst snd];
        (split; [exact Hs | apply Hi; discriminate]).
    + exact Hs.
  - split; [exact Hw | reflexivity].
Qed.

Lemma DeleteUser_storeOK id w :
  storeOK w -> storeOK (snd (service.DeleteUser env id w)).
Proof.
  intros Hw. unfold service.DeleteUser, database.DeleteUserWithRetry.
  destruct (retry.ExecuteWithRetry _ _ _ _ _)
    as [[err w'] naps] eqn:Hrun.
  apply ExecuteWithRetry_inv_eq with
    (I := storeOK) (Q := storeOK) in Hrun.
  - destruct err; exact Hrun.
  - intros w0 Hw0. pose proof (Delete_storeOK id w0 Hw0) as Hd.
    destruct (gorm.Delete id w0) as [[e|] w1]; exact Hd.
  - exact Hw.
Qed.

Lemma UpdateUser_storeOK id name email w :
  storeOK w -> storeOK (snd (service.UpdateUser env id name email w)).
Proof.
  intros Hw. unfold service.UpdateUser.
  pose proof (FindUserByIDWithRetry_spec env id w) as Hfind.
  destruct (database.FindUserByIDWithRetry env id w) as [[u|e] w1].
  - destruct Hfind as [Hsame Hu].
    pose proof (storeOK_same w w1 Hsame Hw) as Hw1.
    apply firstByID_Some in Hu. destruct Hu as [Hin _].
    assert (0 < ID u <= seq w) as Hrange.
    { destruct Hw as (_ & Hr & _). rewrite Forall_forall in Hr.
      now apply Hr. }
    fold (patched name email u).
    unfold database.UpdateUserWithRetry.
    destruct (retry.ExecuteWithRetry _ _ _ _ _)
      as [[err [u' w']] naps] eqn:Hrun.
    apply ExecuteWithRetry_inv_eq with
      (I := fun s => storeOK (snd s) /\ 0 < ID (fst s) <= seq (snd s))
      (Q := fun s => storeOK (snd s)) in Hrun.
    + destruct err; cbn [snd]; [apply Hrun | exact Hrun].
    + intros [u0 w0] [Hw0 Hu0]. cbn [fst snd] in *.
      destruct (Save_storeOK u0 w0 Hu0 Hw0) as [Hs Hi].
      assert (seq w0 <= seq (snd (gorm.Save u0 w0))) as Hseq.
      { unfold gorm.Save.
        replace (ID u0 =? 0) with false
          by (symmetry; apply Z.eqb_neq; lia).
        unfold gorm.roundTrip, gorm.insertRow.
        destruct (faults w0) as [|[f|] fs] eqn:Hf; cbv beta iota;
          cbn [gorm.tick faults]; rewrite ?Hf; cbn [tl];
          try destruct fs as [|[f'|] fs']; cbv beta iota;
          repeat match goal with
                 | |- context [if ?c then _ else _] => destruct c
                 end; cbn [snd seq gorm.tick setRows]; lia. }
      destruct (gorm.Save u0 w0) as [[[e|] u1] w2]; cbn [fst snd] in *.
      * destruct (database.isUniqueViolation e); cbn [fst snd];
          (split; [exact Hs | lia]).
      * exact Hs.
    + cbn [fst snd]. split; [exact Hw1|].
      rewrite patched_ID. destruct Hsame as (_ & -> & _). exact Hrange.
  - now apply (storeOK_same w w1).
Qed.

Lemma reads_storeOK w :
  storeOK w ->
  (forall id, storeOK (snd (service.GetUser env id w)))
  /\ (forall email, storeOK (snd (service.GetUserByEmail env email w)))
  /\ storeOK (snd (service.ListUsers env w)).
Proof.
  intros Hw. split; [|split].
  - intros id. unfold service.GetUser.
    pose proof (FindUserByIDWithRetry_spec env id w) as Hs.
    destruct (database.FindUserByIDWithRetry env id w) as [[u|e] w1];
      apply (storeOK_same w w1); try assumption; apply Hs.
  - intros email. unfold service.GetUserByEmail.
    pose proof (FindUserByEmailWithRetry_spec env email w) as Hs.
    destruct (database.FindUserByEmailWithRetry env email w)
      as [[u|e] w1]; apply (storeOK_same w w1); try assumption; apply Hs.
  - unfold service.ListUsers, database.GetAllUsersWithRetry.
    destruct (retry.ExecuteWithRetry _ _ _ _ _)
      as [[err [l w']] naps] eqn:Hrun.
    apply ExecuteWithRetry_inv_eq with
      (I := fun s => storeOK (snd s)) (Q := fun s => storeOK (snd s))
      in Hrun.
    + destruct err; exact Hrun.
    + intros [l0 w0] Hw0. cbn [snd] in *.
      unfold gorm.Find, gorm.roundTrip.
      destruct (faults w0) as [|[f|] fs]; exact Hw0.
    + exact Hw.
Qed.
End WellFormed.

Ltac settle_world :=
  cbn [snd] in *;
  repeat match goal with
         | |- context [match ?x with _ => _ end] => destruct x
         end;
  cbn [snd]; assumption.

(** X12.  The table is well-formed when empty and stays well-formed under
    every operation of the service layer and every handler of the two
    adapters, for all arguments and whatever faults the store meets:
    identifiers stay positive, within the sequence and pairwise distinct,
    and no two rows ever carry the same email. *)
Theorem X12_table_stays_well_formed (env : Env) :
  storeOK emptyWorld
  /\ forall w, storeOK w ->
       (forall name email password,
          storeOK (snd (service.CreateUser env name email password w)))
       /\ (forall id name email,
             storeOK (snd (service.UpdateUser env id name email w)))
       /\ (forall id, storeOK (snd (service.DeleteUser env id w)))
       /\ (forall id, storeOK (snd (service.GetUser env id w)))
       /\ (forall email, storeOK (snd (service.GetUserByEmail env email w)))
       /\ storeOK (snd (service.ListUsers env w))
       /\ (forall body, storeOK (snd (api.Signup env body w)))
       /\ (forall body, storeOK (snd (api.Login env body w)))
       /\ storeOK (snd (api.GetUsers env w))
       /\ (forall idParam, storeOK (snd (api.GetUser env idParam w)))
       /\ (forall idParam body,
             storeOK (snd (api.UpdateUser env idParam body w)))
       /\ (forall idParam, storeOK (snd (api.DeleteUser env idParam w)))
       /\ (forall req, storeOK (snd (grpc.CreateUser env req w)))
       /\ (forall req, storeOK (snd (grpc.GetUser env req w)))
       /\ (forall req, storeOK (snd (grpc.UpdateUser env req w)))
       /\ (forall req, storeOK (snd (grpc.DeleteUser env req w)))
       /\ storeOK (snd (grpc.ListUsers env w)).
Proof.
  split.
  { repeat split; try constructor. cbn. lia. }
  intros w Hw.
  destruct (reads_storeOK env w Hw) as (Hget & Hmail & Hlist).
  pose proof (CreateUser_storeOK env) as Hcreate.
  pose proof (UpdateUser_storeOK env) as Hupdate.
  pose proof (DeleteUser_storeOK env) as Hdelete.
  repeat match goal with |- _ /\ _ => split end; auto.
  - intros body. unfold api.Signup.
    destruct (api.ShouldBindJSON _ body) as [req|msg]; [|exact Hw].
    specialize (Hcreate (Signup_Name req) (Signup_Email req)
                  (Signup_Password req) w Hw).
    destruct (service.CreateUser _ _ _ _ _) as [[u|e] w1]; settle_world.
  - intros body. unfold api.Login.
    destruct (api.ShouldBindJSON _ body) as [req|msg]; [|exact Hw].
    specialize (Hmail (Login_Email req)).
    destruct (service.GetUserByEmail _ _ _) as [[u|e] w1]; settle_world.
  - unfold api.GetUsers.
    destruct (service.ListUsers _ _) as [[l|e] w1]; settle_world.
  - intros idParam. unfold api.GetUser.
    destruct (api.Atoi idParam) as [z|]; [|exact Hw].
    specialize (Hget (api.uint z)).
    destruct (service.GetUser _ _ _) as [[u|e] w1]; settle_world.
  - intros idParam body. unfold api.UpdateUser.
    destruct (api.Atoi idParam) as [z|]; [|exact Hw].
    destruct (api.ShouldBindJSON _ body) as [req|msg]; [|exact Hw].
    specialize (Hupdate (api.uint z) (Update_Name req) (Update_Email req)
                  w Hw).
    destruct (service.UpdateUser _ _ _ _ _) as [[u|e] w1]; settle_world.
  - intros idParam. unfold api.DeleteUser.
    destruct (api.Atoi idParam) as [z|]; [|exact Hw].
    specialize (Hdelete (api.uint z) w Hw).
    destruct (service.DeleteUser _ _ _) as [[e|] w1]; settle_world.
  - intros req. unfold grpc.CreateUser.
    destruct (_ || _); [exact Hw|].
    specialize (Hcreate (grpc.Create_Name req) (grpc.Create_Email req)
                  (grpc.Create_Password req) w Hw).
    destruct (service.CreateUser _ _ _ _ _) as [[u|e] w1]; settle_world.
  - intros req. unfold grpc.GetUser.
    specialize (Hget (grpc.uint (grpc.Get_Id req))).
    destruct (service.GetUser _ _ _) as [[u|e] w1]; settle_world.
  - intros req. unfold grpc.UpdateUser.
    specialize (Hupdate (grpc.uint (grpc.Update_Id req))
                  (grpc.Update_Name req) (grpc.Update_Email req) w Hw).
    destruct (service.UpdateUser _ _ _ _ _) as [[u|e] w1]; settle_world.
  - intros req. unfold grpc.DeleteUser.
    specialize (Hdelete (grpc.uint (grpc.Delete_Id req)) w Hw).
    destruct (service.DeleteUser _ _ _) as [[e|] w1]; settle_world.
  - unfold grpc.ListUsers.
    destruct (service.ListUsers _ _) as [[l|e] w1]; settle_world.
Qed.

Lemma X12_table_stays_well_formed_witness :
  storeOK
    (snd (service.CreateUser demoEnv "Bob" "bob@x.com" "secret2" annWorld)).
Proof.
  apply (proj1 (proj2 (X12_table_stays_well_formed demoEnv) annWorld
                  (proj1 (proj2 (X12_table_stays_well_formed demoEnv)
                            emptyWorld
                            (proj1 (X12_table_stays_well_formed demoEnv)))
                     "Ann" "ann@x.com" "secret1"))).
Defined.

(* ================================================================= *)
(** ** Identifiers are handed out once *)

Lemma Create_seq user w : seq w <= seq (snd (gorm.Create user w)).
Proof.
  unfold gorm.Create, gorm.roundTrip, gorm.insertRow.
  destruct (faults w) as [|[f|] fs]; cbv beta iota;
    repeat match goal with
           | |- context [if ?c then _ else _] => destruct c
           end; cbn [snd seq gorm.tick setSeq setRows]; lia.
Qed.

Lemma Save_seq user w : seq w <= seq (snd (gorm.Save user w)).
Proof.
  unfold gorm.Save. destruct (ID user =? 0); [apply Create_seq|].
  unfold gorm.roundTrip, gorm.insertRow.
  destruct (faults w) as [|[f|] fs] eqn:Hf; cbv beta iota;
    cbn [gorm.tick faults]; rewrite ?Hf; cbn [tl];
    try destruct fs as [|[f'|] fs']; cbv beta iota;
    repeat match goal with
           | |- context [if ?c then _ else _] => destruct c
           end; cbn [snd seq gorm.tick setRows]; lia.
Qed.

Lemma serviceStep_seq env w w' : serviceStep env w w' -> seq w <= seq w'.
Proof.
  intros Hstep. destruct Hstep.
  - pose proof (CreateUser_result env name email password w) as H.
    destruct (service.CreateUser env name email password w)
      as [[u|e] w']; cbn [snd]; [|apply H].
    destruct H as (_ & _ & _ & _ & Hi & Hs & _). lia.
  - unfold service.UpdateUser.
    pose proof (FindUserByIDWithRetry_spec env id w) as Hfind.
    destruct (database.FindUserByIDWithRetry env id w) as [[u|e] w1].
    + destruct Hfind as [(_ & Hs & _) _].
      unfold database.UpdateUserWithRetry.
      destruct (retry.ExecuteWithRetry _ _ _ _ _)
        as [[err [u' w']] naps] eqn:Hrun.
      apply ExecuteWithRetry_inv_eq with
        (I := fun s => seq w <= seq (snd s))
        (Q := fun s => seq w <= seq (snd s)) in Hrun.
      * destruct err; exact Hrun.
      * intros [u0 w0] H0. cbn [snd] in *.
        pose proof (Save_seq u0 w0) as Hsv.
        destruct (gorm.Save u0 w0) as [[[e|] u1] w2]; cbn [snd] in *;
          try destruct (database.isUniqueViolation e); cbn [snd]; lia.
      * cbn [snd]. lia.
    + destruct Hfind as (_ & Hs & _). cbn [snd]. lia.
  - unfold service.DeleteUser, database.DeleteUserWithRetry.
    destruct (retry.ExecuteWithRetry _ _ _ _ _)
      as [[err w'] naps] eqn:Hrun.
    apply ExecuteWithRetry_inv_eq with
      (I := fun s => seq w <= seq s) (Q := fun s => seq w <= seq s) in Hrun.
    + destruct err; exact Hrun.
    + intros w0 H0. unfold gorm.Delete, gorm.roundTrip.
      destruct (faults w0) as [|[f|] fs]; exact H0.
    + lia.
  - unfold service.GetUser.
    pose proof (FindUserByIDWithRetry_spec env id w) as Hfind.
    destruct (database.FindUserByIDWithRetry env id w) as [[u|e] w1];
      cbn [snd]; [destruct Hfind as [(_ & Hs & _) _]
                 | destruct Hfind as (_ & Hs & _)]; lia.
  - unfold service.GetUserByEmail.
    pose proof (FindUserByEmailWithRetry_spec env email w) as Hfind.
    destruct (database.FindUserByEmailWithRetry env email w)
      as [[u|e] w1];
      cbn [snd]; [destruct Hfind as [(_ & Hs & _) _]
                 | destruct Hfind as (_ & Hs & _)]; lia.
  - unfold service.ListUsers, database.GetAllUsersWithRetry.
    destruct (retry.ExecuteWithRetry _ _ _ _ _)
      as [[err [l w']] naps] eqn:Hrun.
    apply ExecuteWithRetry_inv_eq with
      (I := fun s => seq w <= seq (snd s))
      (Q := fun s => seq w <= seq (snd s)) in Hrun.
    + destruct err; exact Hrun.
    + intros [l0 w0] H0. cbn [snd] in *.
      unfold gorm.Find, gorm.roundTrip.
      destruct (faults w0) as [|[f|] fs]; exact H0.
    + cbn [snd]. lia.
Qed.

Lemma serviceRun_seq env w w' : serviceRun env w w' -> seq w <= seq w'.
Proof.
  induction 1 as [|w1 w2 _ IH Hstep]; [lia|].
  apply serviceStep_seq in Hstep. lia.
Qed.

(** X13.  Identifiers are handed out once: the sequence they are drawn
    from never goes back under any operation of the service layer, so a
    user created after any number of further operations (deletions
    included, of the first user too) gets an identifier strictly above
    that of a user created before. *)
Theorem X13_identifiers_never_reused (env : Env)
    name1 email1 password1 name2 email2 password2 w0 u1 w1 w2 u2 w3 :
  service.CreateUser env name1 email1 password1 w0 = (inl u1, w1) ->
  serviceRun env w1 w2 ->
  service.CreateUser env name2 email2 password2 w2 = (inl u2, w3) ->
  ID u1 < ID u2.
Proof.
  intros Hc1 Hrun Hc2.
  pose proof (CreateUser_result env name1 email1 password1 w0) as H1.
  pose proof (CreateUser_result env name2 email2 password2 w2) as H2.
  rewrite Hc1 in H1. rewrite Hc2 in H2.
  destruct H1 as (_ & _ & _ & _ & Hi1 & _).
  destruct H2 as (_ & _ & _ & _ & _ & Hs2 & _).
  apply serviceRun_seq in Hrun. lia.
Qed.

Lemma X13_identifiers_never_reused_witness :
  ID annRow
  < ID (setID 2 (setName "Bob" (setEmail "bob@x.com"
          (setUpdatedAt 3 (setCreatedAt 3 annRow))))).
Proof.
  apply (X13_identifiers_never_reused demoEnv
           "Ann" "ann@x.com" "secret1" "Bob" "bob@x.com" "secret1"
           emptyWorld annRow annWorld
           (snd (service.DeleteUser demoEnv 1 annWorld))
           (setID 2 (setName "Bob" (setEmail "bob@x.com"
              (setUpdatedAt 3 (setCreatedAt 3 annRow)))))
           (snd (service.CreateUser demoEnv "Bob" "bob@x.com" "secret1"
                   (snd (service.DeleteUser demoEnv 1 annWorld))))).
  - vm_compute. reflexivity.
  - apply RunStep with (w1 := annWorld); [apply RunDone | apply StepDelete].
  - vm_compute. reflexivity.
Defined.

(* ================================================================= *)
(** ** More about the service layer: deletion, listing, update *)

Lemma filter_absent id (l : list User) :
  (forall r, In r l -> ID r <> id) ->
  filter (fun r => negb (ID r =? id)) l = l.
Proof.
  induction l as [|r l IH]; intros Habs; cbn [filter]; [reflexivity|].
  replace (ID r =? id) with false
    by (symmetry; apply Z.eqb_neq; apply Habs; now left).
  cbn [negb]. rewrite IH; [reflexivity|].
  intros r' Hin. apply Habs. now right.
Qed.

(** A lookup is not disturbed by dropping rows it does not select. *)
Lemma firstByID_filter p q (l : list User) :
  (forall r, p r = true -> q r = true) ->
  gorm.firstByID p (filter q l) = gorm.firstByID p l.
Proof.
  intros Hpq. induction l as [|r l IH]; [reflexivity|].
  cbn [filter gorm.firstByID].
  destruct (p r) eqn:Hp.
  - rewrite (Hpq r Hp). cbn [gorm.firstByID]. now rewrite Hp, IH.
  - destruct (q r); cbn [gorm.firstByID]; now rewrite ?Hp, IH.
Qed.

(** Nor by rewriting rows it does not select into rows it does not
    select. *)
Lemma firstByID_map p f (l : list User) :
  (forall r, p r = true -> f r = r) ->
  (forall r, p r = false -> p (f r) = false) ->
  gorm.firstByID p (map f l) = gorm.firstByID p l.
Proof.
  intros Hkeep Hskip. induction l as [|r l IH]; [reflexivity|].
  cbn [map gorm.firstByID].
  destruct (p r) eqn:Hp.
  - now rewrite (Hkeep r Hp), Hp, IH.
  - now rewrite (Hskip r Hp), IH.
Qed.

Section DeletionFacts.
Variable env : Env.

Lemma DeleteUser_result id w :
  match service.DeleteUser env id w with
  | (None, w') =>
      rows w' = filter (fun r => negb (ID r =? id)) (rows w)
      /\ seq w' = seq w
  | (Some _, w') => rows w' = rows w /\ seq w' = seq w
  end.
Proof.
  unfold service.DeleteUser, database.DeleteUserWithRetry.
  destruct (retry.ExecuteWithRetry _ _ _ _ _)
    as [[err w'] naps] eqn:Hrun.
  apply ExecuteWithRetry_inv_eq with
    (I := fun s => rows s = rows w /\ seq s = seq w)
    (Q := fun s => rows s = filter (fun r => negb (ID r =? id)) (rows w)
                   /\ seq s = seq w) in Hrun.
  - destruct err; exact Hrun.
  - intros w0 [Hr Hs]. unfold gorm.Delete, gorm.roundTrip.
    destruct (faults w0) as [|[f|] fs];
      cbn [rows seq setRows gorm.tick]; rewrite ?Hr; now split.
  - now split.
Qed.

Lemma DeleteUser_clear id w :
  hd None (faults w) = None -> fst (service.DeleteUser env id w) = None.
Proof.
  intros Hf. unfold service.DeleteUser, database.DeleteUserWithRetry.
  rewrite ExecuteWithRetry_default.
  unfold gorm.Delete at 1, gorm.roundTrip at 1.
  destruct (faults w) as [|[f|] fs]; cbn [hd] in Hf; try discriminate;
    reflexivity.
Qed.
End DeletionFacts.

(** X14.  [DeleteUser], whatever faults the store meets: when it returns
    [nil] the table has lost exactly the rows with that identifier, the
    others keeping their order; the sequence is untouched whatever it
    returns.  For an identifier below [2^63], the range of the key
    column, it returns [nil] as soon as the store answers the first round
    trip, also when no row has the identifier, in which case the table is
    simply unchanged: deleting a missing user is not told apart from
    deleting an existing one. *)
Theorem X14_delete_postcondition (env : Env) id w :
  (forall w', service.DeleteUser env id w = (None, w') ->
              rows w' = filter (fun r => negb (ID r =? id)) (rows w)
              /\ seq w' = seq w)
  /\ seq (snd (service.DeleteUser env id w)) = seq w
  /\ (0 <= id < 2 ^ 63 -> hd None (faults w) = None ->
      fst (service.DeleteUser env id w) = None)
  /\ ((forall r, In r (rows w) -> ID r <> id) ->
      rows (snd (service.DeleteUser env id w)) = rows w).
Proof.
  pose proof (DeleteUser_result env id w) as Hres.
  split; [|split; [|split]].
  - intros w' Hrun. now rewrite Hrun in Hres.
  - destruct (service.DeleteUser env id w) as [[e|] w']; apply Hres.
  - intros _. apply DeleteUser_clear.
  - intros Habs.
    destruct (service.DeleteUser env id w) as [[e|] w']; cbn [snd];
      destruct Hres as [Hr _]; rewrite Hr; [reflexivity|].
    now apply filter_absent.
Qed.

Lemma X14_delete_postcondition_witness :
  fst (service.DeleteUser demoEnv 7 annWorld) = None
  /\ rows (snd (service.DeleteUser demoEnv 7 annWorld)) = rows annWorld.
Proof.
  split.
  - apply (proj1 (proj2 (proj2 (X14_delete_postcondition demoEnv 7
                                  annWorld)))).
    + vm_compute. split; [discriminate | reflexivity].
    + reflexivity.
  - apply (proj2 (proj2 (proj2 (X14_delete_postcondition demoEnv 7
                                  annWorld)))).
    intros r Hin. vm_compute in Hin. destruct Hin as [<-|[]].
    vm_compute. discriminate.
Defined.

(** X15.  Delete, then look up: after [DeleteUser] has returned [nil], on
    any state that holds the table it left, and whatever faults the store
    then meets, [GetUser] with that identifier returns an error, which the
    RPC adapter reports as NotFound; a lookup by any other identifier
    selects the row it selected before the deletion. *)
Theorem X15_deleted_user_is_gone (env : Env) id w w' :
  service.DeleteUser env id w = (None, w') ->
  (forall w2, rows w2 = rows w' ->
     (exists e, fst (service.GetUser env id w2) = inr e)
     /\ (grpc.uint id = id ->
         fst (grpc.GetUser env {| grpc.Get_Id := id |} w2)
         = inr {| grpc.code := grpc.NotFound;
                  grpc.message := "user not found" |}))
  /\ (forall id', id' <> id ->
        gorm.firstByID (fun r => ID r =? id') (rows w')
        = gorm.firstByID (fun r => ID r =? id') (rows w)).
Proof.
  intros Hrun.
  pose proof (DeleteUser_result env id w) as Hres. rewrite Hrun in Hres.
  destruct Hres as [Hrows _].
  assert (gorm.firstByID (fun r => ID r =? id) (rows w') = None) as Hnone.
  { apply firstByID_none. intros r Hin. rewrite Hrows in Hin.
    apply filter_In in Hin. destruct Hin as [_ Hneq].
    now destruct (ID r =? id). }
  assert (forall w2, rows w2 = rows w' ->
          exists e, fst (service.GetUser env id w2) = inr e) as Hgone.
  { intros w2 Hw2. unfold service.GetUser.
    pose proof (FindUserByIDWithRetry_spec env id w2) as Hspec.
    destruct (database.FindUserByIDWithRetry env id w2) as [[u|e] w3];
      [|eexists; reflexivity].
    destruct Hspec as [_ Hu]. rewrite Hw2 in Hu. congruence. }
  split.
  - intros w2 Hw2. split; [now apply Hgone|].
    intros Hid. unfold grpc.GetUser. cbn [grpc.Get_Id]. rewrite Hid.
    destruct (Hgone w2 Hw2) as [e He].
    destruct (service.GetUser env id w2) as [[u|e'] w3]; cbn [fst] in *;
      [discriminate | reflexivity].
  - intros id' Hneq. rewrite Hrows. apply firstByID_filter.
    intros r Hp. apply Z.eqb_eq in Hp.
    replace (ID r =? id) with false
      by (symmetry; apply Z.eqb_neq; congruence).
    reflexivity.
Qed.

Lemma X15_deleted_user_is_gone_witness :
  (forall w2, rows w2 = rows (snd (service.DeleteUser demoEnv 1 annWorld)) ->
     (exists e, fst (service.GetUser demoEnv 1 w2) = inr e)
     /\ (grpc.uint 1 = 1 ->
         fst (grpc.GetUser demoEnv {| grpc.Get_Id := 1 |} w2)
         = inr {| grpc.code := grpc.NotFound;
                  grpc.message := "user not found" |}))
  /\ (forall id', id' <> 1 ->
        gorm.firstByID (fun r => ID r =? id')
          (rows (snd (service.DeleteUser demoEnv 1 annWorld)))
        = gorm.firstByID (fun r => ID r =? id') (rows annWorld)).
Proof.
  apply (X15_deleted_user_is_gone demoEnv 1 annWorld
           (snd (service.DeleteUser demoEnv 1 annWorld))).
  vm_compute. reflexivity.
Defined.

Section ListingFacts.
Variable env : Env.

Lemma ListUsers_result w :
  match service.ListUsers env w with
  | (inl l, w') => l = rows w /\ sameStore w w'
  | (inr _, w') => sameStore w w'
  end.
Proof.
  unfold service.ListUsers, database.GetAllUsersWithRetry.
  destruct (retry.ExecuteWithRetry _ _ _ _ _)
    as [[err [l w']] naps] eqn:Hrun.
  apply ExecuteWithRetry_inv_eq with
    (I := fun s => sameStore w (snd s))
    (Q := fun s => fst s = rows w /\ sameStore w (snd s)) in Hrun.
  - destruct err; exact Hrun.
  - intros [l0 w0] Hs. cbn [fst snd] in *.
    unfold gorm.Find, gorm.roundTrip.
    destruct (faults w0) as [|[f|] fs]; cbn [fst snd rows gorm.tick];
      try (split; [apply Hs | exact Hs]); exact Hs.
  - apply sameStore_refl.
Qed.

Lemma ListUsers_clear w :
  hd None (faults w) = None -> fst (service.ListUsers env w) = inl (rows w).
Proof.
  intros Hf. unfold service.ListUsers, database.GetAllUsersWithRetry.
  rewrite ExecuteWithRetry_default. cbv beta iota.
  unfold gorm.Find at 1, gorm.roundTrip at 1.
  destruct (faults w) as [|[f|] fs]; cbn [hd] in Hf; try discriminate;
    reflexivity.
Qed.
End ListingFacts.

(** X16.  [ListUsers] never changes the table; the list it returns is the
    whole table in its order, whatever faults were met before the attempt
    that succeeded; it succeeds as soon as the store answers the first
    round trip.  Both adapters then list every stored user, in that
    order: the HTTP one as stored users (serialised without password), the
    RPC one as their wire representations, one per row. *)
Theorem X16_list_is_the_table (env : Env) (w : World) :
  sameStore w (snd (service.ListUsers env w))
  /\ (forall l, fst (service.ListUsers env w) = inl l -> l = rows w)
  /\ (hd None (faults w) = None ->
      fst (service.ListUsers env w) = inl (rows w)
      /\ fst (api.GetUsers env w)
         = api.JSON api.StatusOK (api.HUsers (rows w))
      /\ fst (grpc.ListUsers env w)
         = inl {| grpc.Users := map (grpc.userToProtoUser env) (rows w) |}).
Proof.
  pose proof (ListUsers_result env w) as Hres.
  split; [|split].
  - destruct (service.ListUsers env w) as [[l|e] w']; apply Hres.
  - intros l Hl.
    destruct (service.ListUsers env w) as [[l'|e] w']; cbn [fst] in Hl;
      [|discriminate].
    injection Hl as ->. apply Hres.
  - intros Hf. pose proof (ListUsers_clear env w Hf) as Hc.
    split; [exact Hc|].
    unfold api.GetUsers, grpc.ListUsers.
    destruct (service.ListUsers env w) as [res w']. cbn [fst] in Hc.
    subst res. split; reflexivity.
Qed.

Lemma X16_list_is_the_table_witness :
  fst (service.ListUsers demoEnv annWorld) = inl (rows annWorld)
  /\ fst (api.GetUsers demoEnv annWorld)
     = api.JSON api.StatusOK (api.HUsers (rows annWorld))
  /\ fst (grpc.ListUsers demoEnv annWorld)
     = inl {| grpc.Users :=
                map (grpc.userToProtoUser demoEnv) (rows annWorld) |}.
Proof.
  apply (proj2 (proj2 (X16_list_is_the_table demoEnv annWorld))).
  reflexivity.
Defined.

Section UpdateFacts.
Variable env : Env.

(** [UpdateUser] when no row has the identifier. *)
Lemma UpdateUser_missing id name email w :
  gorm.firstByID (fun r => ID r =? id) (rows w) = None ->
  exists e,
    fst (service.UpdateUser env id name email w) = inr e
    /\ sameStore w (snd (service.UpdateUser env id name email w)).
Proof.
  intros Hnone. unfold service.UpdateUser.
  pose proof (FindUserByIDWithRetry_spec env id w) as Hfind.
  destruct (database.FindUserByIDWithRetry env id w) as [[u|e] w1].
  - destruct Hfind as [_ Hu]. congruence.
  - exists e. split; [reflexivity | exact Hfind].
Qed.

(** Every attempt to save an email that another row carries fails. *)
Lemma UpdateUserWithRetry_conflict user w r :
  ID user <> 0 ->
  gorm.idTaken (ID user) (rows w) = true ->
  In r (rows w) -> ID r <> ID user -> Email r = Email user ->
  exists e u' w',
    database.UpdateUserWithRetry env user w = (Some e, u', w')
    /\ rows w' = rows w
    /\ (faults w = [] ->
        e = ErrRetry "update_user" 3
              (Some (gorm.uniqueViolation "idx_users_email"))).
Proof.
  intros Hid Htaken Hin Hother Hmail.
  assert (forall u0 w0,
            ID u0 = ID user -> Email u0 = Email user ->
            rows w0 = rows w ->
            exists e u1 w1,
              gorm.Save u0 w0 = (Some e, u1, w1)
              /\ ID u1 = ID user /\ Email u1 = Email user
              /\ rows w1 = rows w
              /\ (faults w0 = [] ->
                  e = gorm.uniqueViolation "idx_users_email"
                  /\ faults w1 = [])) as Hsave.
  { intros u0 w0 Hi Hm Hr. unfold gorm.Save.
    replace (ID u0 =? 0) with false
      by (symmetry; apply Z.eqb_neq; congruence).
    unfold gorm.roundTrip.
    destruct (faults w0) as [|[f|] fs] eqn:Hf; cbv beta iota;
      cbn [gorm.tick rows ID Email setUpdatedAt];
      rewrite ?Hr, ?Hi, ?Hm, ?Htaken,
        ?(emailTaken_intro (Email user) (ID user) (rows w) r Hin Hmail
            Hother);
      do 3 eexists; (split; [reflexivity|]);
      cbn [ID Email setUpdatedAt rows faults gorm.tick];
      rewrite ?Hf; cbn [tl];
      repeat split; try assumption; try discriminate; reflexivity. }
  unfold database.UpdateUserWithRetry.
  rewrite ExecuteWithRetry_default. cbv beta iota.
  destruct (Hsave user w eq_refl eq_refl eq_refl)
    as (e1 & u1 & w1 & -> & Hi1 & Hm1 & Hr1 & Hc1).
  cbv beta iota. destruct (database.isUniqueViolation e1); cbv beta iota.
  all: destruct (Hsave u1 w1 Hi1 Hm1 Hr1)
         as (e2 & u2 & w2 & -> & Hi2 & Hm2 & Hr2 & Hc2).
  all: cbv beta iota; destruct (database.isUniqueViolation e2);
    cbv beta iota.
  all: destruct (Hsave u2 w2 Hi2 Hm2 Hr2)
         as (e3 & u3 & w3 & -> & Hi3 & Hm3 & Hr3 & Hc3).
  all: cbv beta iota; destruct (database.isUniqueViolation e3);
    cbv beta iota.
  all: do 3 eexists; split; [reflexivity|].
  all: split; [exact Hr3|].
  all: intros Hf; destruct (Hc1 Hf) as [_ Hf1];
    destruct (Hc2 Hf1) as [_ Hf2]; destruct (Hc3 Hf2) as [-> _];
    reflexivity.
Qed.
End UpdateFacts.

(** X17.  [UpdateUser] on an identifier that no row carries returns an
    error and leaves the table and the sequence as they were, whatever
    faults the store meets; when the store answers and the identifier is
    below [2^63], the range of the key column, the error is the
    record-not-found of the lookup, wrapped by the retry executor, and
    nothing is saved. *)
Theorem X17_update_of_missing_user (env : Env) id name email w :
  gorm.firstByID (fun r => ID r =? id) (rows w) = None ->
  (exists e,
     fst (service.UpdateUser env id name email w) = inr e
     /\ sameStore w (snd (service.UpdateUser env id name email w)))
  /\ (faults w = [] -> 0 <= id < 2 ^ 63 ->
      fst (service.UpdateUser env id name email w)
      = inr (ErrRetry "find_user_by_id" 3 (Some ErrRecordNotFound))
      /\ calls (snd (service.UpdateUser env id name email w))
         = (calls w + 3)%nat).
Proof.
  intros Hnone. split; [now apply UpdateUser_missing|].
  intros Hf _. unfold service.UpdateUser, database.FindUserByIDWithRetry.
  rewrite ExecuteWithRetry_default. cbv beta iota.
  rewrite First_clear by now apply hd_no_faults.
  rewrite Hnone. cbn [IsRecordNotFound]. cbv beta iota.
  rewrite First_clear by (apply hd_no_faults; now apply tick_no_faults).
  cbn [gorm.tick rows]. rewrite Hnone.
  cbn [IsRecordNotFound]. cbv beta iota.
  rewrite First_clear
    by (apply hd_no_faults; do 2 apply tick_no_faults; exact Hf).
  cbn [gorm.tick rows]. rewrite Hnone.
  cbn [IsRecordNotFound]. cbv beta iota.
  cbn [fst snd calls addSlept gorm.tick]. split; [reflexivity | lia].
Qed.

Lemma X17_update_of_missing_user_witness :
  (exists e,
     fst (service.UpdateUser demoEnv 7 "Zed" "" annWorld) = inr e
     /\ sameStore annWorld
          (snd (service.UpdateUser demoEnv 7 "Zed" "" annWorld)))
  /\ fst (service.UpdateUser demoEnv 7 "Zed" "" annWorld)
     = inr (ErrRetry "find_user_by_id" 3 (Some ErrRecordNotFound))
  /\ calls (snd (service.UpdateUser demoEnv 7 "Zed" "" annWorld))
     = (calls annWorld + 3)%nat.
Proof.
  destruct (X17_update_of_missing_user demoEnv 7 "Zed" "" annWorld)
    as [Hany Hclear].
  - vm_compute. reflexivity.
  - split; [exact Hany|]. apply Hclear.
    + reflexivity.
    + vm_compute. split; [discriminate | reflexivity].
Defined.

Section UpdateConflict.
Variable env : Env.

Lemma UpdateUser_conflict id name email w u r :
  id <> 0 ->
  gorm.firstByID (fun r => ID r =? id) (rows w) = Some u ->
  In r (rows w) -> ID r <> id ->
  Email r = Email (patched name email u) ->
  exists e w',
    service.UpdateUser env id name email w = (inr e, w')
    /\ rows w' = rows w
    /\ (faults w = [] ->
        e = ErrRetry "update_user" 3
              (Some (gorm.uniqueViolation "idx_users_email"))).
Proof.
  intros Hid Hu Hin Hother Hmail.
  destruct (idTaken_of_first _ _ _ Hu) as [Hidu Htaken].
  unfold service.UpdateUser.
  pose proof (FindUserByIDWithRetry_spec env id w) as Hfind.
  pose proof (FindUserByIDWithRetry_ok env id w u) as Hok.
  destruct (database.FindUserByIDWithRetry env id w) as [[u0|e] w1].
  - destruct Hfind as [(Hrows & _) Hu0].
    assert (u0 = u) as -> by congruence.
    fold (patched name email u).
    destruct (UpdateUserWithRetry_conflict env (patched name email u) w1 r)
      as (e & u' & w' & -> & Hrows' & He).
    + rewrite patched_ID. congruence.
    + rewrite patched_ID, Hidu, Hrows. exact Htaken.
    + rewrite Hrows. exact Hin.
    + rewrite patched_ID. congruence.
    + exact Hmail.
    + exists e, w'. split; [reflexivity|]. split; [congruence|].
      intros Hf. apply He.
      destruct (Hok Hf Hu) as (w2 & Heq & Hf2 & _).
      injection Heq as <-. exact Hf2.
  - exists e, w1. split; [reflexivity|]. split; [apply Hfind|].
    intros Hf. destruct (Hok Hf Hu) as (w2 & Heq & _). discriminate.
Qed.
End UpdateConflict.

(** X18.  [UpdateUser] that would give a user the email of another stored
    user (the new email when one is sent, the user's own otherwise) never
    succeeds and never changes the table, whatever faults the store
    meets.  When the store answers, the error is the unique violation of
    the email index, met on each of the three attempts, and both adapters
    report a conflict: 409 with [Email already exists] over HTTP,
    [AlreadyExists] over RPC. *)
Theorem X18_update_email_conflict (env : Env) id name email w u r :
  id <> 0 ->
  gorm.firstByID (fun r => ID r =? id) (rows w) = Some u ->
  In r (rows w) -> ID r <> id ->
  Email r = Email (patched name email u) ->
  (exists e, fst (service.UpdateUser env id name email w) = inr e)
  /\ rows (snd (service.UpdateUser env id name email w)) = rows w
  /\ (faults w = [] ->
      fst (service.UpdateUser env id name email w)
      = inr (ErrRetry "update_user" 3
               (Some (gorm.uniqueViolation "idx_users_email")))
      /\ (forall idParam n,
            api.Atoi idParam = Some n -> api.uint n = id ->
            fst (api.UpdateUser env idParam
                   (api.Decoded {| Update_Name := name;
                                   Update_Email := email |}) w)
            = api.JSON api.StatusConflict
                (api.HError "Email already exists"))
      /\ (grpc.uint id = id ->
          fst (grpc.UpdateUser env
                 {| grpc.Update_Id := id; grpc.Update_Name := name;
                    grpc.Update_Email := email |} w)
          = inr {| grpc.code := grpc.AlreadyExists;
                   grpc.message := "email already exists" |})).
Proof.
  intros Hid Hu Hin Hother Hmail.
  destruct (UpdateUser_conflict env id name email w u r Hid Hu Hin Hother
              Hmail) as (e & w' & Hrun & Hrows & He).
  split; [|split].
  - exists e. now rewrite Hrun.
  - now rewrite Hrun.
  - intros Hf. specialize (He Hf). subst e.
    split; [now rewrite Hrun|]. split.
    + intros idParam n Hn Hu64. unfold api.UpdateUser.
      rewrite Hn. cbn [api.ShouldBindJSON api.validateUpdate].
      cbn [Update_Name Update_Email]. rewrite Hu64, Hrun.
      reflexivity.
    + intros Hu64. unfold grpc.UpdateUser.
      cbn [grpc.Update_Id grpc.Update_Name grpc.Update_Email].
      rewrite Hu64, Hrun. reflexivity.
Qed.

Lemma X18_update_email_conflict_witness :
  let w := snd (service.CreateUser demoEnv "Bob" "bob@x.com" "hunter22"
                  annWorld) in
  rows (snd (service.UpdateUser demoEnv 1 "" "bob@x.com" w)) = rows w
  /\ fst (api.UpdateUser demoEnv "1"
            (api.Decoded {| Update_Name := "";
                            Update_Email := "bob@x.com" |}) w)
     = api.JSON api.StatusConflict (api.HError "Email already exists").
Proof.
  intros w.
  pose proof (X18_update_email_conflict demoEnv 1 "" "bob@x.com" w
                annRow (nth 1 (rows w) annRow)) as H.
  destruct H as (_ & Hrows & Hclear).
  - discriminate.
  - vm_compute. reflexivity.
  - vm_compute. right. left. reflexivity.
  - vm_compute. discriminate.
  - vm_compute. reflexivity.
  - split; [exact Hrows|].
    destruct (Hclear eq_refl) as (_ & Hhttp & _).
    apply (Hhttp "1" 1); reflexivity.
Defined.

(** X19.  [UpdateUser] on an existing user touches the row of that user
    only: whether it succeeds or fails, and whatever faults the store
    meets, the table keeps its identifiers in their order, every row of
    another user stays as it was, and a lookup of any other identifier
    gives what it gave before; when it fails on a store that answers
    every round trip, the row of the user itself is also as before. *)
Theorem X19_update_touches_one_row (env : Env) id name email w u :
  id <> 0 ->
  gorm.firstByID (fun r => ID r =? id) (rows w) = Some u ->
  let w' := snd (service.UpdateUser env id name email w) in
  map ID (rows w') = map ID (rows w)
  /\ (forall r, In r (rows w) -> ID r <> id -> In r (rows w'))
  /\ (forall id', id' <> id ->
        gorm.firstByID (fun r => ID r =? id') (rows w')
        = gorm.firstByID (fun r => ID r =? id') (rows w))
  /\ (faults w = [] ->
      forall e, fst (service.UpdateUser env id name email w) = inr e ->
        rows w' = rows w).
Proof.
  intros Hid Hu w'. subst w'.
  pose proof (UpdateUser_spec env id name email w u Hid Hu) as Hspec.
  destruct (idTaken_of_first _ _ _ Hu) as [Hidu _].
  destruct (service.UpdateUser env id name email w) as [[u'|e] w'];
    cbn [fst snd].
  - destruct Hspec as [Hsame Hrows].
    assert (ID u' = id) as Hid'.
    { destruct Hsame as [-> _]. now rewrite patched_ID. }
    rewrite Hrows. split; [|split; [|split]].
    + now apply replace_keeps_ids.
    + intros r Hin Hr. apply in_map_iff. exists r.
      split; [|exact Hin].
      now replace (ID r =? id) with false
        by (symmetry; now apply Z.eqb_neq).
    + intros id' Hne. apply firstByID_map.
      * intros r Hr. apply Z.eqb_eq in Hr.
        now replace (ID r =? id) with false
          by (symmetry; apply Z.eqb_neq; congruence).
      * intros r Hr. destruct (ID r =? id); [|exact Hr].
        apply Z.eqb_neq. congruence.
    + intros _ e He. discriminate.
  - rewrite Hspec. repeat split; auto.
Qed.

Lemma X19_update_touches_one_row_witness :
  let w := snd (service.CreateUser demoEnv "Bob" "bob@x.com" "hunter22"
                  annWorld) in
  let w' := snd (service.UpdateUser demoEnv 2 "Robert" "" w) in
  map ID (rows w') = map ID (rows w)
  /\ In annRow (rows w')
  /\ gorm.firstByID (fun r => ID r =? 1) (rows w')
     = gorm.firstByID (fun r => ID r =? 1) (rows w).
Proof.
  intros w w'.
  pose proof (X19_update_touches_one_row demoEnv 2 "Robert" "" w
                (nth 1 (rows w) annRow)) as H.
  destruct H as (Hids & Hin & Hget & _).
  - discriminate.
  - vm_compute. reflexivity.
  - split; [exact Hids|]. split.
    + apply Hin; [vm_compute; left; reflexivity | vm_compute; discriminate].
    + apply Hget. discriminate.
Defined.

(* ================================================================= *)
(** ** The RPC surface: identifiers on the wire *)

(** X20.  Create and fetch over RPC: when [CreateUser] of the RPC server
    succeeds and the sequence has not passed the range of the 32-bit
    identifier of the wire format, the identifier in the response is the
    one the store assigned, and [GetUser] with that identifier, on any
    state that holds the table left and whose store answers, returns the
    very user of the creation response, with the name and email sent. *)
Theorem X20_rpc_create_then_get (env : Env) req w resp w' :
  0 <= seq w -> seq w' < 2 ^ 32 ->
  grpc.CreateUser env req w = (inl resp, w') ->
  grpc.Id (grpc.RUser resp) = seq w'
  /\ grpc.PName (grpc.RUser resp) = grpc.Create_Name req
  /\ grpc.PEmail (grpc.RUser resp) = grpc.Create_Email req
  /\ forall w2,
       rows w2 = rows w' -> faults w2 = [] ->
       fst (grpc.GetUser env
              {| grpc.Get_Id := grpc.Id (grpc.RUser resp) |} w2)
       = inl {| grpc.RUser := grpc.RUser resp;
                grpc.Message := "User retrieved successfully" |}.
Proof.
  intros Hseq Hmax Hrun. unfold grpc.CreateUser in Hrun.
  destruct (String.eqb (grpc.Create_Name req) ""
            || String.eqb (grpc.Create_Email req) ""
            || String.eqb (grpc.Create_Password req) "");
    [discriminate|].
  destruct (service.CreateUser env (grpc.Create_Name req)
              (grpc.Create_Email req) (grpc.Create_Password req) w)
    as [[u|e] w1] eqn:Hcreate.
  2: { destruct (Contains (Error e) "duplicate key"); discriminate. }
  injection Hrun as <- <-.
  pose proof (CreateUser_result env (grpc.Create_Name req)
                (grpc.Create_Email req) (grpc.Create_Password req) w)
    as Hres.
  rewrite Hcreate in Hres.
  destruct Hres as (_ & Hname & Hmail & _ & Hid & Hlt & _).
  assert (grpc.uint32 (ID u) = ID u) as H32
    by (unfold grpc.uint32; apply Z.mod_small; lia).
  cbn [grpc.RUser grpc.userToProtoUser grpc.Id grpc.PName grpc.PEmail].
  rewrite H32. repeat split; try assumption.
  intros w2 Hrows Hf. unfold grpc.GetUser. cbn [grpc.Get_Id].
  assert (grpc.uint (ID u) = ID u) as H64
    by (unfold grpc.uint; apply Z.mod_small; lia).
  rewrite H64.
  destruct (created_user_rows env _ _ _ w u w1 Hcreate) as [Hrow _].
  pose proof (GetUser_clear env (ID u) w2 Hf) as Hget.
  rewrite Hrows, Hrow in Hget.
  destruct (service.GetUser env (ID u) w2) as [found w3].
  cbn [fst] in Hget. subst found. reflexivity.
Qed.

Lemma X20_rpc_create_then_get_witness :
  let req := {| grpc.Create_Name := "Bob"; grpc.Create_Email := "bob@x.com";
                grpc.Create_Password := "hunter22" |} in
  exists resp,
    fst (grpc.CreateUser demoEnv req annWorld) = inl resp
    /\ grpc.Id (grpc.RUser resp) = 2
    /\ fst (grpc.GetUser demoEnv {| grpc.Get_Id := 2 |}
              (snd (grpc.CreateUser demoEnv req annWorld)))
       = inl {| grpc.RUser := grpc.RUser resp;
                grpc.Message := "User retrieved successfully" |}.
Proof.
  intros req.
  destruct (grpc.CreateUser demoEnv req annWorld) as [[resp|st] w'] eqn:Hrun;
    [|vm_compute in Hrun; discriminate].
  exists resp.
  assert (seq w' = 2 /\ faults w' = []) as (Hs & Hf).
  { vm_compute in Hrun. injection Hrun as <- <-. split; reflexivity. }
  destruct (X20_rpc_create_then_get demoEnv req annWorld resp w')
    as (Hid & _ & _ & Hget).
  - vm_compute. discriminate.
  - rewrite Hs. reflexivity.
  - exact Hrun.
  - split; [reflexivity|]. split; [congruence|].
    rewrite <- Hs, <- Hid. apply Hget; [reflexivity | exact Hf].
Defined.

(* ================================================================= *)
(** ** The identifier in the path of a request *)

Lemma parseDigits_acc d acc :
  api.parseDigits (NilEmpty.string_of_uint d) (Z.pos acc)
  = Some (Z.pos (Pos.of_uint_acc d acc)).
Proof.
  revert acc.
  induction d; intros acc;
    cbn [NilEmpty.string_of_uint api.parseDigits Pos.of_uint_acc];
    try reflexivity;
    change (api.digitVal _) with (Some 0)
    || change (api.digitVal _) with (Some 1)
    || change (api.digitVal _) with (Some 2)
    || change (api.digitVal _) with (Some 3)
    || change (api.digitVal _) with (Some 4)
    || change (api.digitVal _) with (Some 5)
    || change (api.digitVal _) with (Some 6)
    || change (api.digitVal _) with (Some 7)
    || change (api.digitVal _) with (Some 8)
    || change (api.digitVal _) with (Some 9);
    cbv beta iota; rewrite <- IHd; f_equal; lia.
Qed.

Lemma parseDigits_uint d :
  api.parseDigits (NilEmpty.string_of_uint d) 0
  = Some (Z.of_N (Pos.of_uint d)).
Proof.
  induction d;
    cbn [NilEmpty.string_of_uint api.parseDigits Pos.of_uint];
    try reflexivity;
    change (api.digitVal _) with (Some 0)
    || change (api.digitVal _) with (Some 1)
    || change (api.digitVal _) with (Some 2)
    || change (api.digitVal _) with (Some 3)
    || change (api.digitVal _) with (Some 4)
    || change (api.digitVal _) with (Some 5)
    || change (api.digitVal _) with (Some 6)
    || change (api.digitVal _) with (Some 7)
    || change (api.digitVal _) with (Some 8)
    || change (api.digitVal _) with (Some 9);
    cbv beta iota; try exact IHd;
    cbn [Z.mul Z.add Z.of_N]; apply parseDigits_acc.
Qed.

Lemma parseDigits_pos p :
  api.parseDigits (NilEmpty.string_of_uint (Pos.to_uint p)) 0
  = Some (Z.pos p).
Proof.
  rewrite parseDigits_uint, DecimalPos.Unsigned.of_to. reflexivity.
Qed.

Lemma Atoi_digits d n :
  d <> Decimal.Nil ->
  api.parseDigits (NilEmpty.string_of_uint d) 0 = Some n ->
  api.Atoi (NilEmpty.string_of_uint d)
  = (if (retry.minInt64 <=? n) && (n <=? retry.maxInt64) then Some n
     else None)
  /\ api.Atoi (String "-" (NilEmpty.string_of_uint d))
     = (if (retry.minInt64 <=? - n) && (- n <=? retry.maxInt64)
        then Some (- n) else None).
Proof.
  intros Hd Hn. unfold api.Atoi.
  destruct d; [congruence| ..];
    cbn [NilEmpty.string_of_uint] in *; rewrite Hn; split; reflexivity.
Qed.

(** [strconv.Atoi] reads back what [%d] prints. *)
Lemma Atoi_itoa z :
  retry.minInt64 <= z <= retry.maxInt64 -> api.Atoi (itoa z) = Some z.
Proof.
  intros Hz. unfold itoa.
  destruct z as [|p|p]; [reflexivity| |].
  - cbn [Z.to_int NilZero.string_of_int].
    unfold NilZero.string_of_uint.
    pose proof (DecimalPos.Unsigned.to_uint_nonnil p) as Hnil.
    destruct (Atoi_digits _ _ Hnil (parseDigits_pos p)) as [H _].
    destruct (Pos.to_uint p) eqn:E; [congruence| ..]; rewrite H;
      replace ((retry.minInt64 <=? Z.pos p) && (Z.pos p <=? retry.maxInt64))
        with true
        by (symmetry; apply andb_true_iff; split; apply Z.leb_le; lia);
      reflexivity.
  - cbn [Z.to_int NilZero.string_of_int].
    unfold NilZero.string_of_uint.
    pose proof (DecimalPos.Unsigned.to_uint_nonnil p) as Hnil.
    destruct (Atoi_digits _ _ Hnil (parseDigits_pos p)) as [_ H].
    destruct (Pos.to_uint p) eqn:E; [congruence| ..]; rewrite H;
      replace ((retry.minInt64 <=? - Z.pos p)
               && (- Z.pos p <=? retry.maxInt64)) with true
        by (symmetry; apply andb_true_iff; split; apply Z.leb_le; lia);
      reflexivity.
Qed.

(** X21.  The identifier in the path of [GET], [PUT] and [DELETE
    /users/:id].  A text that [strconv.Atoi] rejects is answered 400
    [Invalid user ID] with the state untouched.  The decimal text of an
    identifier between 0 and the largest [int] reaches the service layer
    as that identifier.  A negative number is not rejected either:
    [strconv.Atoi] accepts it, the conversion [uint(id)] turns it into
    an identifier of [2^63] or more, and none of the three handlers
    answers 400. *)
Theorem X21_http_id_parameter (env : Env) (w : World) :
  (forall idParam, api.Atoi idParam = None ->
     let bad := api.JSON api.StatusBadRequest (api.HError "Invalid user ID")
     in
     api.GetUser env idParam w = (bad, w)
     /\ (forall body, api.UpdateUser env idParam body w = (bad, w))
     /\ api.DeleteUser env idParam w = (bad, w))
  /\ (forall id, 0 <= id <= retry.maxInt64 ->
        api.GetUser env (itoa id) w
        = (match fst (service.GetUser env id w) with
           | inl user => api.JSON api.StatusOK (api.HUser user)
           | inr _ => api.JSON api.StatusNotFound (api.HError "User not found")
           end, snd (service.GetUser env id w))
        /\ (forall req,
              snd (api.UpdateUser env (itoa id) (api.Decoded req) w)
              = snd (service.UpdateUser env id (Update_Name req)
                       (Update_Email req) w))
        /\ snd (api.DeleteUser env (itoa id) w)
           = snd (service.DeleteUser env id w))
  /\ (forall id, retry.minInt64 <= id < 0 ->
        api.Atoi (itoa id) = Some id
        /\ api.uint id = id + 2 ^ 64
        /\ 2 ^ 63 <= api.uint id
        /\ api.Status (fst (api.GetUser env (itoa id) w))
           <> api.StatusBadRequest
        /\ api.Status (fst (api.DeleteUser env (itoa id) w))
           <> api.StatusBadRequest
        /\ forall req,
             api.Status
               (fst (api.UpdateUser env (itoa id) (api.Decoded req) w))
             <> api.StatusBadRequest).
Proof.
  split; [|split].
  - intros idParam Hbad bad. unfold api.GetUser, api.UpdateUser,
      api.DeleteUser. rewrite Hbad. repeat split.
  - intros id Hid.
    assert (api.Atoi (itoa id) = Some id) as Hparse
      by (apply Atoi_itoa; unfold retry.minInt64, retry.maxInt64 in *; lia).
    assert (api.uint id = id) as Hu
      by (unfold api.uint; apply Z.mod_small;
          unfold retry.maxInt64 in Hid; lia).
    unfold api.GetUser, api.UpdateUser, api.DeleteUser.
    rewrite Hparse, Hu. split; [|split].
    + destruct (service.GetUser env id w) as [[u|e] w']; reflexivity.
    + intros req. cbn [api.ShouldBindJSON api.validateUpdate].
      destruct (service.UpdateUser env id _ _ w) as [[u|e] w'];
        [reflexivity|].
      destruct (Contains (Error e) "duplicate key"); reflexivity.
    + destruct (service.DeleteUser env id w) as [[e|] w']; reflexivity.
  - intros id Hid.
    assert (api.Atoi (itoa id) = Some id) as Hparse
      by (apply Atoi_itoa; unfold retry.minInt64, retry.maxInt64 in *; lia).
    assert (api.uint id = id + 2 ^ 64) as Hu.
    { unfold api.uint. unfold retry.minInt64 in Hid.
      symmetry. apply Z.mod_unique with (q := -1); lia. }
    split; [exact Hparse|]. split; [exact Hu|].
    split; [rewrite Hu; unfold retry.minInt64 in Hid; lia|].
    unfold api.GetUser, api.DeleteUser, api.UpdateUser. rewrite Hparse.
    split; [|split].
    + destruct (service.GetUser env (api.uint id) w) as [[u|e] w'];
        discriminate.
    + destruct (service.DeleteUser env (api.uint id) w) as [[e|] w'];
        discriminate.
    + intros req. cbn [api.ShouldBindJSON api.validateUpdate].
      destruct (service.UpdateUser env (api.uint id) _ _ w)
        as [[u|e] w']; [discriminate|].
      destruct (Contains (Error e) "duplicate key"); discriminate.
Qed.

Lemma X21_http_id_parameter_witness :
  api.GetUser demoEnv "abc" annWorld
  = (api.JSON api.StatusBadRequest (api.HError "Invalid user ID"), annWorld)
  /\ fst (api.GetUser demoEnv "1" annWorld)
     = api.JSON api.StatusOK (api.HUser annRow)
  /\ api.Atoi "-1" = Some (-1)
  /\ api.uint (-1) = 2 ^ 64 - 1.
Proof.
  destruct (X21_http_id_parameter demoEnv annWorld) as (Hbad & Hpos & Hneg).
  split; [|split].
  - apply (Hbad "abc"). reflexivity.
  - destruct (Hpos 1) as (Hget & _); [vm_compute; split; discriminate|].
    change (itoa 1) with "1" in Hget. rewrite Hget. reflexivity.
  - destruct (Hneg (-1)) as (Hparse & Hu & _).
    + vm_compute. split; [discriminate | reflexivity].
    + split; [exact Hparse | exact Hu].
Defined.

(* ================================================================= *)
(** ** The handlers and the single-package version they replace *)

(** X22.  The layering kept the behaviour of the handlers of the first
    version: for every request and every state, login, list, get and
    delete give the same response and leave the same state, whatever
    faults the store meets; signup and update always leave the same state
    and give the same response except in one case each: when the digest
    cannot be computed (the first version names the hashing as the
    cause), and when the lookup before an update fails (the first version
    answers 404 [User not found]). *)
Theorem X22_handlers_kept_from_first_version (env : Env) (w : World) :
  (forall body, main.login env body w = api.Login env body w)
  /\ main.getUsers env w = api.GetUsers env w
  /\ (forall idParam,
        main.getUser env idParam w = api.GetUser env idParam w)
  /\ (forall idParam,
        main.deleteUser env idParam w = api.DeleteUser env idParam w)
  /\ (forall body,
        snd (main.signup env body w) = snd (api.Signup env body w)
        /\ (main.signup env body w = api.Signup env body w
            \/ exists req e,
                 body = api.Decoded req
                 /\ GenerateFromPassword env (Signup_Password req) = inr e
                 /\ fst (main.signup env body w)
                    = api.JSON api.StatusInternalServerError
                        (api.HError "Failed to hash password")))
  /\ (forall idParam body,
        snd (main.updateUser env idParam body w)
        = snd (api.UpdateUser env idParam body w)
        /\ (main.updateUser env idParam body w
            = api.UpdateUser env idParam body w
            \/ exists id e,
                 api.Atoi idParam = Some id
                 /\ fst (service.GetUser env (api.uint id) w) = inr e
                 /\ fst (main.updateUser env idParam body w)
                    = api.JSON api.StatusNotFound
                        (api.HError "User not found"))).
Proof.
  split; [|split; [|split; [|split; [|split]]]].
  - intros body. unfold main.login, api.Login, service.GetUserByEmail,
      service.ValidatePassword, main.generateJWT, api.generateJWT.
    reflexivity.
  - reflexivity.
  - intros idParam. reflexivity.
  - intros idParam. reflexivity.
  - intros body. unfold main.signup, api.Signup, service.CreateUser,
      main.generateJWT, api.generateJWT.
    destruct (api.ShouldBindJSON (api.validateSignup env) body)
      as [req|msg] eqn:Hbind; [|split; [reflexivity | left; reflexivity]].
    destruct (GenerateFromPassword env (Signup_Password req))
      as [h|e] eqn:Hhash.
    + destruct (database.CreateUserWithRetry env _ (addHashed w))
        as [[[e|] u] w']; split; try reflexivity; left; reflexivity.
    + split.
      * destruct (Contains (Error e) "duplicate key"); reflexivity.
      * right. exists req, e.
        destruct body as [msg|req']; cbn [api.ShouldBindJSON] in Hbind;
          [discriminate|].
        destruct (api.validateSignup env req'); [|discriminate].
        injection Hbind as ->. repeat split. exact Hhash.
  - intros idParam body. unfold main.updateUser, api.UpdateUser,
      service.UpdateUser.
    destruct (api.Atoi idParam) as [id|];
      [|split; [reflexivity | left; reflexivity]].
    destruct (api.ShouldBindJSON api.validateUpdate body) as [req|msg];
      [|split; [reflexivity | left; reflexivity]].
    destruct (database.FindUserByIDWithRetry env (api.uint id) w)
      as [[u|e] w1] eqn:Hfind.
    + destruct (database.UpdateUserWithRetry env _ w1)
        as [[[e|] u'] w']; split; try reflexivity; left; reflexivity.
    + split.
      * destruct (Contains (Error e) "duplicate key"); reflexivity.
      * right. exists id, e. unfold service.GetUser. rewrite Hfind.
        repeat split.
Qed.

(** X23.  Updating a user that does not exist.  With the store
    answering and no row under the identifier, the first version answers
    404 [User not found]; the handler that replaced it answers 500 [Failed
    to update user] and the RPC server [Internal], although [GET] on the
    same identifier is answered 404: the record-not-found of the lookup
    reaches the adapters, which test the error text for [duplicate key]
    only.  No state differs. *)
Theorem X23_update_of_missing_user_is_internal (env : Env) id req w :
  0 <= id <= retry.maxInt64 ->
  gorm.firstByID (fun r => ID r =? id) (rows w) = None ->
  faults w = [] ->
  fst (main.updateUser env (itoa id) (api.Decoded req) w)
  = api.JSON api.StatusNotFound (api.HError "User not found")
  /\ fst (api.UpdateUser env (itoa id) (api.Decoded req) w)
     = api.JSON api.StatusInternalServerError
         (api.HError "Failed to update user")
  /\ fst (grpc.UpdateUser env
            {| grpc.Update_Id := id;
               grpc.Update_Name := Update_Name req;
               grpc.Update_Email := Update_Email req |} w)
     = inr {| grpc.code := grpc.Internal;
              grpc.message := "failed to update user" |}
  /\ fst (api.GetUser env (itoa id) w)
     = api.JSON api.StatusNotFound (api.HError "User not found")
  /\ snd (main.updateUser env (itoa id) (api.Decoded req) w)
     = snd (api.UpdateUser env (itoa id) (api.Decoded req) w).
Proof.
  intros Hid Hnone Hf.
  assert (api.Atoi (itoa id) = Some id) as Hparse
    by (apply Atoi_itoa; unfold retry.minInt64, retry.maxInt64 in *; lia).
  assert (api.uint id = id) as Hu
    by (unfold api.uint; apply Z.mod_small;
        unfold retry.maxInt64 in Hid; lia).
  assert (grpc.uint id = id) as Hg by exact Hu.
  pose proof (GetUser_clear env id w Hf) as Hget. rewrite Hnone in Hget.
  unfold service.GetUser in Hget.
  unfold main.updateUser, api.UpdateUser, grpc.UpdateUser, api.GetUser,
    service.UpdateUser, service.GetUser.
  cbn [grpc.Update_Id grpc.Update_Name grpc.Update_Email].
  rewrite Hparse, Hu, Hg. cbn [api.ShouldBindJSON api.validateUpdate].
  destruct (database.FindUserByIDWithRetry env id w) as [found w1].
  cbn [fst] in Hget. subst found.
  repeat split.
Qed.

Lemma X23_update_of_missing_user_is_internal_witness :
  fst (main.updateUser demoEnv "7"
         (api.Decoded {| Update_Name := "Zed"; Update_Email := "" |})
         annWorld)
  = api.JSON api.StatusNotFound (api.HError "User not found")
  /\ fst (api.UpdateUser demoEnv "7"
            (api.Decoded {| Update_Name := "Zed"; Update_Email := "" |})
            annWorld)
     = api.JSON api.StatusInternalServerError
         (api.HError "Failed to update user").
Proof.
  destruct (X23_update_of_missing_user_is_internal demoEnv 7
              {| Update_Name := "Zed"; Update_Email := "" |} annWorld)
    as (Hold & Hnew & _).
  - vm_compute. split; discriminate.
  - vm_compute. reflexivity.
  - reflexivity.
  - split; [exact Hold | exact Hnew].
Defined.

(* ================================================================= *)
(** ** Package metrics: the health check and the request counter *)

(** A check over [statusCodes] holds of every status code. *)
Lemma statusCodes_all (f : Z -> bool) :
  forallb f statusCodes = true ->
  forall code, 100 <= code <= 999 -> f code = true.
Proof.
  intros Hall code Hcode. rewrite forallb_forall in Hall. apply Hall.
  unfold statusCodes. apply in_map_iff.
  exists (Z.to_nat (code - 100)). split; [lia|].
  apply in_seq. lia.
Qed.

Lemma label_short :
  forallb (fun code =>
             Nat.leb (String.length
                        (metrics.stringOfRune (metrics.rune code))) 2
             && negb (String.eqb
                        (metrics.stringOfRune (metrics.rune code))
                        (itoa code))
             && (codePoint (metrics.stringOfRune (metrics.rune code))
                 =? code))
    statusCodes = true.
Proof. vm_compute. reflexivity. Qed.

(** X24.  The health check asks the store once and never retries: it
    makes exactly one round trip, sleeps nothing and leaves the table
    alone.  It answers 200 [healthy], sets the gauge of the database to 1
    and counts a successful operation exactly when that round trip is
    answered; otherwise it answers 500 [unhealthy] with the text of the
    store's error in the body, sets the gauge to 0 and counts a failed
    operation.  So a single transient failure, which a lookup made in the
    same state rides out, is reported as an unhealthy service. *)
Theorem X24_health_check (env : Env) (w : World) (reg : metrics.Registry) :
  let '(resp, w', reg') := metrics.HealthCheckHandler env w reg in
  calls w' = S (calls w) /\ slept w' = slept w /\ sameStore w w'
  /\ (hd None (faults w) = None
      /\ metrics.Code resp = 200
      /\ metrics.Health_status (metrics.Body resp) = "healthy"
      /\ metrics.Health_error (metrics.Body resp) = None
      /\ metrics.gauge "database" (metrics.healthCheckStatus reg') = Some 1
      /\ metrics.dbOperationsTotal reg'
         = ("health_check", "users", "success")
           :: metrics.dbOperationsTotal reg
      \/ exists e,
           hd None (faults w) = Some e
           /\ metrics.Code resp = 500
           /\ metrics.Health_status (metrics.Body resp) = "unhealthy"
           /\ metrics.Health_error (metrics.Body resp) = Some (Error e)
           /\ metrics.gauge "database" (metrics.healthCheckStatus reg')
              = Some 0
           /\ metrics.dbOperationsTotal reg'
              = ("health_check", "users", "error")
                :: metrics.dbOperationsTotal reg)
  /\ (forall e id u,
        faults w = [Some e] ->
        gorm.firstByID (fun r => ID r =? id) (rows w) = Some u ->
        metrics.Code resp = 500
        /\ fst (service.GetUser env id w) = inl u).
Proof.
  unfold metrics.HealthCheckHandler, gorm.roundTrip.
  destruct (faults w) as [|[e|] fs] eqn:Hf; cbv beta iota zeta;
    cbn [calls slept gorm.tick metrics.Code metrics.Body
         metrics.Health_status metrics.Health_error
         metrics.healthCheckStatus metrics.dbOperationsTotal
         metrics.UpdateHealthStatus metrics.RecordDatabaseOperation
         metrics.gauge hd];
    (split; [reflexivity|]); (split; [reflexivity|]);
    (split; [repeat split|]).
  - split; [left; repeat split | intros; discriminate].
  - split; [right; exists e; repeat split|].
    intros e' id u Hfs Hrow. injection Hfs as <- ->.
    split; [reflexivity|].
    unfold service.GetUser, database.FindUserByIDWithRetry.
    rewrite ExecuteWithRetry_default. cbv beta iota.
    match goal with
    | |- context [gorm.First ?user0 id w] =>
        destruct (First_fault user0 id w e [] Hf) as [-> Hf1]
    end.
    destruct (IsRecordNotFound e); cbv beta iota;
      rewrite First_clear
        by (cbn [faults addSlept]; rewrite Hf1; reflexivity);
      cbn [gorm.tick rows addSlept]; rewrite Hrow; reflexivity.
  - split; [left; repeat split | intros; discriminate].
Qed.

Lemma X24_health_check_witness :
  let w := setFaults [Some connRefused] annWorld in
  metrics.Code
    (fst (fst (metrics.HealthCheckHandler demoEnv w metrics.emptyRegistry)))
  = 500
  /\ fst (service.GetUser demoEnv 1 w) = inl annRow.
Proof.
  intros w.
  pose proof (X24_health_check demoEnv w metrics.emptyRegistry) as H.
  destruct (metrics.HealthCheckHandler demoEnv w metrics.emptyRegistry)
    as [[resp w'] reg'].
  destruct H as (_ & _ & _ & _ & H).
  apply (H connRefused 1 annRow); reflexivity.
Defined.

(** X25.  The request counter.  The middleware hands on the response
    and the state of the rest of the chain unchanged and counts the
    request once, under the method, the path and a status label.  For
    every status code from 100 to 999 that label is the UTF-8 encoding of
    the code point with that number, a text of one or two bytes, and so
    never the decimal text of the code; distinct codes still get
    distinct labels, from which the code can be read back. *)
Theorem X25_request_counter_label {R : Type} (status : R -> Z)
    (method path : string)
    (next : World -> metrics.Registry -> R * World * metrics.Registry)
    (w : World) (reg : metrics.Registry) :
  let '(resp, w1, reg1) := next w reg in
  let '(resp', w', reg') :=
    metrics.PrometheusMiddleware status method path next w reg in
  resp' = resp /\ w' = w1
  /\ metrics.dbOperationsTotal reg' = metrics.dbOperationsTotal reg1
  /\ metrics.healthCheckStatus reg' = metrics.healthCheckStatus reg1
  /\ metrics.httpRequestDuration reg'
     = (method, path, now w1 - now w) :: metrics.httpRequestDuration reg1
  /\ exists label,
       metrics.httpRequestsTotal reg'
       = (method, path, label) :: metrics.httpRequestsTotal reg1
       /\ (100 <= status resp <= 999 ->
           (String.length label <= 2)%nat
           /\ label <> itoa (status resp)
           /\ codePoint label = status resp
           /\ forall code,
                100 <= code <= 999 ->
                metrics.stringOfRune (metrics.rune code) = label ->
                code = status resp).
Proof.
  unfold metrics.PrometheusMiddleware.
  destruct (next w reg) as [[resp w1] reg1].
  cbn [metrics.RecordHTTPRequest metrics.dbOperationsTotal
       metrics.healthCheckStatus metrics.httpRequestDuration
       metrics.httpRequestsTotal].
  do 5 (split; [reflexivity|]).
  exists (metrics.stringOfRune (metrics.rune (status resp))).
  split; [reflexivity|]. intros Hcode.
  pose proof (statusCodes_all _ label_short (status resp) Hcode) as Hshort.
  cbv beta in Hshort.
  apply andb_true_iff in Hshort. destruct Hshort as [Hshort Hdec].
  apply andb_true_iff in Hshort. destruct Hshort as [Hlen Hne].
  apply Z.eqb_eq in Hdec.
  split; [now apply Nat.leb_le|]. split; [|split; [exact Hdec|]].
  - intros Heq. rewrite Heq, String.eqb_refl in Hne. discriminate.
  - intros code Hc Hsame.
    pose proof (statusCodes_all _ label_short code Hc) as Hcode'.
    cbv beta in Hcode'.
    apply andb_true_iff in Hcode'. destruct Hcode' as [_ Hdec'].
    apply Z.eqb_eq in Hdec'. congruence.
Qed.

Lemma X25_request_counter_label_witness :
  metrics.httpRequestsTotal
    (snd (metrics.PrometheusMiddleware api.Status "GET" "/users"
            (metrics.served (api.GetUsers demoEnv)) annWorld
            metrics.emptyRegistry))
  = [("GET", "/users",
      String (ascii_of_nat 195) (String (ascii_of_nat 136) ""))]
  /\ String (ascii_of_nat 195) (String (ascii_of_nat 136) "") <> "200".
Proof.
  pose proof (X25_request_counter_label api.Status "GET" "/users"
                (metrics.served (api.GetUsers demoEnv)) annWorld
                metrics.emptyRegistry) as H.
  destruct (metrics.served (api.GetUsers demoEnv) annWorld
              metrics.emptyRegistry) as [[resp w1] reg1] eqn:Hnext.
  destruct (metrics.PrometheusMiddleware api.Status "GET" "/users"
              (metrics.served (api.GetUsers demoEnv)) annWorld
              metrics.emptyRegistry) as [[resp' w'] reg'] eqn:Hrun.
  destruct H as (_ & _ & _ & _ & _ & label & Hcount & Hlabel).
  vm_compute in Hnext. injection Hnext as <- <- <-.
  vm_compute in Hrun. injection Hrun as <- <- <-.
  cbn [api.Status] in Hlabel.
  destruct Hlabel as (_ & Hne & _); [split; discriminate|].
  cbn [snd metrics.httpRequestsTotal] in *.
  injection Hcount as <-.
  split; [reflexivity|]. exact Hne.
Defined.

(* ================================================================= *)
(** ** What a business error costs *)

Lemma Create_draws user w :
  ID user = 0 -> hd None (faults w) = None ->
  seq (snd (gorm.Create user w)) = seq w + 1.
Proof.
  intros Hid Hf. unfold gorm.Create, gorm.roundTrip, gorm.insertRow.
  rewrite stamp_ID, Hid.
  destruct (faults w) as [|[f|] fs]; cbn [hd] in Hf; try discriminate;
    cbv beta iota; change (0 =? 0) with true; cbv iota;
    repeat match goal with
           | |- context [if ?c then _ else _] => destruct c
           end; reflexivity.
Qed.

Lemma Create_duplicate_clear user w r :
  ID user = 0 -> In r (rows w) -> Email r = Email user ->
  faults w = [] ->
  exists e u' w',
    gorm.Create user w = (Some e, u', w')
    /\ (ID u' = 0 /\ Email u' = Email user /\ rows w' = rows w
        /\ faults w' = [])
    /\ isViolation e
    /\ calls w' = S (calls w) /\ slept w' = slept w
    /\ seq w' = seq w + 1.
Proof.
  intros Hid Hin Hmail Hf.
  pose proof (Create_cost user w) as [Hc Hs].
  pose proof (Create_draws user w Hid (hd_no_faults w Hf)) as Hq.
  destruct (Create_duplicate user w r Hid Hin Hmail)
    as (e & u' & w' & Hrun & Hid' & Hmail' & Hrows & Hfs & He).
  rewrite Hrun in Hc, Hs, Hq. cbn [snd] in Hc, Hs, Hq.
  rewrite Hf in Hfs, He. cbn [tl] in Hfs.
  exists e, u', w'. repeat split; assumption.
Qed.

(** X26.  The errors that the closures of the data-access layer log as
    not retried are retried: with the store answering every round trip, a
    lookup of a missing identifier (below [2^63], the range of the key
    column) or email and a creation with an email already stored each
    make exactly three round trips and sleep 100 ms and 200 ms before
    they return the error (record-not-found, or the unique violation),
    wrapped with the attempt count 3; each failed insertion has drawn a
    value from the sequence. *)
Theorem X26_business_errors_cost_three_attempts (env : Env) (w : World) :
  faults w = [] ->
  (forall id,
     0 <= id < 2 ^ 63 ->
     gorm.firstByID (fun r => ID r =? id) (rows w) = None ->
     service.GetUser env id w
     = (inr (ErrRetry "find_user_by_id" 3 (Some ErrRecordNotFound)),
        addSlept [100 * Millisecond; 200 * Millisecond]
          (gorm.tick (gorm.tick (gorm.tick w)))))
  /\ (forall email,
        gorm.firstByID (fun r => String.eqb (Email r) email) (rows w)
        = None ->
        service.GetUserByEmail env email w
        = (inr (ErrRetry "find_user_by_email" 3 (Some ErrRecordNotFound)),
           addSlept [100 * Millisecond; 200 * Millisecond]
             (gorm.tick (gorm.tick (gorm.tick w)))))
  /\ (forall name email password h r,
        GenerateFromPassword env password = inl h ->
        In r (rows w) -> Email r = email ->
        exists e w',
          service.CreateUser env name email password w
          = (inr (ErrRetry "create_user" 3 (Some e)), w')
          /\ isViolation e
          /\ calls w' = (calls w + 3)%nat
          /\ slept w'
             = (slept w ++ [100 * Millisecond; 200 * Millisecond])%list
          /\ rows w' = rows w
          /\ seq w' = seq w + 3).
Proof.
  intros Hf. split; [|split].
  - intros id _ Hnone.
    unfold service.GetUser, database.FindUserByIDWithRetry.
    rewrite ExecuteWithRetry_default. cbv beta iota.
    rewrite First_clear by now apply hd_no_faults.
    rewrite Hnone. cbn [IsRecordNotFound]. cbv beta iota.
    rewrite First_clear by (apply hd_no_faults; now apply tick_no_faults).
    cbn [gorm.tick rows]. rewrite Hnone.
    cbn [IsRecordNotFound]. cbv beta iota.
    rewrite First_clear
      by (apply hd_no_faults; do 2 apply tick_no_faults; exact Hf).
    cbn [gorm.tick rows]. rewrite Hnone. reflexivity.
  - intros email Hnone.
    unfold service.GetUserByEmail, database.FindUserByEmailWithRetry.
    rewrite ExecuteWithRetry_default. cbv beta iota.
    rewrite WhereEmailFirst_clear by now apply hd_no_faults.
    rewrite Hnone. cbn [IsRecordNotFound]. cbv beta iota.
    rewrite WhereEmailFirst_clear
      by (apply hd_no_faults; now apply tick_no_faults).
    cbn [gorm.tick rows]. rewrite Hnone.
    cbn [IsRecordNotFound]. cbv beta iota.
    rewrite WhereEmailFirst_clear
      by (apply hd_no_faults; do 2 apply tick_no_faults; exact Hf).
    cbn [gorm.tick rows]. rewrite Hnone. reflexivity.
  - intros name email password h r Hh Hin Hmail.
    unfold service.CreateUser. rewrite Hh.
    unfold database.CreateUserWithRetry.
    rewrite ExecuteWithRetry_default. cbv beta iota.
    set (user := {| ID := 0; Name := name; Email := email; Password := h;
                    CreatedAt := 0; UpdatedAt := 0 |}).
    change (rows w) with (rows (addHashed w)) in Hin.
    change (Email r = Email user) in Hmail.
    destruct (Create_duplicate_clear user (addHashed w) r eq_refl Hin
                Hmail Hf)
      as (e1 & u1 & w1 & -> & (Hi1 & Hm1 & Hr1 & Hf1) & _ & Hc1 & Hs1 & Hq1).
    cbv beta iota. destruct (database.isUniqueViolation e1); cbv beta iota.
    all: rewrite <- Hr1 in Hin; rewrite <- Hm1 in Hmail.
    all: destruct (Create_duplicate_clear u1 w1 r Hi1 Hin Hmail Hf1)
           as (e2 & u2 & w2 & -> & (Hi2 & Hm2 & Hr2 & Hf2) & _ & Hc2 & Hs2
               & Hq2).
    all: cbv beta iota; destruct (database.isUniqueViolation e2);
      cbv beta iota.
    all: rewrite <- Hr2 in Hin; rewrite <- Hm2 in Hmail.
    all: destruct (Create_duplicate_clear u2 w2 r Hi2 Hin Hmail Hf2)
           as (e3 & u3 & w3 & -> & (Hi3 & Hm3 & Hr3 & Hf3) & He3 & Hc3 & Hs3
               & Hq3).
    all: cbv beta iota; destruct (database.isUniqueViolation e3);
      cbv beta iota.
    all: exists e3; eexists; split; [reflexivity|].
    all: cbn [calls slept rows seq addSlept addHashed] in *.
    all: repeat split; try assumption; try congruence; try lia.
Qed.

Lemma X26_business_errors_cost_three_attempts_witness :
  calls (snd (service.GetUser demoEnv 7 annWorld))
  = (calls annWorld + 3)%nat
  /\ slept (snd (service.GetUser demoEnv 7 annWorld))
     = (slept annWorld ++ [100 * Millisecond; 200 * Millisecond])%list
  /\ exists e w',
       service.CreateUser demoEnv "Ann2" "ann@x.com" "secret2" annWorld
       = (inr (ErrRetry "create_user" 3 (Some e)), w')
       /\ seq w' = seq annWorld + 3.
Proof.
  destruct (X26_business_errors_cost_three_attempts demoEnv annWorld
              eq_refl) as (Hget & _ & Hcreate).
  assert (0 <= 7 < 2 ^ 63) as Hid
    by (vm_compute; split; [discriminate | reflexivity]).
  rewrite (Hget 7 Hid eq_refl).
  split; [reflexivity|]. split; [reflexivity|].
  destruct (Hcreate "Ann2" "ann@x.com" "secret2" "$2a$10$secret2" annRow
              eq_refl (or_introl eq_refl) eq_refl)
    as (e & w' & Hrun & _ & _ & _ & _ & Hseq).
  exists e, w'. split; [exact Hrun | exact Hseq].
Defined.
